(** * SportBeacon: the state logic of the Unreal widgets and of the map actor

    A shallow embedding of the sequencing logic found in
    [unreal/Source/SportBeacon]: the coaching flow script, the map view
    (zoom, marker lifecycle, player relocation), the voice input manager,
    the media player widget, the timeline feed and the challenge card.

    Conventions of the embedding.
    - A C++ [float] is an IEEE 754 binary32 value, represented by the
      Standard Library's [spec_float] with precision 24 and maximal
      exponent 128; arithmetic is the correctly rounded one of [SpecFloat].
    - A [UObject*] (or any engine pointer) is a [Ptr]: [None] is [nullptr],
      [Some n] is the object numbered [n].
    - An [FString] is a [string].  The engine compares and hashes FStrings
      without regard to case; a model string stands for the case-folded
      FString, on which the engine's [==] is plain equality.
    - A [TMap<FString, V>] is a [gmap string V], a [TArray<T>] a [list T].
    - Calls into the engine that leave no trace in the fields of the object
      itself (delegate broadcasts, widget setters, socket traffic) are
      appended to a log of effects, oldest first. *)

From Stdlib Require Import ZArith List String Ascii Bool Lia.
From Stdlib Require Import Floats.SpecFloat.
From stdpp Require Import base option gmap strings list.

Open Scope Z_scope.

(* ===================================================================== *)
(** * Part I: the model *)
(* ===================================================================== *)

(** ** binary32 floats and the engine's [FMath] helpers *)

Module Float32.

(** The values a program computes with are the canonical ones
    ([valid_binary]); on them [SFcompare] is the numeric order.  The facts
    proved below hold of every [spec_float]. *)
Definition float : Type := spec_float.

Definition prec : Z := 24.
Definition emax : Z := 128.

(** Conversion of an integer to [float] (round to nearest even), as done by
    a C++ implicit conversion [int32 -> float] and by integral literals. *)
Definition of_Z (z : Z) : float := binary_normalize prec emax z 0 false.

Definition fadd : float -> float -> float := SFadd prec emax.
Definition fsub : float -> float -> float := SFsub prec emax.
Definition fmul : float -> float -> float := SFmul prec emax.
Definition fdiv : float -> float -> float := SFdiv prec emax.
Definition fneg : float -> float := SFopp.
Definition fltb : float -> float -> bool := SFltb.
Definition fleb : float -> float -> bool := SFleb.

Definition is_nan (x : float) : bool :=
  match x with S754_nan => true | _ => false end.

Definition is_infinite (x : float) : bool :=
  match x with S754_infinity _ => true | _ => false end.

(** A number in the ordinary sense: neither NaN nor an infinity. *)
Definition is_finite (x : float) : bool :=
  match x with S754_zero _ | S754_finite _ _ _ => true | _ => false end.

(** [x] lies in the closed interval [[lo, hi]] (false when any is NaN). *)
Definition within (lo hi x : float) : bool := fleb lo x && fleb x hi.

(** [FMath::Clamp] of UnrealMathUtility.h:
    [return X<Min ? Min : X<Max ? X : Max;] *)
Definition Clamp (X Min Max : float) : float :=
  if fltb X Min then Min else if fltb X Max then X else Max.

End Float32.

(** ** Engine objects *)

Abbreviation ObjId := nat (only parsing).
Abbreviation Ptr := (option nat) (only parsing).
Definition FString : Type := string.

(** [FLinearColor] *)
Record FLinearColor := mkColor {
  R : Float32.float;
  G : Float32.float;
  B : Float32.float;
  A : Float32.float
}.

(** The truth value of a pointer in a C++ condition. *)
Definition nonnull (p : Ptr) : bool :=
  match p with Some _ => true | None => false end.

(** ** MapView.h / MapView.cpp *)

Module MapView.
Import Float32.

Record FVector2D := mkFVector2D { cX : float; cY : float }.
Record FVector := mkFVector { vX : float; vY : float; vZ : float }.

(** [FDateTime], as its tick count. *)
Definition FDateTime : Type := Z.

Module FVenueData.
Record t := mk {
  Id : FString;
  Name : FString;
  Sports : list FString;
  Coordinates : FVector2D;
  Description : FString;
  Images : list FString;
  bIsIndoor : bool
}.
End FVenueData.

Module FPlayerData.
Record t := mk {
  Id : FString;
  Name : FString;
  Coordinates : FVector2D;
  AvatarUrl : FString;
  Sport : FString;
  Status : FString;
  LastActive : FString;
  VenueId : FString
}.
Definition set_Coordinates (c : FVector2D) (p : t) : t :=
  {| Id := Id p; Name := Name p; Coordinates := c; AvatarUrl := AvatarUrl p;
     Sport := Sport p; Status := Status p; LastActive := LastActive p;
     VenueId := VenueId p |}.
Definition set_Status (st : FString) (p : t) : t :=
  {| Id := Id p; Name := Name p; Coordinates := Coordinates p;
     AvatarUrl := AvatarUrl p; Sport := Sport p; Status := st;
     LastActive := LastActive p; VenueId := VenueId p |}.

End FPlayerData.

Module FEventData.
Record t := mk {
  Id : FString;
  EventType : FString;
  VenueId : FString;
  Title : FString;
  Status : FString;
  StartTime : FDateTime;
  Description : FString
}.
Definition set_Status (st : FString) (e : t) : t :=
  {| Id := Id e; EventType := EventType e; VenueId := VenueId e;
     Title := Title e; Status := st; StartTime := StartTime e;
     Description := Description e |}.

End FEventData.

Module FHighlightData.
Record t := mk {
  Id : FString;
  PlayerId : FString;
  HighlightType : FString;
  Description : FString;
  ScoreImpact : float;
  ConfidenceScore : float;
  Timestamp : FDateTime;
  Coordinates : FVector2D
}.
End FHighlightData.

(** *** The engine side: the world the actor lives in *)

(** What the map view sets on a spawned [AStaticMeshActor]. *)
Record AStaticMeshActor := mkActor {
  ActorLocation : FVector;
  Movable : bool;
  StaticMesh : Ptr;
  (** parent of the dynamic material instance in slot 0 *)
  Material : Ptr;
  Tags : list FString
}.

(** A tooltip [UWidgetComponent]. *)
Record UWidgetComponent := mkComponent {
  WidgetClass : Ptr;
  AttachedTo : ObjId;
  bVisible : bool
}.

(** [FTimerHandle]; 0 is the invalid handle. *)
Definition FTimerHandle : Type := nat.

Record World := mkWorld {
  (** the actors alive in the level *)
  Actors : gmap ObjId AStaticMeshActor;
  Components : gmap ObjId UWidgetComponent;
  (** the timer manager: running timers with the bound function and its
      argument *)
  Timers : gmap FTimerHandle (FString * FString);
  (** the number the next created object gets *)
  NextObject : ObjId;
  NextTimer : FTimerHandle
}.

(** What the code takes from its surroundings without fixing it: the math
    library, the outcome of each spawn request, and the content of a local
    variable that is read before anything was stored in it. *)
Record Env := mkEnv {
  Loge : float -> float;
  Tan : float -> float;
  (** does the spawn that would create object [n] succeed? *)
  SpawnSucceeds : ObjId -> bool;
  (** the bytes found in the uninitialised local of loop round [i] *)
  Indeterminate : nat -> FVector2D
}.

Definition set_Actors (v : gmap ObjId AStaticMeshActor) (w : World) : World :=
  {| Actors := v; Components := Components w; Timers := Timers w;
     NextObject := NextObject w; NextTimer := NextTimer w |}.

(** [UWorld::SpawnActor<AStaticMeshActor>]: a null result on failure. *)
Definition SpawnActor (env : Env) (Location : FVector) (w : World)
  : Ptr * World :=
  let n := NextObject w in
  if SpawnSucceeds env n then
    (Some n,
     {| Actors := <[n := mkActor Location false None None []]> (Actors w);
        Components := Components w; Timers := Timers w;
        NextObject := S n; NextTimer := NextTimer w |})
  else
    (None,
     {| Actors := Actors w; Components := Components w; Timers := Timers w;
        NextObject := S n; NextTimer := NextTimer w |}).

(** [AActor::Destroy]: the actor leaves the level. *)
Definition Destroy (a : ObjId) (w : World) : World :=
  set_Actors (delete a (Actors w)) w.

Definition SetMobility_Movable (a : ObjId) (w : World) : World :=
  set_Actors (alter (fun x => mkActor (ActorLocation x) true (StaticMesh x)
                                      (Material x) (Tags x)) a (Actors w)) w.

Definition SetStaticMesh (a : ObjId) (m : Ptr) (w : World) : World :=
  set_Actors (alter (fun x => mkActor (ActorLocation x) (Movable x) m
                                      (Material x) (Tags x)) a (Actors w)) w.

(** [SetMaterial(0, UMaterialInstanceDynamic::Create(m, this))] *)
Definition SetMaterial (a : ObjId) (m : Ptr) (w : World) : World :=
  set_Actors (alter (fun x => mkActor (ActorLocation x) (Movable x)
                                      (StaticMesh x) m (Tags x)) a (Actors w)) w.

Definition AddTag (a : ObjId) (tag : FString) (w : World) : World :=
  set_Actors (alter (fun x => mkActor (ActorLocation x) (Movable x)
                                      (StaticMesh x) (Material x)
                                      (Tags x ++ [tag])) a (Actors w)) w.

Definition SetActorLocation (a : ObjId) (l : FVector) (w : World) : World :=
  set_Actors (alter (fun x => mkActor l (Movable x) (StaticMesh x)
                                      (Material x) (Tags x)) a (Actors w)) w.

(** [NewObject<UWidgetComponent>(MarkerActor)] with the class set, attached
    to the marker and hidden. *)
Definition NewTooltip (cls : Ptr) (a : ObjId) (w : World) : ObjId * World :=
  let n := NextObject w in
  (n, {| Actors := Actors w;
         Components := <[n := mkComponent cls a false]> (Components w);
         Timers := Timers w; NextObject := S n; NextTimer := NextTimer w |}).

(** [ClearTimer(h)] followed by [SetTimer(h, delegate, 0.016f, true)]: the
    timer of the old handle stops and a new handle is handed out. *)
Definition RestartTimer (h : FTimerHandle) (fn arg : FString) (w : World)
  : FTimerHandle * World :=
  let n := NextTimer w in
  (n, {| Actors := Actors w; Components := Components w;
         Timers := <[n := (fn, arg)]> (delete h (Timers w));
         NextObject := NextObject w; NextTimer := S n |}).

(** *** The actor *)

(** The properties set in the editor (EditAnywhere, EditDefaultsOnly); no
    function below writes them after construction. *)
Record Properties := mkProperties {
  MinZoom : float;
  MaxZoom : float;
  ZoomSpeed : float;
  PanSpeed : float;
  RotationSpeed : float;
  DefaultVenueMarker : Ptr;
  IndoorVenueMaterial : Ptr;
  OutdoorVenueMaterial : Ptr;
  PlayerMarkerMesh : Ptr;
  EventMarkerMesh : Ptr;
  ActivePlayerMaterial : Ptr;
  InactivePlayerMaterial : Ptr;
  LiveEventMaterial : Ptr;
  UpcomingEventMaterial : Ptr;
  TooltipWidgetClass : Ptr;
  PulseCurve : Ptr;
  FadeCurve : Ptr
}.

Record AMapView := mkMapView {
  Props : Properties;
  CameraLocation : FVector;
  MapCenter : FVector2D;
  CurrentZoom : float;
  Venues : list FVenueData.t;
  Players : list FPlayerData.t;
  Events : list FEventData.t;
  ActiveHighlights : list FHighlightData.t;
  VenueMarkers : gmap string Ptr;
  PlayerMarkers : gmap string Ptr;
  EventMarkers : gmap string Ptr;
  MarkerTooltips : gmap string Ptr;
  AnimationTimers : gmap string FTimerHandle;
  HighlightMarkers : gmap string Ptr
}.

Definition set_CameraLocation (v : FVector) (s : AMapView) : AMapView :=
  {| Props := Props s; CameraLocation := v; MapCenter := MapCenter s;
     CurrentZoom := CurrentZoom s; Venues := Venues s; Players := Players s;
     Events := Events s; ActiveHighlights := ActiveHighlights s;
     VenueMarkers := VenueMarkers s; PlayerMarkers := PlayerMarkers s;
     EventMarkers := EventMarkers s; MarkerTooltips := MarkerTooltips s;
     AnimationTimers := AnimationTimers s;
     HighlightMarkers := HighlightMarkers s |}.

Definition set_CurrentZoom (v : float) (s : AMapView) : AMapView :=
  {| Props := Props s; CameraLocation := CameraLocation s;
     MapCenter := MapCenter s; CurrentZoom := v; Venues := Venues s;
     Players := Players s; Events := Events s;
     ActiveHighlights := ActiveHighlights s; VenueMarkers := VenueMarkers s;
     PlayerMarkers := PlayerMarkers s; EventMarkers := EventMarkers s;
     MarkerTooltips := MarkerTooltips s;
     AnimationTimers := AnimationTimers s;
     HighlightMarkers := HighlightMarkers s |}.

Definition set_Venues (v : list FVenueData.t) (s : AMapView) : AMapView :=
  {| Props := Props s; CameraLocation := CameraLocation s;
     MapCenter := MapCenter s; CurrentZoom := CurrentZoom s; Venues := v;
     Players := Players s; Events := Events s;
     ActiveHighlights := ActiveHighlights s; VenueMarkers := VenueMarkers s;
     PlayerMarkers := PlayerMarkers s; EventMarkers := EventMarkers s;
     MarkerTooltips := MarkerTooltips s;
     AnimationTimers := AnimationTimers s;
     HighlightMarkers := HighlightMarkers s |}.

Definition set_Players (v : list FPlayerData.t) (s : AMapView) : AMapView :=
  {| Props := Props s; CameraLocation := CameraLocation s;
     MapCenter := MapCenter s; CurrentZoom := CurrentZoom s;
     Venues := Venues s; Players := v; Events := Events s;
     ActiveHighlights := ActiveHighlights s; VenueMarkers := VenueMarkers s;
     PlayerMarkers := PlayerMarkers s; EventMarkers := EventMarkers s;
     MarkerTooltips := MarkerTooltips s;
     AnimationTimers := AnimationTimers s;
     HighlightMarkers := HighlightMarkers s |}.

Definition set_Events (v : list FEventData.t) (s : AMapView) : AMapView :=
  {| Props := Props s; CameraLocation := CameraLocation s;
     MapCenter := MapCenter s; CurrentZoom := CurrentZoom s;
     Venues := Venues s; Players := Players s; Events := v;
     ActiveHighlights := ActiveHighlights s; VenueMarkers := VenueMarkers s;
     PlayerMarkers := PlayerMarkers s; EventMarkers := EventMarkers s;
     MarkerTooltips := MarkerTooltips s;
     AnimationTimers := AnimationTimers s;
     HighlightMarkers := HighlightMarkers s |}.

Definition set_VenueMarkers (v : gmap string Ptr) (s : AMapView) : AMapView :=
  {| Props := Props s; CameraLocation := CameraLocation s;
     MapCenter := MapCenter s; CurrentZoom := CurrentZoom s;
     Venues := Venues s; Players := Players s; Events := Events s;
     ActiveHighlights := ActiveHighlights s; VenueMarkers := v;
     PlayerMarkers := PlayerMarkers s; EventMarkers := EventMarkers s;
     MarkerTooltips := MarkerTooltips s;
     AnimationTimers := AnimationTimers s;
     HighlightMarkers := HighlightMarkers s |}.

Definition set_PlayerMarkers (v : gmap string Ptr) (s : AMapView) : AMapView :=
  {| Props := Props s; CameraLocation := CameraLocation s;
     MapCenter := MapCenter s; CurrentZoom := CurrentZoom s;
     Venues := Venues s; Players := Players s; Events := Events s;
     ActiveHighlights := ActiveHighlights s; VenueMarkers := VenueMarkers s;
     PlayerMarkers := v; EventMarkers := EventMarkers s;
     MarkerTooltips := MarkerTooltips s;
     AnimationTimers := AnimationTimers s;
     HighlightMarkers := HighlightMarkers s |}.

Definition set_EventMarkers (v : gmap string Ptr) (s : AMapView) : AMapView :=
  {| Props := Props s; CameraLocation := CameraLocation s;
     MapCenter := MapCenter s; CurrentZoom := CurrentZoom s;
     Venues := Venues s; Players := Players s; Events := Events s;
     ActiveHighlights := ActiveHighlights s; VenueMarkers := VenueMarkers s;
     PlayerMarkers := PlayerMarkers s; EventMarkers := v;
     MarkerTooltips := MarkerTooltips s;
     AnimationTimers := AnimationTimers s;
     HighlightMarkers := HighlightMarkers s |}.

Definition set_MarkerTooltips (v : gmap string Ptr) (s : AMapView) : AMapView :=
  {| Props := Props s; CameraLocation := CameraLocation s;
     MapCenter := MapCenter s; CurrentZoom := CurrentZoom s;
     Venues := Venues s; Players := Players s; Events := Events s;
     ActiveHighlights := ActiveHighlights s; VenueMarkers := VenueMarkers s;
     PlayerMarkers := PlayerMarkers s; EventMarkers := EventMarkers s;
     MarkerTooltips := v; AnimationTimers := AnimationTimers s;
     HighlightMarkers := HighlightMarkers s |}.

Definition set_AnimationTimers (v : gmap string FTimerHandle) (s : AMapView) : AMapView :=
  {| Props := Props s; CameraLocation := CameraLocation s;
     MapCenter := MapCenter s; CurrentZoom := CurrentZoom s;
     Venues := Venues s; Players := Players s; Events := Events s;
     ActiveHighlights := ActiveHighlights s; VenueMarkers := VenueMarkers s;
     PlayerMarkers := PlayerMarkers s; EventMarkers := EventMarkers s;
     MarkerTooltips := MarkerTooltips s; AnimationTimers := v;
     HighlightMarkers := HighlightMarkers s |}.

(** [AMapView::AMapView]: the camera sits 1000 units above the root, no
    asset is assigned, no data is stored. *)
Definition AMapView_ctor : AMapView :=
  {| Props := {| MinZoom := of_Z 500; MaxZoom := of_Z 5000;
                 ZoomSpeed := of_Z 100; PanSpeed := of_Z 1;
                 RotationSpeed := of_Z 1;
                 DefaultVenueMarker := None; IndoorVenueMaterial := None;
                 OutdoorVenueMaterial := None; PlayerMarkerMesh := None;
                 EventMarkerMesh := None; ActivePlayerMaterial := None;
                 InactivePlayerMaterial := None; LiveEventMaterial := None;
                 UpcomingEventMaterial := None; TooltipWidgetClass := None;
                 PulseCurve := None; FadeCurve := None |};
     CameraLocation := mkFVector (of_Z 0) (of_Z 0) (of_Z 1000);
     MapCenter := mkFVector2D (of_Z 0) (of_Z 0);
     CurrentZoom := of_Z 1000;
     Venues := []; Players := []; Events := []; ActiveHighlights := [];
     VenueMarkers := ∅; PlayerMarkers := ∅; EventMarkers := ∅;
     MarkerTooltips := ∅; AnimationTimers := ∅; HighlightMarkers := ∅ |}.

(** [AMapView::ZoomIn] *)
Definition ZoomIn (Delta : float) (s : AMapView) : AMapView :=
  let NewZoom :=
    Clamp (fsub (CurrentZoom s) (fmul Delta (ZoomSpeed (Props s))))
          (MinZoom (Props s)) (MaxZoom (Props s)) in
  let s1 := set_CurrentZoom NewZoom s in
  (* Update camera position *)
  let Location := CameraLocation s1 in
  set_CameraLocation (mkFVector (vX Location) (vY Location) (CurrentZoom s1)) s1.

(** [AMapView::ZoomOut] *)
Definition ZoomOut (Delta : float) (s : AMapView) : AMapView :=
  ZoomIn (fneg Delta) s.

(** A call of one of the two zoom functions, and a run of such calls. *)
Inductive ZoomCall :=
| CallZoomIn (Delta : float)
| CallZoomOut (Delta : float).

Definition zoom_call (c : ZoomCall) (s : AMapView) : AMapView :=
  match c with
  | CallZoomIn d => ZoomIn d s
  | CallZoomOut d => ZoomOut d s
  end.

Definition zoom_calls (cs : list ZoomCall) (s : AMapView) : AMapView :=
  fold_left (fun s c => zoom_call c s) cs s.

(** [PI] of the engine, the binary32 value nearest to pi. *)
Definition PI : float := S754_finite false 13176795 (-22).

(** [FMath::DegreesToRadians]: [DegVal * (PI / 180.f)] *)
Definition DegreesToRadians (DegVal : float) : float :=
  fmul DegVal (fdiv PI (of_Z 180)).

(** [AMapView::LatLongToWorldLocation] *)
Definition LatLongToWorldLocation (env : Env) (Coordinates : FVector2D)
  : FVector :=
  let WorldScale := of_Z 100 in
  let X := fmul (cX Coordinates) WorldScale in
  let Y :=
    fmul (Loge env (Tan env (fadd (fdiv (DegreesToRadians (cY Coordinates))
                                        (of_Z 2))
                                  (fdiv PI (of_Z 4)))))
         WorldScale in
  mkFVector X Y (of_Z 0).

(** [TMap::FindRef]: the stored pointer, or null for a missing key. *)
Definition FindRef (m : gmap string Ptr) (k : FString) : Ptr :=
  default None (m !! k).

(** One round of the loop [for (auto& Marker : Markers)]:
    [if (Marker.Value) Marker.Value->Destroy();] *)
Definition DestroyMarker (Marker : string * Ptr) (w : World) : World :=
  match Marker.2 with Some a => Destroy a w | None => w end.

(** The whole loop over a marker map. *)
Definition DestroyMarkers (m : gmap string Ptr) (w : World) : World :=
  foldr DestroyMarker w (map_to_list m).

(** A range-based [for] over a stored array whose body works on the actor
    and the world; [i] counts the rounds. *)
Fixpoint for_each {D : Type}
    (body : nat -> D -> AMapView -> World -> AMapView * World)
    (i : nat) (l : list D) (s : AMapView) (w : World) : AMapView * World :=
  match l with
  | [] => (s, w)
  | d :: rest =>
      let '(s1, w1) := body i d s w in
      for_each body (S i) rest s1 w1
  end.

(** [AMapView::StartPulseAnimation] *)
Definition StartPulseAnimation (MarkerId : FString) (s : AMapView) (w : World)
  : AMapView * World :=
  if negb (nonnull (PulseCurve (Props s))) then (s, w)
  else
    (* FindOrAdd: a missing entry starts as the invalid handle *)
    let Timer := default 0%nat (AnimationTimers s !! MarkerId) in
    let '(h, w1) := RestartTimer Timer "OnPulseTimelineUpdate" MarkerId w in
    (set_AnimationTimers (<[MarkerId := h]> (AnimationTimers s)) s, w1).

(** [AMapView::StartFadeAnimation] *)
Definition StartFadeAnimation (MarkerId : FString) (s : AMapView) (w : World)
  : AMapView * World :=
  if negb (nonnull (FadeCurve (Props s))) then (s, w)
  else
    let Timer := default 0%nat (AnimationTimers s !! MarkerId) in
    let '(h, w1) := RestartTimer Timer "OnFadeTimelineUpdate" MarkerId w in
    (set_AnimationTimers (<[MarkerId := h]> (AnimationTimers s)) s, w1).

(** The body of the loop of [AMapView::SpawnVenueMarkers] *)
Definition SpawnVenueMarker (env : Env) (i : nat) (Venue : FVenueData.t)
    (s : AMapView) (w : World) : AMapView * World :=
  (* Convert lat/long to world location *)
  let Location := LatLongToWorldLocation env (FVenueData.Coordinates Venue) in
  let '(MarkerActor, w1) := SpawnActor env Location w in
  match MarkerActor with
  | Some a =>
      let w2 := SetMobility_Movable a w1 in
      let w3 := SetStaticMesh a (DefaultVenueMarker (Props s)) w2 in
      let MaterialToUse :=
        if FVenueData.bIsIndoor Venue then IndoorVenueMaterial (Props s)
        else OutdoorVenueMaterial (Props s) in
      let w4 := if nonnull MaterialToUse then SetMaterial a MaterialToUse w3
                else w3 in
      (* Store reference *)
      let s1 :=
        set_VenueMarkers (<[FVenueData.Id Venue := Some a]> (VenueMarkers s)) s in
      (s1, AddTag a (FVenueData.Id Venue) w4)
  | None => (s, w1)
  end.

(** [AMapView::SpawnVenueMarkers] *)
Definition SpawnVenueMarkers (env : Env) (s : AMapView) (w : World)
  : AMapView * World :=
  if negb (nonnull (DefaultVenueMarker (Props s))) then (s, w)
  else for_each (SpawnVenueMarker env) 0 (Venues s) s w.

(** [AMapView::UpdateVenues] *)
Definition UpdateVenues (env : Env) (NewVenues : list FVenueData.t)
    (s : AMapView) (w : World) : AMapView * World :=
  (* Clear existing markers *)
  let w1 := DestroyMarkers (VenueMarkers s) w in
  let s1 := set_VenueMarkers ∅ s in
  (* Update venue data *)
  let s2 := set_Venues NewVenues s1 in
  (* Spawn new markers *)
  SpawnVenueMarkers env s2 w1.

(** The tooltip block shared by the player and the event loop. *)
Definition AddTooltip (MarkerId : FString) (a : ObjId) (s : AMapView)
    (w : World) : AMapView * World :=
  if nonnull (TooltipWidgetClass (Props s)) then
    let '(TooltipWidget, w1) := NewTooltip (TooltipWidgetClass (Props s)) a w in
    (set_MarkerTooltips (<[MarkerId := Some TooltipWidget]> (MarkerTooltips s)) s,
     w1)
  else (s, w).

(** The body of the loop of [AMapView::SpawnPlayerMarkers] *)
Definition SpawnPlayerMarker (env : Env) (i : nat) (Player : FPlayerData.t)
    (s : AMapView) (w : World) : AMapView * World :=
  let Location := LatLongToWorldLocation env (FPlayerData.Coordinates Player) in
  let '(MarkerActor, w1) := SpawnActor env Location w in
  match MarkerActor with
  | Some a =>
      let w2 := SetMobility_Movable a w1 in
      let w3 := SetStaticMesh a (PlayerMarkerMesh (Props s)) w2 in
      (* Apply material based on status *)
      let MaterialToUse :=
        if decide (FPlayerData.Status Player = "active")
        then ActivePlayerMaterial (Props s)
        else InactivePlayerMaterial (Props s) in
      let w4 := if nonnull MaterialToUse then SetMaterial a MaterialToUse w3
                else w3 in
      (* Add tooltip widget *)
      let '(s1, w5) := AddTooltip (FPlayerData.Id Player) a s w4 in
      (* Store reference *)
      let s2 :=
        set_PlayerMarkers (<[FPlayerData.Id Player := Some a]> (PlayerMarkers s1))
                          s1 in
      let w6 := AddTag a (FPlayerData.Id Player) w5 in
      (* Start animations if needed *)
      if decide (FPlayerData.Status Player = "active") then (s2, w6)
      else StartFadeAnimation (FPlayerData.Id Player) s2 w6
  | None => (s, w1)
  end.

(** [AMapView::SpawnPlayerMarkers] *)
Definition SpawnPlayerMarkers (env : Env) (s : AMapView) (w : World)
  : AMapView * World :=
  if negb (nonnull (PlayerMarkerMesh (Props s))) then (s, w)
  else for_each (SpawnPlayerMarker env) 0 (Players s) s w.

(** [AMapView::UpdatePlayers] *)
Definition UpdatePlayers (env : Env) (NewPlayers : list FPlayerData.t)
    (s : AMapView) (w : World) : AMapView * World :=
  let w1 := DestroyMarkers (PlayerMarkers s) w in
  let s1 := set_PlayerMarkers ∅ s in
  let s2 := set_Players NewPlayers s1 in
  SpawnPlayerMarkers env s2 w1.

(** The inner loop of [AMapView::SpawnEventMarkers]: [VenueCoords] is
    assigned when a venue with the event's [VenueId] is met, and keeps what
    it held otherwise. *)
Fixpoint FindVenueCoords (VenueId : FString) (vs : list FVenueData.t)
    (VenueCoords : FVector2D) : FVector2D :=
  match vs with
  | [] => VenueCoords
  | Venue :: rest =>
      if decide (FVenueData.Id Venue = VenueId)
      then FVenueData.Coordinates Venue
      else FindVenueCoords VenueId rest VenueCoords
  end.

(** Where the marker of an event is spawned in round [i]:
    [FVector2D VenueCoords;] is declared without a value, so the loop above
    starts from whatever the local holds. *)
Definition EventMarkerLocation (env : Env) (i : nat) (Event : FEventData.t)
    (s : AMapView) : FVector :=
  let VenueCoords :=
    FindVenueCoords (FEventData.VenueId Event) (Venues s) (Indeterminate env i) in
  let Location := LatLongToWorldLocation env VenueCoords in
  (* Offset above venue marker *)
  mkFVector (vX Location) (vY Location) (fadd (vZ Location) (of_Z 100)).

(** The body of the loop of [AMapView::SpawnEventMarkers] *)
Definition SpawnEventMarker (env : Env) (i : nat) (Event : FEventData.t)
    (s : AMapView) (w : World) : AMapView * World :=
  let Location := EventMarkerLocation env i Event s in
  let '(MarkerActor, w1) := SpawnActor env Location w in
  match MarkerActor with
  | Some a =>
      let w2 := SetMobility_Movable a w1 in
      let w3 := SetStaticMesh a (EventMarkerMesh (Props s)) w2 in
      let MaterialToUse :=
        if decide (FEventData.Status Event = "active")
        then LiveEventMaterial (Props s)
        else UpcomingEventMaterial (Props s) in
      let w4 := if nonnull MaterialToUse then SetMaterial a MaterialToUse w3
                else w3 in
      let '(s1, w5) := AddTooltip (FEventData.Id Event) a s w4 in
      let s2 :=
        set_EventMarkers (<[FEventData.Id Event := Some a]> (EventMarkers s1))
                         s1 in
      let w6 := AddTag a (FEventData.Id Event) w5 in
      if decide (FEventData.Status Event = "active")
      then StartPulseAnimation (FEventData.Id Event) s2 w6
      else (s2, w6)
  | None => (s, w1)
  end.

(** [AMapView::SpawnEventMarkers] *)
Definition SpawnEventMarkers (env : Env) (s : AMapView) (w : World)
  : AMapView * World :=
  if negb (nonnull (EventMarkerMesh (Props s))) then (s, w)
  else for_each (SpawnEventMarker env) 0 (Events s) s w.

(** [AMapView::UpdateEvents] *)
Definition UpdateEvents (env : Env) (NewEvents : list FEventData.t)
    (s : AMapView) (w : World) : AMapView * World :=
  let w1 := DestroyMarkers (EventMarkers s) w in
  let s1 := set_EventMarkers ∅ s in
  let s2 := set_Events NewEvents s1 in
  SpawnEventMarkers env s2 w1.

(** The loop of [AMapView::UpdatePlayerLocation] over [Players], leaving at
    the first player with the given id. *)
Fixpoint UpdatePlayerLocation_loop (env : Env) (PlayerId : FString)
    (NewLocation : FVector2D) (markers : gmap string Ptr)
    (ps : list FPlayerData.t) (w : World) : list FPlayerData.t * World :=
  match ps with
  | [] => ([], w)
  | Player :: rest =>
      if decide (FPlayerData.Id Player = PlayerId) then
        let Player' := FPlayerData.set_Coordinates NewLocation Player in
        (* Update marker position *)
        let w1 :=
          match FindRef markers PlayerId with
          | Some Marker =>
              SetActorLocation Marker (LatLongToWorldLocation env NewLocation) w
          | None => w
          end in
        (Player' :: rest, w1)
      else
        let '(rest', w1) :=
          UpdatePlayerLocation_loop env PlayerId NewLocation markers rest w in
        (Player :: rest', w1)
  end.

(** [AMapView::UpdatePlayerLocation] *)
Definition UpdatePlayerLocation (env : Env) (PlayerId : FString)
    (NewLocation : FVector2D) (s : AMapView) (w : World) : AMapView * World :=
  let '(ps, w1) :=
    UpdatePlayerLocation_loop env PlayerId NewLocation (PlayerMarkers s)
                              (Players s) w in
  (set_Players ps s, w1).

(** Every stored marker is an object the world has handed out. *)
Definition allocated (m : gmap string Ptr) (w : World) : Prop :=
  forall k a, m !! k = Some (Some a) -> (a < NextObject w)%nat.

(** The same, for the three marker maps of the actor. *)
Definition markers_allocated (s : AMapView) (w : World) : Prop :=
  allocated (VenueMarkers s) w
  /\ allocated (PlayerMarkers s) w
  /\ allocated (EventMarkers s) w.

(** No actor is stored under two ids. *)
Definition unshared (m : gmap string Ptr) : Prop :=
  forall k1 k2 a, m !! k1 = Some (Some a) -> m !! k2 = Some (Some a) -> k1 = k2.

(** What one round of a spawning loop does whether its spawn succeeds or
    not: the stored array is left alone, objects are only added to the
    world, the actors that existed are not touched, and an actor newly
    stored in the marker map is a new object.  [markers] reads the marker
    map of the kind, [data] its array, [body] is the round. *)
Definition round_frame {D : Type} (markers : AMapView -> gmap string Ptr)
    (data : AMapView -> list D)
    (body : nat -> D -> AMapView -> World -> AMapView * World)
    (i : nat) (d : D) (s : AMapView) (w : World) : Prop :=
  data (body i d s w).1 = data s
  /\ (NextObject w <= NextObject (body i d s w).2)%nat
  /\ (forall b, (b < NextObject w)%nat ->
        Actors (body i d s w).2 !! b = Actors w !! b)
  /\ (forall k a, markers (body i d s w).1 !! k = Some (Some a) ->
        markers s !! k = Some (Some a) \/
        (NextObject w <= a < NextObject (body i d s w).2)%nat).

(** *** What a call does to the markers of one kind in any case

    [NewData] is the array passed in, [OldMarkers] and [w] the marker map
    and the world before the call, [Data'], [Markers'] and [w'] the stored
    array, the marker map and the world after it. *)
Definition Cleared {D : Type} (NewData : list D)
    (OldMarkers : gmap string Ptr) (w : World)
    (Data' : list D) (Markers' : gmap string Ptr) (w' : World) : Prop :=
  (* the stored array is the new one *)
  Data' = NewData
  (* every marker stored before is gone from the level *)
  /\ (forall k a, OldMarkers !! k = Some (Some a) -> Actors w' !! a = None)
  (* and from the map: what it holds now was created by the call *)
  /\ (forall k a, Markers' !! k = Some (Some a) -> (NextObject w <= a)%nat).

(** *** What "full replacement" of one kind of marker means

    [NewData] is the array passed in, [OldMarkers] and [w] the marker map
    and the world before the call, [Data'], [Markers'] and [w'] the stored
    array, the marker map and the world after it. *)
Definition FullReplacement {D : Type} (Id : D -> FString) (NewData : list D)
    (OldMarkers : gmap string Ptr) (w : World)
    (Data' : list D) (Markers' : gmap string Ptr) (w' : World) : Prop :=
  (* the stored array is the new one *)
  Data' = NewData
  (* every marker stored before is gone from the level *)
  /\ (forall k a, OldMarkers !! k = Some (Some a) -> Actors w' !! a = None)
  (* the keys are the ids of the new array *)
  /\ dom Markers' = list_to_set (Id <$> NewData)
  (* each element has a marker under its id: an actor created by this
     call and alive in the level *)
  /\ (forall d, d ∈ NewData ->
       exists a, Markers' !! Id d = Some (Some a) /\
                 (NextObject w <= a)%nat /\ is_Some (Actors w' !! a))
  (* nothing else is stored: no null entry, no actor shared by two ids *)
  /\ (forall k, Markers' !! k <> Some None)
  /\ unshared Markers'
  /\ size Markers' = length NewData.

(** *** Status changes, tooltips and the end of play *)

(** The block [// Update marker visuals] of [AMapView::UpdatePlayerStatus] *)
Definition PlayerStatusVisuals (PlayerId NewStatus : FString) (s : AMapView)
    (w : World) : AMapView * World :=
  match FindRef (PlayerMarkers s) PlayerId with
  | Some Marker =>
      let MaterialToUse :=
        if decide (NewStatus = "active")
        then ActivePlayerMaterial (Props s)
        else InactivePlayerMaterial (Props s) in
      let w1 := if nonnull MaterialToUse
                then SetMaterial Marker MaterialToUse w else w in
      (* Start fade animation if player becomes inactive *)
      if decide (NewStatus = "active") then (s, w1)
      else StartFadeAnimation PlayerId s w1
  | None => (s, w)
  end.

(** The loop of [AMapView::UpdatePlayerStatus] over [Players], leaving at
    the first player with the given id. *)
Fixpoint UpdatePlayerStatus_loop (PlayerId NewStatus : FString)
    (ps : list FPlayerData.t) (s : AMapView) (w : World)
  : list FPlayerData.t * AMapView * World :=
  match ps with
  | [] => ([], s, w)
  | Player :: rest =>
      if decide (FPlayerData.Id Player = PlayerId) then
        let Player' := FPlayerData.set_Status NewStatus Player in
        let '(s1, w1) := PlayerStatusVisuals PlayerId NewStatus s w in
        (Player' :: rest, s1, w1)
      else
        let '(rest', s1, w1) :=
          UpdatePlayerStatus_loop PlayerId NewStatus rest s w in
        (Player :: rest', s1, w1)
  end.

(** [AMapView::UpdatePlayerStatus] *)
Definition UpdatePlayerStatus (PlayerId NewStatus : FString) (s : AMapView)
    (w : World) : AMapView * World :=
  let '(ps, s1, w1) :=
    UpdatePlayerStatus_loop PlayerId NewStatus (Players s) s w in
  (set_Players ps s1, w1).

(** The block [// Update marker visuals] of [AMapView::UpdateEventStatus] *)
Definition EventStatusVisuals (EventId NewStatus : FString) (s : AMapView)
    (w : World) : AMapView * World :=
  match FindRef (EventMarkers s) EventId with
  | Some Marker =>
      let MaterialToUse :=
        if decide (NewStatus = "active")
        then LiveEventMaterial (Props s)
        else UpcomingEventMaterial (Props s) in
      let w1 := if nonnull MaterialToUse
                then SetMaterial Marker MaterialToUse w else w in
      (* Start pulse animation for live events *)
      if decide (NewStatus = "active")
      then StartPulseAnimation EventId s w1
      else (s, w1)
  | None => (s, w)
  end.

(** The loop of [AMapView::UpdateEventStatus] over [Events]. *)
Fixpoint UpdateEventStatus_loop (EventId NewStatus : FString)
    (es : list FEventData.t) (s : AMapView) (w : World)
  : list FEventData.t * AMapView * World :=
  match es with
  | [] => ([], s, w)
  | Event :: rest =>
      if decide (FEventData.Id Event = EventId) then
        let Event' := FEventData.set_Status NewStatus Event in
        let '(s1, w1) := EventStatusVisuals EventId NewStatus s w in
        (Event' :: rest, s1, w1)
      else
        let '(rest', s1, w1) :=
          UpdateEventStatus_loop EventId NewStatus rest s w in
        (Event :: rest', s1, w1)
  end.

(** [AMapView::UpdateEventStatus] *)
Definition UpdateEventStatus (EventId NewStatus : FString) (s : AMapView)
    (w : World) : AMapView * World :=
  let '(es, s1, w1) :=
    UpdateEventStatus_loop EventId NewStatus (Events s) s w in
  (set_Events es s1, w1).

(** [UWidgetComponent::SetVisibility] *)
Definition SetVisibility (c : ObjId) (v : bool) (w : World) : World :=
  {| Actors := Actors w;
     Components :=
       alter (fun x => mkComponent (WidgetClass x) (AttachedTo x) v) c
             (Components w);
     Timers := Timers w; NextObject := NextObject w; NextTimer := NextTimer w |}.





(** [FTimerManager::ClearTimer(FTimerHandle&)]: the timer stops; the
    caller's handle is invalidated, which the callers below write out. *)
Definition ClearTimer (h : FTimerHandle) (w : World) : World :=
  {| Actors := Actors w; Components := Components w;
     Timers := delete h (Timers w);
     NextObject := NextObject w; NextTimer := NextTimer w |}.

(** One round of the loop of [AMapView::EndPlay]. *)
Definition ClearOne (Timer : string * FTimerHandle) (w : World) : World :=
  ClearTimer Timer.2 w.

(** [AMapView::EndPlay]: every stored handle is cleared, and thereby
    invalidated in the map. *)
Definition EndPlay (s : AMapView) (w : World) : AMapView * World :=
  (set_AnimationTimers ((fun _ => 0%nat) <$> AnimationTimers s) s,
   foldr ClearOne w (map_to_list (AnimationTimers s))).

(** A call of one of the public functions of the actor, and a run of
    calls. *)
Inductive MapCall :=
| CallUpdateVenues (NewVenues : list FVenueData.t)
| CallUpdatePlayers (NewPlayers : list FPlayerData.t)
| CallUpdateEvents (NewEvents : list FEventData.t)
| CallUpdatePlayerLocation (PlayerId : FString) (NewLocation : FVector2D)
| CallUpdatePlayerStatus (PlayerId NewStatus : FString)
| CallUpdateEventStatus (EventId NewStatus : FString)
| CallZoom (c : ZoomCall).

Definition map_call (env : Env) (c : MapCall) (s : AMapView) (w : World)
  : AMapView * World :=
  match c with
  | CallUpdateVenues NewVenues => UpdateVenues env NewVenues s w
  | CallUpdatePlayers NewPlayers => UpdatePlayers env NewPlayers s w
  | CallUpdateEvents NewEvents => UpdateEvents env NewEvents s w
  | CallUpdatePlayerLocation PlayerId NewLocation =>
      UpdatePlayerLocation env PlayerId NewLocation s w
  | CallUpdatePlayerStatus PlayerId NewStatus =>
      UpdatePlayerStatus PlayerId NewStatus s w
  | CallUpdateEventStatus EventId NewStatus =>
      UpdateEventStatus EventId NewStatus s w
  | CallZoom z => (zoom_call z s, w)
  end.

Definition map_calls (env : Env) (cs : list MapCall) (s : AMapView)
    (w : World) : AMapView * World :=
  fold_left (fun sw c => map_call env c sw.1 sw.2) cs (s, w).

(** Every running timer is one whose handle the actor holds. *)
Definition timers_held (s : AMapView) (w : World) : Prop :=
  forall h, is_Some (Timers w !! h) ->
            exists MarkerId, AnimationTimers s !! MarkerId = Some h.

(** The marker a spawning loop is expected to leave for an element: where
    it stands, its mesh, the parent of its material and its one tag. *)
Definition VenueMarker (env : Env) (P : Properties) (Venue : FVenueData.t)
  : AStaticMeshActor :=
  mkActor (LatLongToWorldLocation env (FVenueData.Coordinates Venue)) true
          (DefaultVenueMarker P)
          (if FVenueData.bIsIndoor Venue then IndoorVenueMaterial P
           else OutdoorVenueMaterial P)
          [FVenueData.Id Venue].

Definition PlayerMarker (env : Env) (P : Properties) (Player : FPlayerData.t)
  : AStaticMeshActor :=
  mkActor (LatLongToWorldLocation env (FPlayerData.Coordinates Player)) true
          (PlayerMarkerMesh P)
          (if decide (FPlayerData.Status Player = "active")
           then ActivePlayerMaterial P else InactivePlayerMaterial P)
          [FPlayerData.Id Player].

(** The first stored venue with the given id. *)
Definition venue_of (VenueId : FString) (vs : list FVenueData.t)
  : option FVenueData.t :=
  List.find (fun v => bool_decide (FVenueData.Id v = VenueId)) vs.

Definition EventMarker (env : Env) (P : Properties) (Venue : FVenueData.t)
    (Event : FEventData.t) : AStaticMeshActor :=
  let Location := LatLongToWorldLocation env (FVenueData.Coordinates Venue) in
  mkActor (mkFVector (vX Location) (vY Location) (of_Z 100)) true
          (EventMarkerMesh P)
          (if decide (FEventData.Status Event = "active")
           then LiveEventMaterial P else UpcomingEventMaterial P)
          [FEventData.Id Event].

(** What is asked of the marker [a] of an element once its round of the
    spawning loop is over.  The tooltip stored under the element's id was
    created with the configured class, is attached to [a] and is hidden. *)
Definition tooltip_attached (MarkerId : FString) (a : ObjId) (s : AMapView)
    (w : World) : Prop :=
  nonnull (TooltipWidgetClass (Props s)) = true ->
  exists c, (c < NextObject w)%nat
    /\ MarkerTooltips s !! MarkerId = Some (Some c)
    /\ Components w !! c =
       Some (mkComponent (TooltipWidgetClass (Props s)) a false).

Definition venue_marker_shown (env : Env) (i : nat) (Venue : FVenueData.t)
    (a : ObjId) (s : AMapView) (w : World) : Prop :=
  Actors w !! a = Some (VenueMarker env (Props s) Venue).

Definition player_marker_shown (env : Env) (i : nat) (Player : FPlayerData.t)
    (a : ObjId) (s : AMapView) (w : World) : Prop :=
  Actors w !! a = Some (PlayerMarker env (Props s) Player)
  /\ tooltip_attached (FPlayerData.Id Player) a s w.

(** For an event the place is the one computed in its round, [i]. *)
Definition event_marker_shown (env : Env) (i : nat) (Event : FEventData.t)
    (a : ObjId) (s : AMapView) (w : World) : Prop :=
  Actors w !! a =
    Some (mkActor (EventMarkerLocation env i Event s) true
                  (EventMarkerMesh (Props s))
                  (if decide (FEventData.Status Event = "active")
                   then LiveEventMaterial (Props s)
                   else UpcomingEventMaterial (Props s))
                  [FEventData.Id Event])
  /\ tooltip_attached (FEventData.Id Event) a s w.

(** An actor after [SetMaterial(0, ...)] guarded by [if (MaterialToUse)]:
    a material that is not assigned leaves the one in place. *)
Definition repainted (MaterialToUse : Ptr) (x : AStaticMeshActor)
  : AStaticMeshActor :=
  mkActor (ActorLocation x) (Movable x) (StaticMesh x)
          (if nonnull MaterialToUse then MaterialToUse else Material x)
          (Tags x).


End MapView.

(** ** CoachingFlowWidget.h / CoachingFlowWidget.cpp *)

Module CoachingFlow.

Inductive ECoachingFlowState :=
| Initial
| PerformanceReview
| WeaknessIdentification
| DrillRecommendation
| WorkoutPlan
| MealPlan
| LocationSuggestion
| ProgressSummary.

Definition FDateTime : Type := Z.

Record FCoachingMessage := mkMessage {
  SenderName : FString;
  MessageText : FString;
  MediaURL : FString;
  bIsCoach : bool;
  Timestamp : FDateTime
}.

(** [FCoachingMessage()]: not a coach message, stamped with the time of
    its construction, [now]. *)
Definition FCoachingMessage_ctor (now : FDateTime) : FCoachingMessage :=
  mkMessage "" "" "" false now.

(** What the widget asks of the engine. *)
Inductive Effect :=
| OnFlowStateChanged_Broadcast (NewState : ECoachingFlowState)
| OnMessageReceived_Broadcast (Message : FCoachingMessage)
| MessageScrollBox_ScrollToEnd
| MediaPlayer_SetVisibility (visible : bool)
| ImageDisplay_SetVisibility (visible : bool)
| MediaPlayer_LoadMedia (URL Title Caption : FString)
| ImageDisplay_LoadImage (URL : FString)
| MessageInputBox_SetText (Text : FString)
(** the content written to CoachingFlow.json *)
| SaveStringToFile (Messages : list FCoachingMessage)
                   (State : ECoachingFlowState).

(** The widgets bound by name (BindWidget); any may be missing. *)
Record Bindings := mkBindings {
  MessageScrollBox : Ptr;
  MessageContainer : Ptr;
  MessageInputBox : Ptr;
  SendMessageButton : Ptr;
  VoiceInputButton : Ptr;
  MediaPlayer : Ptr;
  ImageDisplay : Ptr
}.

Record UCoachingFlowWidget := mkWidget {
  Widgets : Bindings;
  CurrentState : ECoachingFlowState;
  MessageHistory : list FCoachingMessage;
  bIsVoiceInputActive : bool;
  Log : list Effect
}.

Definition set_CurrentState (v : ECoachingFlowState) (s : UCoachingFlowWidget) :=
  {| Widgets := Widgets s; CurrentState := v;
     MessageHistory := MessageHistory s;
     bIsVoiceInputActive := bIsVoiceInputActive s; Log := Log s |}.

Definition set_MessageHistory (v : list FCoachingMessage)
    (s : UCoachingFlowWidget) :=
  {| Widgets := Widgets s; CurrentState := CurrentState s;
     MessageHistory := v;
     bIsVoiceInputActive := bIsVoiceInputActive s; Log := Log s |}.

Definition emit (e : Effect) (s : UCoachingFlowWidget) :=
  {| Widgets := Widgets s; CurrentState := CurrentState s;
     MessageHistory := MessageHistory s;
     bIsVoiceInputActive := bIsVoiceInputActive s; Log := Log s ++ [e] |}.

(** [UCoachingFlowWidget::UCoachingFlowWidget] *)
Definition UCoachingFlowWidget_ctor (b : Bindings) : UCoachingFlowWidget :=
  mkWidget b Initial [] false [].

(** A call either returns, or stops at the dereference of a null widget;
    either way the widget is in some state. *)
Inductive Outcome :=
| Returned (s : UCoachingFlowWidget)
| NullDereference (s : UCoachingFlowWidget).

Definition state_of (o : Outcome) : UCoachingFlowWidget :=
  match o with Returned s | NullDereference s => s end.

Definition returned (o : Outcome) : bool :=
  match o with Returned _ => true | NullDereference _ => false end.

Definition and_then (o : Outcome) (k : UCoachingFlowWidget -> Outcome)
  : Outcome :=
  match o with Returned s => k s | NullDereference s => NullDereference s end.

Notation "'after' s <- o ; k" := (and_then o (fun s => k))
  (at level 10, s name, o at level 100, k at level 200).

(** [FString::IsEmpty] *)
Definition IsEmpty (s : FString) : bool :=
  match s with EmptyString => true | _ => false end.

(** [FString::EndsWith] *)
Definition EndsWith (s suffix : FString) : bool :=
  let n := String.length s in
  let m := String.length suffix in
  (m <=? n)%nat && String.eqb (substring (n - m) m s) suffix.

(** [UCoachingFlowWidget::UpdateFlowState] *)
Definition UpdateFlowState (NewState : ECoachingFlowState)
    (s : UCoachingFlowWidget) : UCoachingFlowWidget :=
  emit (OnFlowStateChanged_Broadcast NewState) (set_CurrentState NewState s).

(** [UCoachingFlowWidget::DisplayMedia]: each branch tests one of the two
    media widgets and calls the other one first. *)
Definition DisplayMedia (URL : FString) (bIsVideo : bool)
    (s : UCoachingFlowWidget) : Outcome :=
  if bIsVideo && nonnull (MediaPlayer (Widgets s)) then
    if nonnull (ImageDisplay (Widgets s)) then
      Returned (emit (MediaPlayer_LoadMedia URL "" "")
               (emit (MediaPlayer_SetVisibility true)
               (emit (ImageDisplay_SetVisibility false) s)))
    else NullDereference s
  else if negb bIsVideo && nonnull (ImageDisplay (Widgets s)) then
    if nonnull (MediaPlayer (Widgets s)) then
      Returned (emit (ImageDisplay_LoadImage URL)
               (emit (ImageDisplay_SetVisibility true)
               (emit (MediaPlayer_SetVisibility false) s)))
    else NullDereference s
  else Returned s.

(** [UCoachingFlowWidget::AddMessageToUI] *)
Definition AddMessageToUI (Message : FCoachingMessage)
    (s : UCoachingFlowWidget) : Outcome :=
  let s1 := set_MessageHistory (MessageHistory s ++ [Message]) s in
  let s2 := emit (OnMessageReceived_Broadcast Message) s1 in
  (* Display media if present *)
  after s3 <- (if negb (IsEmpty (MediaURL Message))
               then DisplayMedia (MediaURL Message)
                                 (EndsWith (MediaURL Message) ".mp4") s2
               else Returned s2);
  (* Auto-scroll to bottom *)
  Returned (if nonnull (MessageScrollBox (Widgets s3))
            then emit MessageScrollBox_ScrollToEnd s3 else s3).

(** [UCoachingFlowWidget::SaveConversationState] *)
Definition SaveConversationState (s : UCoachingFlowWidget)
  : UCoachingFlowWidget :=
  emit (SaveStringToFile (MessageHistory s) (CurrentState s)) s.

(** [UCoachingFlowWidget::StartCoachingFlow] *)
Definition StartCoachingFlow (now : FDateTime) (s : UCoachingFlowWidget)
  : Outcome :=
  (* Clear previous state *)
  let s1 := set_MessageHistory [] s in
  let s2 := set_CurrentState Initial s1 in
  (* Send welcome message *)
  let WelcomeMessage :=
    mkMessage "Coach AI"
      "Welcome to your personalized coaching session! Let's start by reviewing your recent performance. How have your last few games been?"
      (MediaURL (FCoachingMessage_ctor now)) true
      (Timestamp (FCoachingMessage_ctor now)) in
  after s3 <- AddMessageToUI WelcomeMessage s2;
  Returned (UpdateFlowState PerformanceReview s3).

(** The [switch] of [UCoachingFlowWidget::ProcessUserInput]: the text and
    media of the response, and the state broadcast on the way. *)
Definition Respond (Response : FCoachingMessage) (s : UCoachingFlowWidget)
  : FCoachingMessage * UCoachingFlowWidget :=
  let say text url :=
    mkMessage (SenderName Response) text url (bIsCoach Response)
              (Timestamp Response) in
  match CurrentState s with
  | PerformanceReview =>
      (say "I understand. Based on your performance data and what you've shared, let's identify areas where we can improve. What specific aspects of your game do you feel need work?"
           (MediaURL Response),
       UpdateFlowState WeaknessIdentification s)
  | WeaknessIdentification =>
      (say "Thank you for sharing. I'll recommend some specific drills tailored to address these areas. Would you like to see them now?"
           "https://sportbeacon.cdn/drills/overview.mp4",
       UpdateFlowState DrillRecommendation s)
  | DrillRecommendation =>
      (say "Great! Now let's create a comprehensive workout plan to incorporate these drills. How many days per week can you commit to training?"
           (MediaURL Response),
       UpdateFlowState WorkoutPlan s)
  | WorkoutPlan =>
      (say "Perfect. To support your training, let's discuss nutrition. Would you like to see a customized meal plan?"
           (MediaURL Response),
       UpdateFlowState MealPlan s)
  | MealPlan =>
      (say "I've found some nearby facilities where you can practice these drills. Would you like to see the locations?"
           (MediaURL Response),
       UpdateFlowState LocationSuggestion s)
  | LocationSuggestion =>
      (say "Excellent! Here's a summary of your progress and the next steps. Keep up the great work!"
           (MediaURL Response),
       UpdateFlowState ProgressSummary s)
  | _ =>
      (say "Is there anything specific you'd like to focus on in your training?"
           (MediaURL Response),
       s)
  end.

(** [UCoachingFlowWidget::ProcessUserInput] *)
Definition ProcessUserInput (now : FDateTime) (Input : FString)
    (s : UCoachingFlowWidget) : Outcome :=
  let Response0 := FCoachingMessage_ctor now in
  let Response :=
    mkMessage "Coach AI" (MessageText Response0) (MediaURL Response0) true
              (Timestamp Response0) in
  let '(Response, s1) := Respond Response s in
  after s2 <- AddMessageToUI Response s1;
  Returned (SaveConversationState s2).

(** [UCoachingFlowWidget::SendMessage]; [now1] and [now2] are the times at
    which the user message and the response are constructed. *)
Definition SendMessage (now1 now2 : FDateTime) (Message : FString)
    (s : UCoachingFlowWidget) : Outcome :=
  if IsEmpty Message then Returned s
  else
    let UserMessage :=
      mkMessage "Player" Message (MediaURL (FCoachingMessage_ctor now1)) false
                (Timestamp (FCoachingMessage_ctor now1)) in
    after s1 <- AddMessageToUI UserMessage s;
    after s2 <- ProcessUserInput now2 Message s1;
    Returned (if nonnull (MessageInputBox (Widgets s2))
              then emit (MessageInputBox_SetText "") s2 else s2).

(** The state that follows in the script. *)
Definition following (st : ECoachingFlowState) : ECoachingFlowState :=
  match st with
  | Initial => PerformanceReview
  | PerformanceReview => WeaknessIdentification
  | WeaknessIdentification => DrillRecommendation
  | DrillRecommendation => WorkoutPlan
  | WorkoutPlan => MealPlan
  | MealPlan => LocationSuggestion
  | LocationSuggestion => ProgressSummary
  | ProgressSummary => ProgressSummary
  end.

(** The six states in which an input moves the script on. *)
Definition scripted (st : ECoachingFlowState) : bool :=
  match st with
  | Initial | ProgressSummary => false
  | _ => true
  end.

(** The states broadcast through [OnFlowStateChanged], oldest first. *)
Definition flow_broadcasts (l : list Effect) : list ECoachingFlowState :=
  omap (fun e => match e with
                 | OnFlowStateChanged_Broadcast st => Some st
                 | _ => None
                 end) l.

(** The one configuration in which [DisplayMedia] is asked for a video with
    the player bound and the image display missing. *)
Definition video_without_image (s : UCoachingFlowWidget) : bool :=
  match CurrentState s with
  | WeaknessIdentification =>
      nonnull (MediaPlayer (Widgets s)) && negb (nonnull (ImageDisplay (Widgets s)))
  | _ => false
  end.

(** *** Whole conversations and the saved conversation *)

(** One message of the user: the text, and the times at which the user
    message and the response to it are constructed. *)
Record Turn := mkTurn {
  Said : FString;
  SaidAt : FDateTime;
  AnsweredAt : FDateTime
}.

(** A conversation: [SendMessage] for each turn, up to the first call that
    does not return. *)
Fixpoint Converse (turns : list Turn) (s : UCoachingFlowWidget) : Outcome :=
  match turns with
  | [] => Returned s
  | t :: rest =>
      after s1 <- SendMessage (SaidAt t) (AnsweredAt t) (Said t) s;
      Converse rest s1
  end.

(** The message [SendMessage] adds for the user. *)
Definition UserMessage (t : Turn) : FCoachingMessage :=
  mkMessage "Player" (Said t) "" false (SaidAt t).

(** The states of the script after [PerformanceReview], in order. *)
Definition script : list ECoachingFlowState :=
  [WeaknessIdentification; DrillRecommendation; WorkoutPlan; MealPlan;
   LocationSuggestion; ProgressSummary].

(** Neither branch of [DisplayMedia] can find the other widget missing. *)
Definition media_widgets_paired (s : UCoachingFlowWidget) : Prop :=
  nonnull (MediaPlayer (Widgets s)) = nonnull (ImageDisplay (Widgets s)).

(** The content of CoachingFlow.json: one object per message with the
    timestamp as text, and the state as a number. *)
Record SavedMessage := mkSaved {
  jSenderName : FString;
  jMessageText : FString;
  jMediaURL : FString;
  jbIsCoach : bool;
  jTimestamp : FString
}.

Record SaveData := mkSaveData {
  jMessages : list SavedMessage;
  jCurrentState : Z
}.

(** [FDateTime::ToString] and [FDateTime::Parse], which are the engine's:
    [Parse] gives nothing for a text it does not accept. *)
Record DateFormat := mkDateFormat {
  ToString : FDateTime -> FString;
  Parse : FString -> option FDateTime
}.

(** [static_cast<int32>(CurrentState)] *)
Definition int32_of_state (st : ECoachingFlowState) : Z :=
  match st with
  | Initial => 0
  | PerformanceReview => 1
  | WeaknessIdentification => 2
  | DrillRecommendation => 3
  | WorkoutPlan => 4
  | MealPlan => 5
  | LocationSuggestion => 6
  | ProgressSummary => 7
  end.

(** [static_cast<ECoachingFlowState>(n)]: the enumerator of that value;
    none for a number that names no state. *)
Definition state_of_int32 (n : Z) : option ECoachingFlowState :=
  match n with
  | 0 => Some Initial
  | 1 => Some PerformanceReview
  | 2 => Some WeaknessIdentification
  | 3 => Some DrillRecommendation
  | 4 => Some WorkoutPlan
  | 5 => Some MealPlan
  | 6 => Some LocationSuggestion
  | 7 => Some ProgressSummary
  | _ => None
  end.

(** The object that [SaveConversationState] serialises. *)
Definition ToJson (fmt : DateFormat) (Messages : list FCoachingMessage)
    (State : ECoachingFlowState) : SaveData :=
  mkSaveData
    (map (fun Message =>
            mkSaved (SenderName Message) (MessageText Message)
                    (MediaURL Message) (bIsCoach Message)
                    (ToString fmt (Timestamp Message)))
         Messages)
    (int32_of_state State).

(** What the last [SaveConversationState] of a log left on disk. *)
Fixpoint SavedFile (fmt : DateFormat) (l : list Effect) : option SaveData :=
  match l with
  | [] => None
  | e :: rest =>
      match SavedFile fmt rest with
      | Some d => Some d
      | None =>
          match e with
          | SaveStringToFile Messages State => Some (ToJson fmt Messages State)
          | _ => None
          end
      end
  end.

(** The message built from one saved object; [now] is the time of its
    construction, which stays its timestamp when [Parse] fails. *)
Definition FromJson (fmt : DateFormat) (now : FDateTime) (j : SavedMessage)
  : FCoachingMessage :=
  mkMessage (jSenderName j) (jMessageText j) (jMediaURL j) (jbIsCoach j)
            (default (Timestamp (FCoachingMessage_ctor now))
                     (Parse fmt (jTimestamp j))).

(** The loop of [LoadConversationState] over the saved messages; [Now i]
    is the clock when the message of round [i] is constructed. *)
Fixpoint LoadMessages (fmt : DateFormat) (Now : nat -> FDateTime) (i : nat)
    (js : list SavedMessage) (s : UCoachingFlowWidget) : Outcome :=
  match js with
  | [] => Returned s
  | j :: rest =>
      after s1 <- AddMessageToUI (FromJson fmt (Now i) j) s;
      LoadMessages fmt Now (S i) rest s1
  end.

(** How a call of [LoadConversationState] ends: as any call does, or with
    [CurrentState] holding a value that names no state, which is as far as
    this model follows the widget. *)
Inductive Loaded :=
| Restored (o : Outcome)
| UnnamedState (n : Z) (s : UCoachingFlowWidget).

(** [UCoachingFlowWidget::LoadConversationState]; [File] is the content of
    CoachingFlow.json, if the file is there and is JSON. *)
Definition LoadConversationState (fmt : DateFormat) (Now : nat -> FDateTime)
    (File : option SaveData) (s : UCoachingFlowWidget) : Loaded :=
  match File with
  | None => Restored (Returned s)
  | Some d =>
      match LoadMessages fmt Now 0 (jMessages d) s with
      | Returned s1 =>
          match state_of_int32 (jCurrentState d) with
          | Some st =>
              Restored (Returned (emit (OnFlowStateChanged_Broadcast st)
                                       (set_CurrentState st s1)))
          | None => UnnamedState (jCurrentState d) s1
          end
      | NullDereference s1 => Restored (NullDereference s1)
      end
  end.

(** A message with its timestamp as it comes back from the file. *)
Definition reread (fmt : DateFormat) (Now : nat -> FDateTime) (i : nat)
    (m : FCoachingMessage) : FCoachingMessage :=
  mkMessage (SenderName m) (MessageText m) (MediaURL m) (bIsCoach m)
            (default (Now i) (Parse fmt (ToString fmt (Timestamp m)))).

(** The state an input leaves: the next one in the six scripted states,
    the same one in [Initial] and [ProgressSummary]. *)
Definition advance (st : ECoachingFlowState) : ECoachingFlowState :=
  if scripted st then following st else st.

(** The state after [n] inputs, and the states announced on the way. *)
Fixpoint after_inputs (n : nat) (st : ECoachingFlowState)
  : ECoachingFlowState :=
  match n with
  | O => st
  | S n' => after_inputs n' (advance st)
  end.

Fixpoint announced (n : nat) (st : ECoachingFlowState)
  : list ECoachingFlowState :=
  match n with
  | O => []
  | S n' =>
      (if scripted st then [following st] else []) ++ announced n' (advance st)
  end.

(** The video branch of [DisplayMedia] finds the image display. *)
Definition video_can_show (s : UCoachingFlowWidget) : Prop :=
  nonnull (MediaPlayer (Widgets s)) = true ->
  nonnull (ImageDisplay (Widgets s)) = true.

(** The messages of a conversation, in the order of the history. *)
Definition exchanges (turns : list Turn) (replies : list FCoachingMessage)
  : list FCoachingMessage :=
  concat (zip_with (fun t reply => [UserMessage t; reply]) turns replies).

End CoachingFlow.

(** ** BP_MapViewHandler.cpp *)

Module MapViewHandler.
Import Float32 MapView.

(** [ABP_MapViewHandler::HandleZoom], bound to the mouse wheel axis.
    [Value != 0.0f] holds of a NaN, [Value > 0.0f] does not. *)
Definition HandleZoom (Value : float) (s : AMapView) : AMapView :=
  if negb (SFeqb Value (of_Z 0)) then
    if fltb (of_Z 0) Value then ZoomIn Value s
    else ZoomOut (fneg Value) s
  else s.

End MapViewHandler.

(** ** VoiceInputManager.h / VoiceInputManager.cpp *)

Module VoiceInput.

(** A JSON object with string fields, as sent over the socket. *)
Definition Json : Type := list (FString * FString).

Inductive Effect :=
| OnVoiceInputError_Broadcast (ErrorMessage : FString)
| Capture_Start
| Capture_Stop
| WebSocket_Close (socket : ObjId)
| WebSocket_Delete (socket : ObjId)
| WebSocket_Create (socket : ObjId) (Url : FString)
| WebSocket_Connect (socket : ObjId)
| WebSocket_Send (socket : ObjId) (Message : Json).

(** The manager, with the two facts about engine objects that its code
    asks for: whether the capture component is capturing and whether the
    socket is connected. *)
Record UVoiceInputManager := mkManager {
  bIsRecording : bool;
  CurrentLanguage : FString;
  AudioBuffer : list Z;
  AudioComponent : Ptr;
  CaptureComponent : Ptr;
  WebSocket : Ptr;
  bCapturing : bool;
  bConnected : bool;
  NextObject : ObjId;
  Log : list Effect
}.

Definition set_bIsRecording (v : bool) (s : UVoiceInputManager) :=
  {| bIsRecording := v; CurrentLanguage := CurrentLanguage s;
     AudioBuffer := AudioBuffer s; AudioComponent := AudioComponent s;
     CaptureComponent := CaptureComponent s; WebSocket := WebSocket s;
     bCapturing := bCapturing s; bConnected := bConnected s;
     NextObject := NextObject s; Log := Log s |}.

Definition set_AudioBuffer (v : list Z) (s : UVoiceInputManager) :=
  {| bIsRecording := bIsRecording s; CurrentLanguage := CurrentLanguage s;
     AudioBuffer := v; AudioComponent := AudioComponent s;
     CaptureComponent := CaptureComponent s; WebSocket := WebSocket s;
     bCapturing := bCapturing s; bConnected := bConnected s;
     NextObject := NextObject s; Log := Log s |}.

Definition set_WebSocket (v : Ptr) (s : UVoiceInputManager) :=
  {| bIsRecording := bIsRecording s; CurrentLanguage := CurrentLanguage s;
     AudioBuffer := AudioBuffer s; AudioComponent := AudioComponent s;
     CaptureComponent := CaptureComponent s; WebSocket := v;
     bCapturing := bCapturing s; bConnected := bConnected s;
     NextObject := NextObject s; Log := Log s |}.

Definition set_bCapturing (v : bool) (s : UVoiceInputManager) :=
  {| bIsRecording := bIsRecording s; CurrentLanguage := CurrentLanguage s;
     AudioBuffer := AudioBuffer s; AudioComponent := AudioComponent s;
     CaptureComponent := CaptureComponent s; WebSocket := WebSocket s;
     bCapturing := v; bConnected := bConnected s; NextObject := NextObject s;
     Log := Log s |}.

Definition set_bConnected (v : bool) (s : UVoiceInputManager) :=
  {| bIsRecording := bIsRecording s; CurrentLanguage := CurrentLanguage s;
     AudioBuffer := AudioBuffer s; AudioComponent := AudioComponent s;
     CaptureComponent := CaptureComponent s; WebSocket := WebSocket s;
     bCapturing := bCapturing s; bConnected := v; NextObject := NextObject s;
     Log := Log s |}.

Definition set_NextObject (v : ObjId) (s : UVoiceInputManager) :=
  {| bIsRecording := bIsRecording s; CurrentLanguage := CurrentLanguage s;
     AudioBuffer := AudioBuffer s; AudioComponent := AudioComponent s;
     CaptureComponent := CaptureComponent s; WebSocket := WebSocket s;
     bCapturing := bCapturing s; bConnected := bConnected s; NextObject := v;
     Log := Log s |}.

(** Append an effect to the log. *)
Definition emit (e : Effect) (s : UVoiceInputManager) :=
  {| bIsRecording := bIsRecording s; CurrentLanguage := CurrentLanguage s;
     AudioBuffer := AudioBuffer s; AudioComponent := AudioComponent s;
     CaptureComponent := CaptureComponent s; WebSocket := WebSocket s;
     bCapturing := bCapturing s; bConnected := bConnected s;
     NextObject := NextObject s; Log := Log s ++ [e] |}.


(** [UVoiceInputManager::UVoiceInputManager], before the configuration is
    read: nothing is recording and every pointer is null. *)
Definition UVoiceInputManager_ctor : UVoiceInputManager :=
  mkManager false "en-US" [] None None None false false 0%nat [].

(** [UVoiceInputManager::ValidateAudioSetup] *)
Definition ValidateAudioSetup (s : UVoiceInputManager) : bool :=
  if negb (nonnull (CaptureComponent s)) || negb (nonnull (AudioComponent s))
  then false else true.

(** [UVoiceInputManager::CleanupWebSocket] *)
Definition CleanupWebSocket (s : UVoiceInputManager) : UVoiceInputManager :=
  match WebSocket s with
  | Some socket =>
      let s1 := if bConnected s
                then set_bConnected false (emit (WebSocket_Close socket) s)
                else s in
      set_WebSocket None (emit (WebSocket_Delete socket) s1)
  | None => s
  end.

(** [UVoiceInputManager::InitializeWebSocket]; [ConfiguredUrl] is the
    WebSocketURL entry of the engine configuration, if there is one.  The
    connection is asked for and not yet established when the call ends. *)
Definition InitializeWebSocket (ConfiguredUrl : option FString)
    (s : UVoiceInputManager) : UVoiceInputManager :=
  let s1 := if nonnull (WebSocket s) then CleanupWebSocket s else s in
  let WSUrl := default "ws://localhost:3001/speech-to-text" ConfiguredUrl in
  let socket := NextObject s1 in
  let s2 := set_NextObject (S socket) (emit (WebSocket_Create socket WSUrl) s1) in
  let s3 := set_bConnected false (set_WebSocket (Some socket) s2) in
  emit (WebSocket_Connect socket) s3.

(** [UVoiceInputManager::StartRecording] *)
Definition StartRecording (ConfiguredUrl : option FString)
    (s : UVoiceInputManager) : UVoiceInputManager :=
  if bIsRecording s then s
  else if negb (ValidateAudioSetup s) then
    emit (OnVoiceInputError_Broadcast "Failed to initialize audio capture") s
  else
    let s1 := InitializeWebSocket ConfiguredUrl s in
    if nonnull (CaptureComponent s1) then
      let s2 := set_bIsRecording true s1 in
      let s3 := set_AudioBuffer [] s2 in
      set_bCapturing true (emit Capture_Start s3)
    else s1.

(** [UVoiceInputManager::StopRecording] *)
Definition StopRecording (s : UVoiceInputManager) : UVoiceInputManager :=
  if negb (bIsRecording s) then s
  else
    let s1 := if nonnull (CaptureComponent s)
              then set_bCapturing false (emit Capture_Stop s) else s in
    let s2 := set_bIsRecording false s1 in
    match WebSocket s2 with
    | Some socket =>
        if bConnected s2
        then emit (WebSocket_Send socket [("type", "end")]) s2
        else s2
    | None => s2
    end.

(** *** The language, the audio components, the socket's events *)

Definition set_CurrentLanguage (v : FString) (s : UVoiceInputManager) :=
  {| bIsRecording := bIsRecording s; CurrentLanguage := v;
     AudioBuffer := AudioBuffer s; AudioComponent := AudioComponent s;
     CaptureComponent := CaptureComponent s; WebSocket := WebSocket s;
     bCapturing := bCapturing s; bConnected := bConnected s;
     NextObject := NextObject s; Log := Log s |}.

Definition set_AudioComponent (v : Ptr) (s : UVoiceInputManager) :=
  {| bIsRecording := bIsRecording s; CurrentLanguage := CurrentLanguage s;
     AudioBuffer := AudioBuffer s; AudioComponent := v;
     CaptureComponent := CaptureComponent s; WebSocket := WebSocket s;
     bCapturing := bCapturing s; bConnected := bConnected s;
     NextObject := NextObject s; Log := Log s |}.

Definition set_CaptureComponent (v : Ptr) (s : UVoiceInputManager) :=
  {| bIsRecording := bIsRecording s; CurrentLanguage := CurrentLanguage s;
     AudioBuffer := AudioBuffer s; AudioComponent := AudioComponent s;
     CaptureComponent := v; WebSocket := WebSocket s;
     bCapturing := bCapturing s; bConnected := bConnected s;
     NextObject := NextObject s; Log := Log s |}.

(** [UVoiceInputManager::SetLanguage] *)
Definition SetLanguage (LanguageCode : FString) (s : UVoiceInputManager)
  : UVoiceInputManager :=
  let s1 := set_CurrentLanguage LanguageCode s in
  match WebSocket s1 with
  | Some socket =>
      if bConnected s1
      then emit (WebSocket_Send socket [("type", "set_language");
                                        ("language", LanguageCode)]) s1
      else s1
  | None => s1
  end.

(** [NewObject] of one of the two audio components. *)
Definition NewComponent (s : UVoiceInputManager) : ObjId * UVoiceInputManager :=
  (NextObject s, set_NextObject (S (NextObject s)) s).

(** [UVoiceInputManager::InitializeAudioCapture], which no function of the
    class calls. *)
Definition InitializeAudioCapture (s : UVoiceInputManager)
  : UVoiceInputManager :=
  let s1 := if negb (nonnull (AudioComponent s)) then
              let '(c, t) := NewComponent s in set_AudioComponent (Some c) t
            else s in
  if negb (nonnull (CaptureComponent s1)) then
    let '(c, t) := NewComponent s1 in set_CaptureComponent (Some c) t
  else s1.

(** [UVoiceInputManager::CleanupAudioCapture]; the destruction of the two
    objects is the engine's and leaves no trace here but the null
    pointers. *)
Definition CleanupAudioCapture (s : UVoiceInputManager) : UVoiceInputManager :=
  let s1 := if nonnull (CaptureComponent s) then
              let t := if bCapturing s
                       then set_bCapturing false (emit Capture_Stop s) else s in
              set_CaptureComponent None t
            else s in
  if nonnull (AudioComponent s1) then set_AudioComponent None s1 else s1.

(** [UVoiceInputManager::BeginDestroy] *)
Definition BeginDestroy (s : UVoiceInputManager) : UVoiceInputManager :=
  CleanupAudioCapture (CleanupWebSocket s).

(** The handler that [InitializeWebSocket] installs with [OnConnected], run
    when the socket the manager holds gets connected; [PlayerName] is the
    name of the first player. *)
Definition OnConnected (PlayerName : FString) (s : UVoiceInputManager)
  : UVoiceInputManager :=
  match WebSocket s with
  | Some socket =>
      let s1 := set_bConnected true s in
      emit (WebSocket_Send socket [("type", "init");
                                   ("player_id", PlayerName);
                                   ("language", CurrentLanguage s1)]) s1
  | None => s
  end.

(** The handler installed with [OnConnectionError], run when the
    connection of the socket the manager holds fails. *)
Definition OnConnectionError (ErrorMessage : FString)
    (s : UVoiceInputManager)
  : UVoiceInputManager :=
  match WebSocket s with
  | Some socket =>
      let s1 := set_bConnected false s in
      set_bIsRecording false (emit (OnVoiceInputError_Broadcast ErrorMessage) s1)
  | None => s
  end.

(** What can happen to a manager: a call of one of its three public
    functions, or one of the two events of its socket. *)
Inductive Step :=
| CallStartRecording (ConfiguredUrl : option FString)
| CallStopRecording
| CallSetLanguage (LanguageCode : FString)
| SocketConnected (PlayerName : FString)
| SocketConnectionError (ErrorMessage : FString).

Definition step (c : Step) (s : UVoiceInputManager) : UVoiceInputManager :=
  match c with
  | CallStartRecording ConfiguredUrl => StartRecording ConfiguredUrl s
  | CallStopRecording => StopRecording s
  | CallSetLanguage LanguageCode => SetLanguage LanguageCode s
  | SocketConnected PlayerName => OnConnected PlayerName s
  | SocketConnectionError ErrorMessage => OnConnectionError ErrorMessage s
  end.

Definition steps (cs : list Step) (s : UVoiceInputManager)
  : UVoiceInputManager :=
  fold_left (fun t c => step c t) cs s.

(** The errors broadcast by a run in which no recording can start: one for
    each [StartRecording]. *)
Definition refusals (cs : list Step) : list Effect :=
  omap (fun c => match c with
                 | CallStartRecording _ =>
                     Some (OnVoiceInputError_Broadcast
                             "Failed to initialize audio capture")
                 | _ => None
                 end) cs.

(** The sockets a log has created and not deleted, oldest first. *)
Fixpoint live (sockets : list ObjId) (l : list Effect) : list ObjId :=
  match l with
  | [] => sockets
  | WebSocket_Create socket _ :: rest => live (sockets ++ [socket]) rest
  | WebSocket_Delete socket :: rest =>
      live (filter (fun k => k <> socket) sockets) rest
  | _ :: rest => live sockets rest
  end.

(** The sockets a manager holds: one or none. *)
Definition held (s : UVoiceInputManager) : list ObjId :=
  match WebSocket s with Some socket => [socket] | None => [] end.

End VoiceInput.

(** ** MediaPlayerWidget.h / MediaPlayerWidget.cpp *)

Module MediaPlayer.
Import Float32.

Inductive Effect :=
| MediaPlayer_Play
| MediaPlayer_Pause
| SoundComponent_SetVolumeMultiplier (Volume : float)
| PlayPauseButton_SetIsEnabled (bEnabled : bool)
| MuteButton_SetIsEnabled (bEnabled : bool).

Record Bindings := mkBindings {
  VideoDisplay : Ptr;
  ProgressSlider : Ptr;
  PlayPauseButton : Ptr;
  MuteButton : Ptr;
  TimeText : Ptr;
  TitleText : Ptr;
  CaptionText : Ptr
}.

(** The widget, with the two facts about engine objects its calls decide:
    whether the media player plays ([bPlayerPlaying]) and the volume
    multiplier of the sound component. *)
Record UMediaPlayerWidget := mkWidget {
  Widgets : Bindings;
  MediaPlayer : Ptr;
  MediaTexture : Ptr;
  SoundComponent : Ptr;
  bIsPlaying : bool;
  bIsMuted : bool;
  Duration : float;
  bPlayerPlaying : bool;
  VolumeMultiplier : float;
  Log : list Effect
}.

Definition set_bIsPlaying (v : bool) (s : UMediaPlayerWidget) :=
  {| Widgets := Widgets s; MediaPlayer := MediaPlayer s;
     MediaTexture := MediaTexture s; SoundComponent := SoundComponent s;
     bIsPlaying := v; bIsMuted := bIsMuted s; Duration := Duration s;
     bPlayerPlaying := bPlayerPlaying s;
     VolumeMultiplier := VolumeMultiplier s; Log := Log s |}.

Definition set_bIsMuted (v : bool) (s : UMediaPlayerWidget) :=
  {| Widgets := Widgets s; MediaPlayer := MediaPlayer s;
     MediaTexture := MediaTexture s; SoundComponent := SoundComponent s;
     bIsPlaying := bIsPlaying s; bIsMuted := v; Duration := Duration s;
     bPlayerPlaying := bPlayerPlaying s;
     VolumeMultiplier := VolumeMultiplier s; Log := Log s |}.

Definition set_bPlayerPlaying (v : bool) (s : UMediaPlayerWidget) :=
  {| Widgets := Widgets s; MediaPlayer := MediaPlayer s;
     MediaTexture := MediaTexture s; SoundComponent := SoundComponent s;
     bIsPlaying := bIsPlaying s; bIsMuted := bIsMuted s;
     Duration := Duration s; bPlayerPlaying := v;
     VolumeMultiplier := VolumeMultiplier s; Log := Log s |}.

Definition set_VolumeMultiplier (v : float) (s : UMediaPlayerWidget) :=
  {| Widgets := Widgets s; MediaPlayer := MediaPlayer s;
     MediaTexture := MediaTexture s; SoundComponent := SoundComponent s;
     bIsPlaying := bIsPlaying s; bIsMuted := bIsMuted s;
     Duration := Duration s; bPlayerPlaying := bPlayerPlaying s;
     VolumeMultiplier := v; Log := Log s |}.

(** Append an effect to the log. *)
Definition emit (e : Effect) (s : UMediaPlayerWidget) :=
  {| Widgets := Widgets s; MediaPlayer := MediaPlayer s;
     MediaTexture := MediaTexture s; SoundComponent := SoundComponent s;
     bIsPlaying := bIsPlaying s; bIsMuted := bIsMuted s;
     Duration := Duration s; bPlayerPlaying := bPlayerPlaying s;
     VolumeMultiplier := VolumeMultiplier s; Log := Log s ++ [e] |}.


(** [UMediaPlayerWidget::UpdatePlayPauseButton] *)
Definition UpdatePlayPauseButton (s : UMediaPlayerWidget) : UMediaPlayerWidget :=
  if nonnull (PlayPauseButton (Widgets s))
  then emit (PlayPauseButton_SetIsEnabled true) s else s.

(** [UMediaPlayerWidget::UpdateMuteButton] *)
Definition UpdateMuteButton (s : UMediaPlayerWidget) : UMediaPlayerWidget :=
  if nonnull (MuteButton (Widgets s))
  then emit (MuteButton_SetIsEnabled true) s else s.

(** [UMediaPlayerWidget::Play] *)
Definition Play (s : UMediaPlayerWidget) : UMediaPlayerWidget :=
  if nonnull (MediaPlayer s) then
    let s1 := set_bPlayerPlaying true (emit MediaPlayer_Play s) in
    let s2 := set_bIsPlaying true s1 in
    UpdatePlayPauseButton s2
  else s.

(** [UMediaPlayerWidget::Pause] *)
Definition Pause (s : UMediaPlayerWidget) : UMediaPlayerWidget :=
  if nonnull (MediaPlayer s) then
    let s1 := set_bPlayerPlaying false (emit MediaPlayer_Pause s) in
    let s2 := set_bIsPlaying false s1 in
    UpdatePlayPauseButton s2
  else s.

(** [UMediaPlayerWidget::TogglePlayPause] *)
Definition TogglePlayPause (s : UMediaPlayerWidget) : UMediaPlayerWidget :=
  if bIsPlaying s then Pause s else Play s.

(** [UMediaPlayerWidget::ToggleMute] *)
Definition ToggleMute (s : UMediaPlayerWidget) : UMediaPlayerWidget :=
  if nonnull (SoundComponent s) then
    let s1 := set_bIsMuted (negb (bIsMuted s)) s in
    let Volume := if bIsMuted s1 then of_Z 0 else of_Z 1 in
    let s2 := set_VolumeMultiplier Volume
                (emit (SoundComponent_SetVolumeMultiplier Volume) s1) in
    UpdateMuteButton s2
  else s.

(** The volume multiplier that goes with a mute flag: 0.0 when muted, 1.0
    when not. *)
Definition volume_for (bMuted : bool) : float :=
  if bMuted then of_Z 0 else of_Z 1.

(** [UMediaPlayerWidget::OnPlayPauseClicked] *)
Definition OnPlayPauseClicked (s : UMediaPlayerWidget) : UMediaPlayerWidget :=
  TogglePlayPause s.

(** [UMediaPlayerWidget::OnMuteClicked] *)
Definition OnMuteClicked (s : UMediaPlayerWidget) : UMediaPlayerWidget :=
  ToggleMute s.

(** A click on one of the two buttons, and a run of clicks. *)
Inductive Click := PlayPauseClicked | MuteClicked.

Definition click (c : Click) (s : UMediaPlayerWidget) : UMediaPlayerWidget :=
  match c with
  | PlayPauseClicked => OnPlayPauseClicked s
  | MuteClicked => OnMuteClicked s
  end.

Definition clicks (cs : list Click) (s : UMediaPlayerWidget)
  : UMediaPlayerWidget :=
  fold_left (fun t c => click c t) cs s.

(** The number of clicks on each button. *)
Fixpoint play_pause_clicks (cs : list Click) : nat :=
  match cs with
  | [] => 0
  | PlayPauseClicked :: rest => S (play_pause_clicks rest)
  | MuteClicked :: rest => play_pause_clicks rest
  end.

Fixpoint mute_clicks (cs : list Click) : nat :=
  match cs with
  | [] => 0
  | MuteClicked :: rest => S (mute_clicks rest)
  | PlayPauseClicked :: rest => mute_clicks rest
  end.

End MediaPlayer.

(** ** BadgeRewardWidget.h, TimelineFeedWidget.h / TimelineFeedWidget.cpp *)

Module TimelineFeed.
Import Float32.

Module FBadgeData.
Record t := mk {
  BadgeID : FString;
  Name : FString;
  Description : FString;
  Icon : Ptr;
  EarnedDate : FString;
  BadgeColor : FLinearColor
}.
End FBadgeData.

Module FFeedEntry.
Record t := mk {
  Title : FString;
  Subtitle : FString;
  Icon : Ptr;
  Timestamp : Z;
  EntryType : FString;
  BadgeData : FBadgeData.t
}.
End FFeedEntry.

Inductive Effect :=
| BadgeWidget_DisplayEarnedBadge (widget : ObjId) (BadgeData : FBadgeData.t)
| EntryWidget_SetupEntry (widget : ObjId) (Title Subtitle : FString)
                         (Icon : Ptr) (Timestamp : Z)
| FeedScrollBox_ScrollToEnd_NextTick
| OnNewEntryAdded (Entry : FFeedEntry.t).

(** The widget.  [MaxEntries] is an [int32].  [bSetupEntryImplemented]
    says whether the default entry class has a function named SetupEntry.
    On the engine side, [Children] are the children of the scroll box and
    [NextObject] numbers the widgets created; a widget class that is set is
    taken to be instantiable. *)
Record UTimelineFeedWidget := mkWidget {
  FeedScrollBox : Ptr;
  DefaultFeedEntryClass : Ptr;
  BadgeEntryClass : Ptr;
  MaxEntries : Z;
  FeedEntries : list Ptr;
  bSetupEntryImplemented : bool;
  Children : list ObjId;
  NextObject : ObjId;
  Log : list Effect
}.

Definition set_FeedEntries (v : list Ptr) (s : UTimelineFeedWidget) :=
  {| FeedScrollBox := FeedScrollBox s;
     DefaultFeedEntryClass := DefaultFeedEntryClass s;
     BadgeEntryClass := BadgeEntryClass s; MaxEntries := MaxEntries s;
     FeedEntries := v; bSetupEntryImplemented := bSetupEntryImplemented s;
     Children := Children s; NextObject := NextObject s; Log := Log s |}.

Definition set_Children (v : list ObjId) (s : UTimelineFeedWidget) :=
  {| FeedScrollBox := FeedScrollBox s;
     DefaultFeedEntryClass := DefaultFeedEntryClass s;
     BadgeEntryClass := BadgeEntryClass s; MaxEntries := MaxEntries s;
     FeedEntries := FeedEntries s;
     bSetupEntryImplemented := bSetupEntryImplemented s; Children := v;
     NextObject := NextObject s; Log := Log s |}.

Definition set_NextObject (v : ObjId) (s : UTimelineFeedWidget) :=
  {| FeedScrollBox := FeedScrollBox s;
     DefaultFeedEntryClass := DefaultFeedEntryClass s;
     BadgeEntryClass := BadgeEntryClass s; MaxEntries := MaxEntries s;
     FeedEntries := FeedEntries s;
     bSetupEntryImplemented := bSetupEntryImplemented s;
     Children := Children s; NextObject := v; Log := Log s |}.

(** Append an effect to the log. *)
Definition emit (e : Effect) (s : UTimelineFeedWidget) :=
  {| FeedScrollBox := FeedScrollBox s;
     DefaultFeedEntryClass := DefaultFeedEntryClass s;
     BadgeEntryClass := BadgeEntryClass s; MaxEntries := MaxEntries s;
     FeedEntries := FeedEntries s;
     bSetupEntryImplemented := bSetupEntryImplemented s;
     Children := Children s; NextObject := NextObject s;
     Log := Log s ++ [e] |}.

(** [UTimelineFeedWidget::UTimelineFeedWidget]: at most 50 entries; the
    bound widget and the classes come from the Blueprint. *)
Definition UTimelineFeedWidget_ctor (FeedScrollBox DefaultClass BadgeClass : Ptr)
    (bSetupEntry : bool) : UTimelineFeedWidget :=
  mkWidget FeedScrollBox DefaultClass BadgeClass 50 [] bSetupEntry [] 0%nat [].

(** [UTimelineFeedWidget::CreateFeedEntryWidget] *)
Definition CreateFeedEntryWidget (Entry : FFeedEntry.t)
    (s : UTimelineFeedWidget) : Ptr * UTimelineFeedWidget :=
  (* Choose widget class based on entry type *)
  let WidgetClass :=
    if decide (FFeedEntry.EntryType Entry = "badge")
    then BadgeEntryClass s else DefaultFeedEntryClass s in
  if negb (nonnull WidgetClass) then (None, s)
  else
    (* Create the widget *)
    let EntryWidget := NextObject s in
    let s1 := set_NextObject (S EntryWidget) s in
    if decide (FFeedEntry.EntryType Entry = "badge") then
      (Some EntryWidget,
       emit (BadgeWidget_DisplayEarnedBadge EntryWidget
                                            (FFeedEntry.BadgeData Entry)) s1)
    else
      (Some EntryWidget,
       if bSetupEntryImplemented s1 then
         emit (EntryWidget_SetupEntry EntryWidget (FFeedEntry.Title Entry)
                 (FFeedEntry.Subtitle Entry) (FFeedEntry.Icon Entry)
                 (FFeedEntry.Timestamp Entry)) s1
       else s1).

(** [UUserWidget::RemoveFromParent] of an entry widget *)
Definition RemoveFromParent (widget : ObjId) (s : UTimelineFeedWidget)
  : UTimelineFeedWidget :=
  set_Children (filter (fun c => c <> widget) (Children s)) s.

(** The loop [for (int32 i = 0; i < NumToRemove; ++i)] of
    [TrimOldEntries], with [n] rounds left from index [i]; [FeedEntries[i]]
    past the end of the array is a failed range check, [None]. *)
Fixpoint DetachOldest (n i : nat) (s : UTimelineFeedWidget)
  : option UTimelineFeedWidget :=
  match n with
  | O => Some s
  | S n' =>
      match FeedEntries s !! i with
      | None => None
      | Some entry =>
          let s1 := match entry with
                    | Some widget => RemoveFromParent widget s
                    | None => s
                    end in
          DetachOldest n' (S i) s1
      end
  end.

(** [TArray::RemoveAt(0, Count)]: a count past the end fails the range
    check. *)
Definition RemoveAtFront (Count : nat) (s : UTimelineFeedWidget)
  : option UTimelineFeedWidget :=
  if (Count <=? length (FeedEntries s))%nat
  then Some (set_FeedEntries (drop Count (FeedEntries s)) s)
  else None.

(** [UTimelineFeedWidget::TrimOldEntries] *)
Definition TrimOldEntries (s : UTimelineFeedWidget)
  : option UTimelineFeedWidget :=
  let Num := Z.of_nat (length (FeedEntries s)) in
  if Num >? MaxEntries s then
    let NumToRemove := Z.to_nat (Num - MaxEntries s) in
    match DetachOldest NumToRemove 0 s with
    | Some s1 => RemoveAtFront NumToRemove s1
    | None => None
    end
  else Some s.

(** [UTimelineFeedWidget::ScrollToLatest] *)
Definition ScrollToLatest (s : UTimelineFeedWidget) : UTimelineFeedWidget :=
  if nonnull (FeedScrollBox s)
  then emit FeedScrollBox_ScrollToEnd_NextTick s else s.

(** [UTimelineFeedWidget::AddFeedEntry] *)
Definition AddFeedEntry (Entry : FFeedEntry.t) (s : UTimelineFeedWidget)
  : option UTimelineFeedWidget :=
  if negb (nonnull (FeedScrollBox s)) then Some s
  else
    let '(EntryWidget, s1) := CreateFeedEntryWidget Entry s in
    match EntryWidget with
    | Some widget =>
        let s2 := set_Children (Children s1 ++ [widget]) s1 in
        let s3 := set_FeedEntries (FeedEntries s2 ++ [Some widget]) s2 in
        (* Trim old entries if needed *)
        match TrimOldEntries s3 with
        | Some s4 => Some (emit (OnNewEntryAdded Entry) (ScrollToLatest s4))
        | None => None
        end
    | None => Some s1
    end.

(** [UTimelineFeedWidget::AddBadgeEntry]; [now] is [FDateTime::Now()]. *)
Definition AddBadgeEntry (now : Z) (BadgeData : FBadgeData.t)
    (s : UTimelineFeedWidget) : option UTimelineFeedWidget :=
  if negb (nonnull (BadgeEntryClass s)) then Some s
  else
    AddFeedEntry
      (FFeedEntry.mk (FBadgeData.Name BadgeData)
                     (FBadgeData.Description BadgeData)
                     (FBadgeData.Icon BadgeData) now "badge" BadgeData) s.

(** [UTimelineFeedWidget::ClearFeed] *)
Definition ClearFeed (s : UTimelineFeedWidget) : UTimelineFeedWidget :=
  if nonnull (FeedScrollBox s)
  then set_FeedEntries [] (set_Children [] s) else s.

(** A call of one of the three public functions, and a run of calls that
    stops at the first failed range check. *)
Inductive FeedCall :=
| CallAddFeedEntry (Entry : FFeedEntry.t)
| CallAddBadgeEntry (now : Z) (BadgeData : FBadgeData.t)
| CallClearFeed.

Definition feed_call (c : FeedCall) (s : UTimelineFeedWidget)
  : option UTimelineFeedWidget :=
  match c with
  | CallAddFeedEntry Entry => AddFeedEntry Entry s
  | CallAddBadgeEntry now BadgeData => AddBadgeEntry now BadgeData s
  | CallClearFeed => Some (ClearFeed s)
  end.

Fixpoint feed_calls (cs : list FeedCall) (s : UTimelineFeedWidget)
  : option UTimelineFeedWidget :=
  match cs with
  | [] => Some s
  | c :: rest =>
      match feed_call c s with
      | Some s1 => feed_calls rest s1
      | None => None
      end
  end.

(** The properties no call changes. *)
Definition same_config (s s' : UTimelineFeedWidget) : Prop :=
  FeedScrollBox s' = FeedScrollBox s
  /\ DefaultFeedEntryClass s' = DefaultFeedEntryClass s
  /\ BadgeEntryClass s' = BadgeEntryClass s
  /\ MaxEntries s' = MaxEntries s
  /\ bSetupEntryImplemented s' = bSetupEntryImplemented s.

(** What holds of the widget between calls: the bound is not negative, the
    list respects it, and without a scroll box nothing was ever stored. *)
Definition feed_ok (s : UTimelineFeedWidget) : Prop :=
  0 <= MaxEntries s
  /\ Z.of_nat (length (FeedEntries s)) <= MaxEntries s
  /\ (FeedScrollBox s = None -> FeedEntries s = []).

(** The list after an insertion that created [widget]: the newest
    [MaxEntries] entries of the old list followed by the new one; what is
    dropped is dropped at the front. *)
Definition newest (MaxEntries : Z) (old : list Ptr) (widget : ObjId)
  : list Ptr :=
  drop (length old + 1 - Z.to_nat MaxEntries) (old ++ [Some widget]).

(** What is shown is what is stored: the children of the scroll box are
    the widgets of the list, in its order, each of them once and created
    before. *)
Definition shown_is_stored (s : UTimelineFeedWidget) : Prop :=
  FeedEntries s = Some <$> Children s
  /\ NoDup (Children s)
  /\ Forall (fun widget => (widget < NextObject s)%nat) (Children s).

End TimelineFeed.

(** ** PlayerProfileWidget.h (FChallengeData), ChallengeCardWidget.h /
       ChallengeCardWidget.cpp *)

Module ChallengeCard.
Import Float32.

(** The fields typed [int32] are integers of that range. *)
Record FChallengeData := mkChallenge {
  Id : FString;
  Title : FString;
  Description : FString;
  Difficulty : FString;
  Target : Z;
  CurrentProgress : Z;
  XPReward : Z;
  Category : FString
}.

(** Calls on the bound widgets and the delegate.  The two formatted texts
    are recorded by the arguments handed to [FString::Printf]:
    ["+%d XP"] with the reward, and ["%d/%d"] with the rounded current
    progress and the target. *)
Inductive Effect :=
| TitleText_SetText (Text : FString)
| DescriptionText_SetText (Text : FString)
| XPRewardText_SetText (XPReward : Z)
| ProgressBar_SetPercent (Percent : float)
| ProgressText_SetText (CurrentProgress : float) (TargetProgress : Z)
| DifficultyBorder_SetBrushColor (Color : FLinearColor)
| CategoryIcon_SetBrushFromTexture (Icon : Ptr)
| OnChallengeProgressed_Broadcast (Progress : float).

Record Bindings := mkBindings {
  TitleText : Ptr;
  DescriptionText : Ptr;
  ProgressText : Ptr;
  ProgressBar : Ptr;
  XPRewardText : Ptr;
  CategoryIcon : Ptr;
  DifficultyBorder : Ptr
}.

Record UChallengeCardWidget := mkWidget {
  Widgets : Bindings;
  ChallengeId : FString;
  TargetProgress : Z;
  CategoryIcons : gmap string Ptr;
  DifficultyColors : gmap string FLinearColor;
  Log : list Effect
}.

Definition set_ChallengeId (v : FString) (s : UChallengeCardWidget) :=
  {| Widgets := Widgets s; ChallengeId := v;
     TargetProgress := TargetProgress s; CategoryIcons := CategoryIcons s;
     DifficultyColors := DifficultyColors s; Log := Log s |}.

Definition set_TargetProgress (v : Z) (s : UChallengeCardWidget) :=
  {| Widgets := Widgets s; ChallengeId := ChallengeId s; TargetProgress := v;
     CategoryIcons := CategoryIcons s;
     DifficultyColors := DifficultyColors s; Log := Log s |}.

(** Append an effect to the log. *)
Definition emit (e : Effect) (s : UChallengeCardWidget) :=
  {| Widgets := Widgets s; ChallengeId := ChallengeId s;
     TargetProgress := TargetProgress s; CategoryIcons := CategoryIcons s;
     DifficultyColors := DifficultyColors s; Log := Log s ++ [e] |}.

(** [FString::ToLower], on ASCII letters. *)
Definition ToLowerChar (c : ascii) : ascii :=
  let n := nat_of_ascii c in
  if ((65 <=? n) && (n <=? 90))%nat then ascii_of_nat (n + 32) else c.

Fixpoint ToLower (s : FString) : FString :=
  match s with
  | EmptyString => EmptyString
  | String c rest => String (ToLowerChar c) (ToLower rest)
  end.

(** The quotient computed in [UpdateProgressDisplay]: a [float] divided by
    an [int32] converted to [float]. *)
Definition ProgressQuotient (CurrentProgress : float) (TargetProgress : Z)
  : float :=
  fdiv CurrentProgress (of_Z TargetProgress).

(** [UChallengeCardWidget::UpdateProgressDisplay] *)
Definition UpdateProgressDisplay (CurrentProgress : float)
    (s : UChallengeCardWidget) : UChallengeCardWidget :=
  let s1 :=
    if nonnull (ProgressBar (Widgets s)) then
      let ProgressRatio :=
        Clamp (ProgressQuotient CurrentProgress (TargetProgress s))
              (of_Z 0) (of_Z 1) in
      emit (ProgressBar_SetPercent ProgressRatio) s
    else s in
  if nonnull (ProgressText (Widgets s1))
  then emit (ProgressText_SetText CurrentProgress (TargetProgress s1)) s1
  else s1.

(** [UChallengeCardWidget::UpdateProgress] *)
Definition UpdateProgress (NewProgress : float) (s : UChallengeCardWidget)
  : UChallengeCardWidget :=
  emit (OnChallengeProgressed_Broadcast NewProgress)
       (UpdateProgressDisplay NewProgress s).

(** [UChallengeCardWidget::SetDifficultyColor]; the alpha set is [0.3f]. *)
Definition SetDifficultyColor (Difficulty : FString)
    (s : UChallengeCardWidget) : UChallengeCardWidget :=
  if nonnull (DifficultyBorder (Widgets s)) then
    match DifficultyColors s !! ToLower Difficulty with
    | Some Color =>
        emit (DifficultyBorder_SetBrushColor
                (mkColor (R Color) (G Color) (B Color)
                         (fdiv (of_Z 3) (of_Z 10)))) s
    | None => s
    end
  else s.

(** [UChallengeCardWidget::SetCategoryIcon] *)
Definition SetCategoryIcon (Category : FString) (s : UChallengeCardWidget)
  : UChallengeCardWidget :=
  if nonnull (CategoryIcon (Widgets s)) then
    match CategoryIcons s !! ToLower Category with
    | Some Icon => emit (CategoryIcon_SetBrushFromTexture Icon) s
    | None => s
    end
  else s.

(** [UChallengeCardWidget::SetupChallenge] *)
Definition SetupChallenge (ChallengeData : FChallengeData)
    (s : UChallengeCardWidget) : UChallengeCardWidget :=
  let s1 := set_ChallengeId (Id ChallengeData) s in
  let s2 := set_TargetProgress (Target ChallengeData) s1 in
  let s3 := if nonnull (TitleText (Widgets s2))
            then emit (TitleText_SetText (Title ChallengeData)) s2 else s2 in
  let s4 := if nonnull (DescriptionText (Widgets s3))
            then emit (DescriptionText_SetText (Description ChallengeData)) s3
            else s3 in
  let s5 := if nonnull (XPRewardText (Widgets s4))
            then emit (XPRewardText_SetText (XPReward ChallengeData)) s4
            else s4 in
  let s6 := SetDifficultyColor (Difficulty ChallengeData) s5 in
  let s7 := SetCategoryIcon (Category ChallengeData) s6 in
  UpdateProgress (of_Z (CurrentProgress ChallengeData)) s7.

(** The values handed to [SetPercent], oldest first. *)
Definition percents (l : list Effect) : list float :=
  omap (fun e => match e with
                 | ProgressBar_SetPercent p => Some p
                 | _ => None
                 end) l.

(** A call of one of the two public functions, and a run of calls. *)
Inductive CardCall :=
| CallSetupChallenge (ChallengeData : FChallengeData)
| CallUpdateProgress (NewProgress : float).

Definition card_call (c : CardCall) (s : UChallengeCardWidget)
  : UChallengeCardWidget :=
  match c with
  | CallSetupChallenge ChallengeData => SetupChallenge ChallengeData s
  | CallUpdateProgress NewProgress => UpdateProgress NewProgress s
  end.

Definition card_calls (cs : list CardCall) (s : UChallengeCardWidget)
  : UChallengeCardWidget :=
  fold_left (fun t c => card_call c t) cs s.

End ChallengeCard.

(** ** MapView.h / MapView.cpp: the highlight markers *)

Module Highlights.
Import Float32 MapView.

(** A highlight marker is a [UStaticMeshComponent] that the actor creates
    with [NewObject<UStaticMeshComponent>(this, *MarkerName)], the name
    being "HighlightMarker_" followed by the id of the highlight.  An
    object is determined by its outer and its name: creating one under a
    name in use replaces the object of that name.  A pointer to a marker is
    therefore given by the id its name was made of. *)
Abbreviation MarkerPtr := (option string) (only parsing).

Record UStaticMeshComponent := mkMesh {
  StaticMesh : Ptr;
  Material : Ptr;
  WorldLocation : FVector;
  bVisible : bool
}.

(** The part of [AMapView] that the highlight functions read and write,
    with the components the actor owns ([Meshes], by the id in their name)
    and the highlights broadcast through [OnHighlightSelected], oldest
    first. *)
Record Layer := mkLayer {
  HighlightMarkerMesh : Ptr;
  ClutchPlayMaterial : Ptr;
  HotStreakMaterial : Ptr;
  MomentumShiftMaterial : Ptr;
  ImpactPlayMaterial : Ptr;
  HighlightMarkers : gmap string MarkerPtr;
  ActiveHighlights : list FHighlightData.t;
  CurrentPlayerFilter : FString;
  CurrentTeamFilter : FString;
  CurrentTypeFilter : FString;
  Meshes : gmap string UStaticMeshComponent;
  Selected : list FHighlightData.t
}.

Definition set_HighlightMarkers (v : gmap string MarkerPtr) (s : Layer) :=
  {| HighlightMarkerMesh := HighlightMarkerMesh s;
     ClutchPlayMaterial := ClutchPlayMaterial s;
     HotStreakMaterial := HotStreakMaterial s;
     MomentumShiftMaterial := MomentumShiftMaterial s;
     ImpactPlayMaterial := ImpactPlayMaterial s;
     HighlightMarkers := v; ActiveHighlights := ActiveHighlights s;
     CurrentPlayerFilter := CurrentPlayerFilter s;
     CurrentTeamFilter := CurrentTeamFilter s;
     CurrentTypeFilter := CurrentTypeFilter s;
     Meshes := Meshes s; Selected := Selected s |}.

Definition set_ActiveHighlights (v : list FHighlightData.t) (s : Layer) :=
  {| HighlightMarkerMesh := HighlightMarkerMesh s;
     ClutchPlayMaterial := ClutchPlayMaterial s;
     HotStreakMaterial := HotStreakMaterial s;
     MomentumShiftMaterial := MomentumShiftMaterial s;
     ImpactPlayMaterial := ImpactPlayMaterial s;
     HighlightMarkers := HighlightMarkers s; ActiveHighlights := v;
     CurrentPlayerFilter := CurrentPlayerFilter s;
     CurrentTeamFilter := CurrentTeamFilter s;
     CurrentTypeFilter := CurrentTypeFilter s;
     Meshes := Meshes s; Selected := Selected s |}.

Definition set_Filters (PlayerFilter TeamFilter TypeFilter : FString)
    (s : Layer) :=
  {| HighlightMarkerMesh := HighlightMarkerMesh s;
     ClutchPlayMaterial := ClutchPlayMaterial s;
     HotStreakMaterial := HotStreakMaterial s;
     MomentumShiftMaterial := MomentumShiftMaterial s;
     ImpactPlayMaterial := ImpactPlayMaterial s;
     HighlightMarkers := HighlightMarkers s;
     ActiveHighlights := ActiveHighlights s;
     CurrentPlayerFilter := PlayerFilter;
     CurrentTeamFilter := TeamFilter;
     CurrentTypeFilter := TypeFilter;
     Meshes := Meshes s; Selected := Selected s |}.

Definition set_Meshes (v : gmap string UStaticMeshComponent) (s : Layer) :=
  {| HighlightMarkerMesh := HighlightMarkerMesh s;
     ClutchPlayMaterial := ClutchPlayMaterial s;
     HotStreakMaterial := HotStreakMaterial s;
     MomentumShiftMaterial := MomentumShiftMaterial s;
     ImpactPlayMaterial := ImpactPlayMaterial s;
     HighlightMarkers := HighlightMarkers s;
     ActiveHighlights := ActiveHighlights s;
     CurrentPlayerFilter := CurrentPlayerFilter s;
     CurrentTeamFilter := CurrentTeamFilter s;
     CurrentTypeFilter := CurrentTypeFilter s;
     Meshes := v; Selected := Selected s |}.

Definition set_Selected (v : list FHighlightData.t) (s : Layer) :=
  {| HighlightMarkerMesh := HighlightMarkerMesh s;
     ClutchPlayMaterial := ClutchPlayMaterial s;
     HotStreakMaterial := HotStreakMaterial s;
     MomentumShiftMaterial := MomentumShiftMaterial s;
     ImpactPlayMaterial := ImpactPlayMaterial s;
     HighlightMarkers := HighlightMarkers s;
     ActiveHighlights := ActiveHighlights s;
     CurrentPlayerFilter := CurrentPlayerFilter s;
     CurrentTeamFilter := CurrentTeamFilter s;
     CurrentTypeFilter := CurrentTypeFilter s;
     Meshes := Meshes s; Selected := v |}.

(** [UStaticMeshComponent::SetVisibility] *)
Definition SetVisibility (name : string) (v : bool) (s : Layer) : Layer :=
  set_Meshes
    (alter (fun x => mkMesh (StaticMesh x) (Material x) (WorldLocation x) v)
           name (Meshes s)) s.

(** [TMap::FindRef] *)
Definition FindRef (m : gmap string MarkerPtr) (k : FString) : MarkerPtr :=
  default None (m !! k).

(** [FString::operator==] against a literal of the source.  The engine
    compares without regard to case, and the four literals of
    [GetHighlightMaterial] are written in mixed case, not in folded form:
    both sides are folded before they are compared. *)
Definition EqualsIgnoreCase (A B : FString) : bool :=
  bool_decide (ChallengeCard.ToLower A = ChallengeCard.ToLower B).

(** [AMapView::GetHighlightMaterial] *)
Definition GetHighlightMaterial (HighlightType : FString) (s : Layer) : Ptr :=
  if EqualsIgnoreCase HighlightType "ClutchPlay" then ClutchPlayMaterial s
  else if EqualsIgnoreCase HighlightType "HotStreak" then HotStreakMaterial s
  else if EqualsIgnoreCase HighlightType "MomentumShift"
       then MomentumShiftMaterial s
  else if EqualsIgnoreCase HighlightType "ImpactPlay" then ImpactPlayMaterial s
  else ClutchPlayMaterial s.

(** The value of [bShouldBeVisible] at the end of
    [AMapView::UpdateHighlightMarkerVisibility]. *)
Definition bShouldBeVisible (HighlightData : FHighlightData.t) (s : Layer)
  : bool :=
  let b :=
    if negb (CoachingFlow.IsEmpty (CurrentPlayerFilter s))
       && negb (bool_decide (FHighlightData.PlayerId HighlightData =
                             CurrentPlayerFilter s))
    then false else true in
  if b && negb (CoachingFlow.IsEmpty (CurrentTypeFilter s))
     && negb (bool_decide (FHighlightData.HighlightType HighlightData =
                           CurrentTypeFilter s))
  then false else b.

(** [AMapView::UpdateHighlightMarkerVisibility] *)
Definition UpdateHighlightMarkerVisibility (HighlightData : FHighlightData.t)
    (Marker : string) (s : Layer) : Layer :=
  SetVisibility Marker (bShouldBeVisible HighlightData s) s.

(** [AMapView::SpawnHighlightMarker]; [Convert] stands for
    [ConvertMapCoordinatesToWorld], which the sources call and do not
    define.  A component is visible when created. *)
Definition SpawnHighlightMarker (Convert : FVector2D -> FVector)
    (HighlightData : FHighlightData.t) (s : Layer) : Layer :=
  if negb (nonnull (HighlightMarkerMesh s)) then s
  else
    let MarkerName := FHighlightData.Id HighlightData in
    let MarkerComponent :=
      mkMesh (HighlightMarkerMesh s)
             (GetHighlightMaterial (FHighlightData.HighlightType HighlightData) s)
             (Convert (FHighlightData.Coordinates HighlightData)) true in
    let s1 := set_Meshes (<[MarkerName := MarkerComponent]> (Meshes s)) s in
    (* Store the marker *)
    let s2 :=
      set_HighlightMarkers
        (<[FHighlightData.Id HighlightData := Some MarkerName]>
           (HighlightMarkers s1)) s1 in
    (* Update visibility based on current filters *)
    UpdateHighlightMarkerVisibility HighlightData MarkerName s2.

(** One round of the first loop of [AMapView::UpdateHighlights]:
    [if (Pair.Value) Pair.Value->DestroyComponent();] *)
Definition DestroyOne (Pair : string * MarkerPtr) (s : Layer) : Layer :=
  match Pair.2 with
  | Some name => set_Meshes (delete name (Meshes s)) s
  | None => s
  end.

(** [AMapView::UpdateHighlights] *)
Definition UpdateHighlights (Convert : FVector2D -> FVector)
    (Highlights : list FHighlightData.t) (s : Layer) : Layer :=
  (* Clear existing highlight markers *)
  let s1 := foldr DestroyOne s (map_to_list (HighlightMarkers s)) in
  let s2 := set_HighlightMarkers ∅ s1 in
  let s3 := set_ActiveHighlights Highlights s2 in
  (* Spawn new markers for each highlight *)
  fold_left (fun t Highlight => SpawnHighlightMarker Convert Highlight t)
            Highlights s3.

(** One round of the loop of [AMapView::SetHighlightFilters] *)
Definition RefreshOne (Highlight : FHighlightData.t) (s : Layer) : Layer :=
  match FindRef (HighlightMarkers s) (FHighlightData.Id Highlight) with
  | Some Marker => UpdateHighlightMarkerVisibility Highlight Marker s
  | None => s
  end.

(** [AMapView::SetHighlightFilters] *)
Definition SetHighlightFilters (PlayerFilter TeamFilter TypeFilter : FString)
    (s : Layer) : Layer :=
  let s1 := set_Filters PlayerFilter TeamFilter TypeFilter s in
  (* Update visibility of existing markers based on new filters *)
  fold_left (fun t Highlight => RefreshOne Highlight t) (ActiveHighlights s1) s1.

(** One round of the loop of [AMapView::ClearHighlightFilters] *)
Definition ShowOne (Pair : string * MarkerPtr) (s : Layer) : Layer :=
  match Pair.2 with
  | Some name => SetVisibility name true s
  | None => s
  end.

(** [AMapView::ClearHighlightFilters] *)
Definition ClearHighlightFilters (s : Layer) : Layer :=
  let s1 := set_Filters "" "" "" s in
  (* Show all markers *)
  foldr ShowOne s1 (map_to_list (HighlightMarkers s1)).

(** The loop of [AMapView::HandleHighlightMarkerClicked]: the first
    highlight whose stored marker is the clicked component. *)
Fixpoint ClickedHighlight (ClickedComponent : MarkerPtr)
    (markers : gmap string MarkerPtr) (hs : list FHighlightData.t)
  : option FHighlightData.t :=
  match hs with
  | [] => None
  | Highlight :: rest =>
      match FindRef markers (FHighlightData.Id Highlight) with
      | Some Marker =>
          if decide (Some Marker = ClickedComponent) then Some Highlight
          else ClickedHighlight ClickedComponent markers rest
      | None => ClickedHighlight ClickedComponent markers rest
      end
  end.

(** [AMapView::HandleHighlightMarkerClicked] *)
Definition HandleHighlightMarkerClicked (ClickedComponent : MarkerPtr)
    (s : Layer) : Layer :=
  match ClickedHighlight ClickedComponent (HighlightMarkers s)
                         (ActiveHighlights s) with
  | Some Highlight => set_Selected (Selected s ++ [Highlight]) s
  | None => s
  end.

(** A call that sets or clears the filters, and a run of such calls. *)
Inductive FilterCall :=
| CallSetHighlightFilters (PlayerFilter TeamFilter TypeFilter : FString)
| CallClearHighlightFilters.

Definition filter_call (c : FilterCall) (s : Layer) : Layer :=
  match c with
  | CallSetHighlightFilters P T Ty => SetHighlightFilters P T Ty s
  | CallClearHighlightFilters => ClearHighlightFilters s
  end.

Definition filter_calls (cs : list FilterCall) (s : Layer) : Layer :=
  fold_left (fun t c => filter_call c t) cs s.

(** What the two filters that are consulted let through: an empty filter
    lets everything through. *)
Definition passes (PlayerFilter TypeFilter : FString)
    (Highlight : FHighlightData.t) : bool :=
  (CoachingFlow.IsEmpty PlayerFilter
   || bool_decide (FHighlightData.PlayerId Highlight = PlayerFilter))
  && (CoachingFlow.IsEmpty TypeFilter
      || bool_decide (FHighlightData.HighlightType Highlight = TypeFilter)).

(** The marker expected for a highlight: the highlight mesh, the material
    of the highlight's type, the place of its coordinates, and visible
    exactly when the highlight passes the current filters. *)
Definition marker_of (Convert : FVector2D -> FVector) (s : Layer)
    (Highlight : FHighlightData.t) : UStaticMeshComponent :=
  mkMesh (HighlightMarkerMesh s)
         (GetHighlightMaterial (FHighlightData.HighlightType Highlight) s)
         (Convert (FHighlightData.Coordinates Highlight))
         (passes (CurrentPlayerFilter s) (CurrentTypeFilter s) Highlight).

(** A marker that is in place, whatever its visibility. *)
Definition placed (Convert : FVector2D -> FVector) (s : Layer)
    (Highlight : FHighlightData.t) : Prop :=
  HighlightMarkers s !! FHighlightData.Id Highlight =
    Some (Some (FHighlightData.Id Highlight))
  /\ exists v, Meshes s !! FHighlightData.Id Highlight =
       Some (mkMesh (HighlightMarkerMesh s)
                    (GetHighlightMaterial
                       (FHighlightData.HighlightType Highlight) s)
                    (Convert (FHighlightData.Coordinates Highlight)) v).

(** A highlight has its marker, stored under its id. *)
Definition marked (Convert : FVector2D -> FVector) (s : Layer)
    (Highlight : FHighlightData.t) : Prop :=
  HighlightMarkers s !! FHighlightData.Id Highlight =
    Some (Some (FHighlightData.Id Highlight))
  /\ Meshes s !! FHighlightData.Id Highlight =
     Some (marker_of Convert s Highlight).

(** Every active highlight has. *)
Definition filtered (Convert : FVector2D -> FVector) (s : Layer) : Prop :=
  forall Highlight, Highlight ∈ ActiveHighlights s -> marked Convert s Highlight.

(** A component made visible. *)
Definition shown (x : UStaticMeshComponent) : UStaticMeshComponent :=
  mkMesh (StaticMesh x) (Material x) (WorldLocation x) true.

End Highlights.

(** ** Concrete data for the examples *)

Module Sample.
Import Float32 MapView.

(** An environment in which every spawn succeeds; [garbage] is what an
    uninitialised local is taken to hold.  The two math functions stand for
    the C library's, which no statement below evaluates. *)
Definition env (garbage : FVector2D) : Env :=
  {| Loge := fun x => x; Tan := fun x => x;
     SpawnSucceeds := fun _ => true;
     Indeterminate := fun _ => garbage |}.

Definition origin : FVector2D := mkFVector2D (of_Z 0) (of_Z 0).

(** Every asset assigned. *)
Definition props : Properties :=
  {| MinZoom := of_Z 500; MaxZoom := of_Z 5000; ZoomSpeed := of_Z 100;
     PanSpeed := of_Z 1; RotationSpeed := of_Z 1;
     DefaultVenueMarker := Some 101%nat; IndoorVenueMaterial := Some 102%nat;
     OutdoorVenueMaterial := Some 103%nat; PlayerMarkerMesh := Some 104%nat;
     EventMarkerMesh := Some 105%nat; ActivePlayerMaterial := Some 106%nat;
     InactivePlayerMaterial := Some 107%nat; LiveEventMaterial := Some 108%nat;
     UpcomingEventMaterial := Some 109%nat; TooltipWidgetClass := Some 110%nat;
     PulseCurve := Some 111%nat; FadeCurve := Some 112%nat |}.

Definition court : FVenueData.t :=
  FVenueData.mk "v1" "Court" ["basketball"]
                (mkFVector2D (of_Z 10) (of_Z 20)) "" [] false.

Definition gym : FVenueData.t :=
  FVenueData.mk "v2" "Gym" ["boxing"]
                (mkFVector2D (of_Z 30) (of_Z 40)) "" [] true.

Definition final : FEventData.t :=
  FEventData.mk "e1" "match" "v1" "Final" "active" 0 "".

(** An event whose venue is not among the stored ones. *)
Definition stray : FEventData.t :=
  FEventData.mk "e2" "match" "v9" "Friendly" "upcoming" 0 "".

(** A map that already shows one venue marker, actor 0. *)
Definition map0 : AMapView :=
  {| Props := props;
     CameraLocation := mkFVector (of_Z 0) (of_Z 0) (of_Z 1000);
     MapCenter := origin; CurrentZoom := of_Z 1000;
     Venues := [court]; Players := []; Events := []; ActiveHighlights := [];
     VenueMarkers := {[ "v1" := Some 0%nat ]};
     PlayerMarkers := ∅; EventMarkers := ∅; MarkerTooltips := ∅;
     AnimationTimers := ∅; HighlightMarkers := ∅ |}.

Definition world0 : World :=
  {| Actors := {[ 0%nat := mkActor (mkFVector (of_Z 1000) (of_Z 20) (of_Z 0))
                                  true (Some 101%nat) (Some 103%nat) ["v1"] ]};
     Components := ∅; Timers := ∅; NextObject := 1%nat; NextTimer := 1%nat |}.

(** A challenge card with every widget bound and nothing logged yet. *)
Definition card : ChallengeCard.UChallengeCardWidget :=
  ChallengeCard.mkWidget
    (ChallengeCard.mkBindings (Some 1%nat) (Some 2%nat) (Some 3%nat) (Some 4%nat)
                              (Some 5%nat) (Some 6%nat) (Some 7%nat))
    "" 0 ∅ ∅ [].

(** A challenge without a target and without progress. *)
Definition no_target : ChallengeCard.FChallengeData :=
  ChallengeCard.mkChallenge "c0" "Warm up" "" "easy" 0 0 10 "skills".

(** Ten free throws, three made. *)
Definition free_throws : ChallengeCard.FChallengeData :=
  ChallengeCard.mkChallenge "c1" "Free throws" "" "easy" 10 3 50 "shooting".

(** A coaching widget with every widget bound, waiting for the answer to
    the welcome question. *)
Definition coach : CoachingFlow.UCoachingFlowWidget :=
  CoachingFlow.set_CurrentState CoachingFlow.PerformanceReview
    (CoachingFlow.UCoachingFlowWidget_ctor
       (CoachingFlow.mkBindings (Some 1%nat) (Some 2%nat) (Some 3%nat)
                                (Some 4%nat) (Some 5%nat) (Some 6%nat)
                                (Some 7%nat))).

(** An idle voice manager whose audio components exist. *)
Definition manager : VoiceInput.UVoiceInputManager :=
  VoiceInput.mkManager false "en-US" [] (Some 1%nat) (Some 2%nat) None
                       false false 3%nat [].

(** A media widget after [NativeConstruct]: player, texture and sound
    component created, paused, not muted, full volume. *)
Definition video : MediaPlayer.UMediaPlayerWidget :=
  MediaPlayer.mkWidget
    (MediaPlayer.mkBindings (Some 1%nat) (Some 2%nat) (Some 3%nat) (Some 4%nat)
                            (Some 5%nat) (Some 6%nat) (Some 7%nat))
    (Some 8%nat) (Some 9%nat) (Some 10%nat) false false (Float32.of_Z 0)
    false (Float32.of_Z 1) [].

Definition ann : MapView.FPlayerData.t :=
  MapView.FPlayerData.mk "p1" "Ann" origin "" "basketball" "active" "" "v1".

Definition bob : MapView.FPlayerData.t :=
  MapView.FPlayerData.mk "p2" "Bob" origin "" "boxing" "idle" "" "v2".

(** The sample map with two players; actor 0 is Ann's marker. *)
Definition map1 : MapView.AMapView :=
  MapView.set_PlayerMarkers {[ "p1" := Some 0%nat ]}
    (MapView.set_Players [ann; bob] map0).

Definition gold : FLinearColor :=
  mkColor (Float32.of_Z 1) (Float32.of_Z 1) (Float32.of_Z 0) (Float32.of_Z 1).

Definition first_win : TimelineFeed.FBadgeData.t :=
  TimelineFeed.FBadgeData.mk "b1" "First win" "" None "2024-05-01" gold.

Definition hot_streak : TimelineFeed.FBadgeData.t :=
  TimelineFeed.FBadgeData.mk "b2" "Hot streak" "" None "2024-05-02" gold.

(** A feed entry that is not a badge. *)
Definition stat_line : TimelineFeed.FFeedEntry.t :=
  TimelineFeed.FFeedEntry.mk "12 points" "" None 0 "stat" first_win.

(** A feed widget like the constructed one, with room for two entries. *)
Definition short_feed (MaxEntries : Z) : TimelineFeed.UTimelineFeedWidget :=
  TimelineFeed.mkWidget (Some 1%nat) (Some 2%nat) (Some 3%nat) MaxEntries []
                        true [] 10%nat [].

(** [ConvertMapCoordinatesToWorld], taken to lay the map flat. *)
Definition to_world (c : FVector2D) : FVector :=
  mkFVector (cX c) (cY c) (of_Z 0).

Definition clutch : FHighlightData.t :=
  FHighlightData.mk "h1" "p1" "ClutchPlay" "" (of_Z 3) (of_Z 1) 0 origin.

Definition streak : FHighlightData.t :=
  FHighlightData.mk "h2" "p2" "HotStreak" "" (of_Z 5) (of_Z 1) 0 origin.

(** The highlight part of a map with every asset assigned, nothing shown
    and no filter set. *)
Definition layer : Highlights.Layer :=
  Highlights.mkLayer (Some 201%nat) (Some 202%nat) (Some 203%nat)
                     (Some 204%nat) (Some 205%nat) ∅ [] "" "" "" ∅ [].

(** A clock text that keeps whole seconds, as the engine's does, here in
    one character: ticks are tenths of a microsecond. *)
Definition seconds : CoachingFlow.DateFormat :=
  {| CoachingFlow.ToString :=
       fun t => String (ascii_of_nat (Z.to_nat (t / 10000000))) "";
     CoachingFlow.Parse :=
       fun txt => match txt with
                  | String c EmptyString =>
                      Some (Z.of_nat (nat_of_ascii c) * 10000000)
                  | _ => None
                  end |}.

End Sample.

(* ===================================================================== *)
(** * Part II: properties *)
(* ===================================================================== *)

(** ** Order facts on binary32 comparison *)

Section FloatOrder.
Import Float32.

Ltac order_cases :=
  repeat match goal with
  | |- context [Pos.compare_cont Eq ?a ?b] =>
      change (Pos.compare_cont Eq a b) with (Pos.compare a b)
  | H : context [Pos.compare_cont Eq ?a ?b] |- _ =>
      change (Pos.compare_cont Eq a b) with (Pos.compare a b) in H
  end;
  repeat match goal with
  | |- context [Z.compare ?a ?b] => destruct (Z.compare_spec a b)
  | H : context [Z.compare ?a ?b] |- _ => destruct (Z.compare_spec a b)
  | |- context [Pos.compare ?a ?b] => destruct (Pos.compare_spec a b)
  | H : context [Pos.compare ?a ?b] |- _ => destruct (Pos.compare_spec a b)
  end;
  simpl in *; try reflexivity; try discriminate; try lia.

Lemma SFcompare_antisym (x y : float) :
  SFcompare y x = option_map CompOpp (SFcompare x y).
Proof.
  destruct x as [sx|sx| |sx mx ex], y as [sy|sy| |sy my ey]; simpl;
    try reflexivity;
    try (destruct sx; reflexivity); try (destruct sy; reflexivity);
    try (destruct sx, sy; reflexivity).
  destruct sx, sy; simpl; try reflexivity; order_cases.
Qed.

Lemma SFcompare_refl (x : float) :
  is_nan x = false -> SFcompare x x = Some Eq.
Proof.
  destruct x as [s|s| |s m e]; simpl; intros H; try discriminate;
    try reflexivity; destruct s; try reflexivity; order_cases.
Qed.

Lemma fleb_not_nan (x y : float) :
  fleb x y = true -> is_nan x = false /\ is_nan y = false.
Proof.
  unfold fleb, SFleb.
  destruct x, y; simpl; intros H; try discriminate; split; reflexivity.
Qed.

Lemma fltb_not_nan (x y : float) :
  fltb x y = true -> is_nan x = false /\ is_nan y = false.
Proof.
  unfold fltb, SFltb.
  destruct x, y; simpl; intros H; try discriminate; split; reflexivity.
Qed.

Lemma fleb_refl (x : float) : is_nan x = false -> fleb x x = true.
Proof.
  intros H. unfold fleb, SFleb. rewrite (SFcompare_refl x H). reflexivity.
Qed.

Lemma fltb_fleb (x y : float) : fltb x y = true -> fleb x y = true.
Proof.
  unfold fltb, fleb, SFltb, SFleb.
  destruct (SFcompare x y) as [[ | | ]|]; intros H; try discriminate; reflexivity.
Qed.

(** On numbers (no NaN involved), "not below" is "at least". *)
Lemma not_fltb_fleb (x y : float) :
  is_nan x = false -> is_nan y = false -> fltb x y = false -> fleb y x = true.
Proof.
  unfold fltb, fleb, SFltb, SFleb. intros Hx Hy.
  rewrite (SFcompare_antisym x y).
  destruct x, y; try discriminate; simpl;
    repeat match goal with |- context [if ?b then _ else _] => destruct b end;
    simpl; intros H; try discriminate; try reflexivity;
    order_cases.
Qed.

Lemma fleb_trans (x y z : float) :
  fleb x y = true -> fleb y z = true -> fleb x z = true.
Proof.
  unfold fleb, SFleb.
  destruct x as [sx|sx| |sx mx ex], y as [sy|sy| |sy my ey],
           z as [sz|sz| |sz mz ez]; simpl;
    try discriminate; try reflexivity;
    repeat match goal with
    | s : bool |- _ => destruct s
    end; simpl; try discriminate; try reflexivity;
    intros H1 H2; order_cases.
Qed.

(** The clamp lands in the interval whenever the interval is not empty:
    a NaN argument is mapped to the upper bound. *)
Lemma Clamp_within (X lo hi : float) :
  fleb lo hi = true -> within lo hi (Clamp X lo hi) = true.
Proof.
  intros Hle. destruct (fleb_not_nan _ _ Hle) as [Hlo Hhi].
  unfold within, Clamp.
  destruct (fltb X lo) eqn:E1.
  - rewrite (fleb_refl lo Hlo), Hle. reflexivity.
  - destruct (fltb X hi) eqn:E2.
    + destruct (fltb_not_nan _ _ E2) as [HX _].
      rewrite (not_fltb_fleb X lo HX Hlo E1), (fltb_fleb _ _ E2). reflexivity.
    + rewrite Hle, (fleb_refl hi Hhi). reflexivity.
Qed.

End FloatOrder.

(** ** The map view: zoom *)

Section Zoom.
Import Float32 MapView.

Example ZoomIn_three_from_default :
  CurrentZoom (ZoomIn (of_Z 3) AMapView_ctor) = of_Z 700.
Proof. vm_compute. reflexivity. Qed.

Example ZoomIn_far_stops_at_MinZoom :
  CurrentZoom (ZoomIn (of_Z 100) AMapView_ctor) = of_Z 500.
Proof. vm_compute. reflexivity. Qed.

Example ZoomOut_far_stops_at_MaxZoom :
  CurrentZoom (ZoomOut (of_Z 100) AMapView_ctor) = of_Z 5000.
Proof. vm_compute. reflexivity. Qed.

Example ZoomIn_nan_goes_to_MaxZoom :
  CurrentZoom (ZoomIn S754_nan AMapView_ctor) = of_Z 5000.
Proof. vm_compute. reflexivity. Qed.

Lemma ZoomIn_Props (d : float) (s : AMapView) : Props (ZoomIn d s) = Props s.
Proof. reflexivity. Qed.

Lemma ZoomIn_CurrentZoom (d : float) (s : AMapView) :
  CurrentZoom (ZoomIn d s) =
  Clamp (fsub (CurrentZoom s) (fmul d (ZoomSpeed (Props s))))
        (MinZoom (Props s)) (MaxZoom (Props s)).
Proof. reflexivity. Qed.

Lemma within_bounds_ordered (lo hi x : float) :
  within lo hi x = true -> fleb lo hi = true.
Proof.
  unfold within. intros H. apply andb_true_iff in H as [H1 H2].
  exact (fleb_trans _ _ _ H1 H2).
Qed.

Lemma ZoomIn_within (d : float) (s : AMapView) :
  within (MinZoom (Props s)) (MaxZoom (Props s)) (CurrentZoom s) = true ->
  within (MinZoom (Props s)) (MaxZoom (Props s)) (CurrentZoom (ZoomIn d s)) = true.
Proof.
  intros H. rewrite ZoomIn_CurrentZoom.
  apply Clamp_within. exact (within_bounds_ordered _ _ _ H).
Qed.

Lemma zoom_call_Props (c : ZoomCall) (s : AMapView) :
  Props (zoom_call c s) = Props s.
Proof. destruct c; reflexivity. Qed.

Lemma zoom_call_within (c : ZoomCall) (s : AMapView) :
  within (MinZoom (Props s)) (MaxZoom (Props s)) (CurrentZoom s) = true ->
  within (MinZoom (Props s)) (MaxZoom (Props s)) (CurrentZoom (zoom_call c s)) = true.
Proof.
  destruct c as [d|d]; simpl; intros H.
  - apply ZoomIn_within, H.
  - unfold ZoomOut. apply ZoomIn_within, H.
Qed.

(** C8. If the current zoom starts between [MinZoom] and [MaxZoom], then
    after any finite run of [ZoomIn] and [ZoomOut] calls, whatever the
    deltas (finite or not), it is still between the same two bounds, which
    the calls do not touch; and [ZoomOut Delta] is [ZoomIn (-Delta)]. *)
Theorem zoom_stays_clamped (s : AMapView) (cs : list ZoomCall) :
  within (MinZoom (Props s)) (MaxZoom (Props s)) (CurrentZoom s) = true ->
  within (MinZoom (Props s)) (MaxZoom (Props s))
         (CurrentZoom (zoom_calls cs s)) = true
  /\ Props (zoom_calls cs s) = Props s
  /\ (forall Delta t, ZoomOut Delta t = ZoomIn (fneg Delta) t).
Proof.
  intros H. split; [|split].
  - revert s H. induction cs as [|c cs IH]; intros s H; simpl.
    + exact H.
    + unfold zoom_calls in *. simpl.
      specialize (IH (zoom_call c s)).
      rewrite !zoom_call_Props in IH. apply IH.
      apply zoom_call_within, H.
  - clear H. revert s. induction cs as [|c cs IH]; intros s.
    + reflexivity.
    + unfold zoom_calls in *. simpl. rewrite IH. apply zoom_call_Props.
  - intros Delta t. unfold ZoomOut. reflexivity.
Qed.

(** The constructed actor (500 <= 1000 <= 5000), zoomed in by 3, out by 100
    and in by a NaN. *)
Lemma zoom_stays_clamped_witness :
  within (of_Z 500) (of_Z 5000)
    (CurrentZoom (zoom_calls [CallZoomIn (of_Z 3); CallZoomOut (of_Z 100);
                              CallZoomIn S754_nan] AMapView_ctor)) = true.
Proof.
  apply (zoom_stays_clamped AMapView_ctor
           [CallZoomIn (of_Z 3); CallZoomOut (of_Z 100); CallZoomIn S754_nan]).
  vm_compute. reflexivity.
Defined.

End Zoom.

(** ** The map view: moving one player *)

Section PlayerLocation.
Import Float32 MapView.

Variable env : Env.
Variable PlayerId : FString.
Variable NewLocation : FVector2D.

Lemma set_Players_same (s : AMapView) : set_Players (Players s) s = s.
Proof. destruct s; reflexivity. Qed.

(** No player carries the id: the loop runs through and changes nothing. *)
Lemma UpdatePlayerLocation_loop_absent markers (ps : list FPlayerData.t) w :
  Forall (fun p => FPlayerData.Id p <> PlayerId) ps ->
  UpdatePlayerLocation_loop env PlayerId NewLocation markers ps w = (ps, w).
Proof.
  induction 1 as [|p ps Hp _ IH]; simpl.
  - reflexivity.
  - destruct (decide (FPlayerData.Id p = PlayerId)) as [E|_]; [contradiction|].
    rewrite IH. reflexivity.
Qed.

(** The loop stops at the first player carrying the id. *)
Lemma UpdatePlayerLocation_loop_first markers
    (before : list FPlayerData.t) p after w :
  Forall (fun q => FPlayerData.Id q <> PlayerId) before ->
  FPlayerData.Id p = PlayerId ->
  UpdatePlayerLocation_loop env PlayerId NewLocation markers
                            (before ++ p :: after) w =
  (before ++ FPlayerData.set_Coordinates NewLocation p :: after,
   match FindRef markers PlayerId with
   | Some Marker =>
       SetActorLocation Marker (LatLongToWorldLocation env NewLocation) w
   | None => w
   end).
Proof.
  intros Hb Hp. induction Hb as [|q before Hq _ IH]; simpl.
  - destruct (decide (FPlayerData.Id p = PlayerId)); [reflexivity|contradiction].
  - destruct (decide (FPlayerData.Id q = PlayerId)) as [E|_]; [contradiction|].
    rewrite IH. reflexivity.
Qed.

(** Either no stored player carries the id, or the array splits at the
    first one that does. *)
Lemma first_with_id (ps : list FPlayerData.t) :
  Forall (fun p => FPlayerData.Id p <> PlayerId) ps \/
  exists before p after,
    ps = before ++ p :: after /\
    Forall (fun q => FPlayerData.Id q <> PlayerId) before /\
    FPlayerData.Id p = PlayerId.
Proof.
  induction ps as [|q ps IH].
  - left. constructor.
  - destruct (decide (FPlayerData.Id q = PlayerId)) as [E|N].
    + right. exists [], q, ps. repeat split; [constructor|exact E].
    + destruct IH as [IH|(before & p & after & -> & Hb & Hp)].
      * left. constructor; assumption.
      * right. exists (q :: before), p, after.
        repeat split; [constructor; assumption|exact Hp].
Qed.

Lemma SetActorLocation_other (m a : ObjId) (l : FVector) (w : World) :
  a <> m -> Actors (SetActorLocation m l w) !! a = Actors w !! a.
Proof. intros H. simpl. apply lookup_alter_ne. congruence. Qed.

Lemma SetActorLocation_marker (m : ObjId) (l : FVector) (w : World) :
  Actors (SetActorLocation m l w) !! m =
  (fun x => mkActor l (Movable x) (StaticMesh x) (Material x) (Tags x))
    <$> Actors w !! m.
Proof. simpl. apply lookup_alter_eq. Qed.

(** C5. [UpdatePlayerLocation] writes nothing of the actor but [Players].
    When no stored player has the id, the actor and the world are as
    before.  Otherwise exactly the first player with the id gets the new
    coordinates, the other entries of [Players] stay, and in the world only
    the actor stored as that player's marker changes, and of it only the
    location, which becomes the world location of the new coordinates;
    components, timers and counters are as before. *)
Theorem UpdatePlayerLocation_frame (s : AMapView) (w : World) :
  let s' := (UpdatePlayerLocation env PlayerId NewLocation s w).1 in
  let w' := (UpdatePlayerLocation env PlayerId NewLocation s w).2 in
  s' = set_Players (Players s') s
  /\ (Forall (fun p => FPlayerData.Id p <> PlayerId) (Players s) ->
      s' = s /\ w' = w)
  /\ (forall before p after,
        Players s = before ++ p :: after ->
        Forall (fun q => FPlayerData.Id q <> PlayerId) before ->
        FPlayerData.Id p = PlayerId ->
        Players s' =
          before ++ FPlayerData.set_Coordinates NewLocation p :: after
        /\ forall m, FindRef (PlayerMarkers s) PlayerId = Some m ->
            Actors w' !! m =
              (fun x => mkActor (LatLongToWorldLocation env NewLocation)
                                (Movable x) (StaticMesh x) (Material x) (Tags x))
                <$> Actors w !! m)
  /\ (forall a, FindRef (PlayerMarkers s) PlayerId <> Some a ->
        Actors w' !! a = Actors w !! a)
  /\ Components w' = Components w /\ Timers w' = Timers w
  /\ NextObject w' = NextObject w /\ NextTimer w' = NextTimer w.
Proof.
  unfold UpdatePlayerLocation.
  destruct (first_with_id (Players s))
    as [Habs|(before & p & after & Hsplit & Hb & Hp)].
  - rewrite (UpdatePlayerLocation_loop_absent _ _ _ Habs). simpl.
    rewrite set_Players_same.
    split; [reflexivity|]. split; [intros _; split; reflexivity|].
    split; [|repeat split; reflexivity].
    intros b q c Hs Hbq Hq. exfalso.
    rewrite Hs in Habs. apply Forall_app in Habs as [_ Habs].
    inversion Habs; subst; contradiction.
  - rewrite Hsplit, (UpdatePlayerLocation_loop_first _ _ _ _ _ Hb Hp). simpl.
    split; [reflexivity|]. split.
    { intros Habs. exfalso.
      apply Forall_app in Habs as [_ Habs]. inversion Habs; subst; contradiction. }
    split.
    { intros b q c Hs Hbq Hq.
      assert (b = before /\ q = p /\ c = after) as (-> & -> & ->).
      { clear - Hs Hb Hp Hbq Hq. revert b Hs Hbq.
        induction Hb as [|x before Hx _ IH]; intros b Hs Hbq.
        - destruct b as [|y b]; simpl in Hs.
          + inversion Hs; subst. auto.
          + inversion Hs; subst. inversion Hbq; subst. contradiction.
        - destruct b as [|y b]; simpl in Hs.
          + inversion Hs; subst. contradiction.
          + inversion Hs; subst. inversion Hbq; subst.
            destruct (IH b H1 H3) as (-> & -> & ->). auto. }
      split; [reflexivity|].
      intros m ->. apply SetActorLocation_marker. }
    destruct (FindRef (PlayerMarkers s) PlayerId) as [m|] eqn:Hm.
    + repeat split; try reflexivity.
      intros a Ha. apply SetActorLocation_other. congruence.
    + repeat split; reflexivity.
Qed.

End PlayerLocation.

(** ** The map view: the marker lifecycle *)

Section MarkerLifecycle.
Import Float32 MapView.

Variable env : Env.

(** *** Destroying the stored markers *)

Lemma DestroyMarker_keeps_NextObject kv w :
  NextObject (DestroyMarker kv w) = NextObject w.
Proof. unfold DestroyMarker. destruct kv.2; reflexivity. Qed.

Lemma DestroyMarker_stays_gone kv w a :
  Actors w !! a = None -> Actors (DestroyMarker kv w) !! a = None.
Proof.
  unfold DestroyMarker. destruct kv.2 as [b|]; simpl; [|auto].
  intros H. rewrite lookup_delete_None. auto.
Qed.

Lemma destroy_all_NextObject (l : list (string * Ptr)) w :
  NextObject (foldr DestroyMarker w l) = NextObject w.
Proof.
  induction l as [|kv l IH]; simpl; [reflexivity|].
  rewrite DestroyMarker_keeps_NextObject. exact IH.
Qed.

Lemma destroy_all_gone (l : list (string * Ptr)) w k a :
  (k, Some a) ∈ l -> Actors (foldr DestroyMarker w l) !! a = None.
Proof.
  induction l as [|kv l IH]; simpl; intros H.
  - inversion H.
  - apply elem_of_cons in H as [<-|H].
    + unfold DestroyMarker. simpl. apply lookup_delete_eq.
    + apply DestroyMarker_stays_gone, IH, H.
Qed.

Lemma DestroyMarkers_NextObject m w :
  NextObject (DestroyMarkers m w) = NextObject w.
Proof. apply destroy_all_NextObject. Qed.

Lemma DestroyMarkers_gone (m : gmap string Ptr) w k a :
  m !! k = Some (Some a) -> Actors (DestroyMarkers m w) !! a = None.
Proof.
  intros H. apply (destroy_all_gone _ w k a).
  apply elem_of_map_to_list. exact H.
Qed.

(** *** The spawning loop, for any kind of marker

    [markers] reads the marker map of the kind, [data] its stored array, and
    [body] is one round of its loop.  [body_spec] is what a round does when
    its spawn succeeds: the actor created is the world's next object, it is
    stored under the element's id, and no other actor is touched. *)

Section Loop.
Context {D : Type}.
Variable Id : D -> FString.
Variable markers : AMapView -> gmap string Ptr.
Variable data : AMapView -> list D.
Variable body : nat -> D -> AMapView -> World -> AMapView * World.

Hypothesis body_spec : forall i d s w,
  markers (body i d s w).1 = <[Id d := Some (NextObject w)]> (markers s)
  /\ data (body i d s w).1 = data s
  /\ (NextObject w < NextObject (body i d s w).2)%nat
  /\ is_Some (Actors (body i d s w).2 !! NextObject w)
  /\ (forall b, b <> NextObject w ->
        Actors (body i d s w).2 !! b = Actors w !! b).

Lemma for_each_cons i d (l : list D) s w :
  for_each body i (d :: l) s w =
  for_each body (S i) l (body i d s w).1 (body i d s w).2.
Proof. simpl. destruct (body i d s w); reflexivity. Qed.

Lemma for_each_spec (l : list D) : forall i s w,
  let r := for_each body i l s w in
  data r.1 = data s
  /\ (NextObject w <= NextObject r.2)%nat
  /\ (forall b, (b < NextObject w)%nat -> Actors r.2 !! b = Actors w !! b)
  /\ (allocated (markers s) w -> allocated (markers r.1) r.2)
  /\ (allocated (markers s) w -> unshared (markers s) -> unshared (markers r.1))
  /\ dom (markers r.1) = list_to_set (Id <$> l) ∪ dom (markers s)
  /\ (forall k a, markers r.1 !! k = Some (Some a) ->
        markers s !! k = Some (Some a) \/
        ((NextObject w <= a)%nat /\ is_Some (Actors r.2 !! a)))
  /\ (forall k, markers r.1 !! k = Some None -> markers s !! k = Some None).
Proof.
  induction l as [|d l IH]; intros i s w.
  - simpl. repeat split; auto. rewrite (left_id_L ∅ (∪)). reflexivity.
  - rewrite for_each_cons.
    destruct (body_spec i d s w) as (Hm & Hd & Hn & Hlive & Hother).
    specialize (IH (S i) (body i d s w).1 (body i d s w).2).
    set (s1 := (body i d s w).1) in *. set (w1 := (body i d s w).2) in *.
    simpl in IH. destruct IH as (IHd & IHn & IHact & IHal & IHun & IHdom & IHnew & IHnull).
    set (r := for_each body (S i) l s1 w1) in *.
    assert (Hal1 : allocated (markers s) w -> allocated (markers s1) w1).
    { intros Hal k a. rewrite Hm, lookup_insert. case_decide.
      - intros [= <-]. exact Hn.
      - intros H1. specialize (Hal k a H1). lia. }
    assert (Hun1 : allocated (markers s) w -> unshared (markers s) ->
                   unshared (markers s1)).
    { intros Hal Hun k1 k2 a. rewrite Hm, !lookup_insert.
      repeat case_decide; subst; try congruence.
      - intros [= <-] H2. specialize (Hal _ _ H2). lia.
      - intros H1 [= <-]. specialize (Hal _ _ H1). lia.
      - apply Hun. }
    simpl. split; [congruence|]. split; [lia|]. split.
    { intros b Hb. rewrite IHact by lia. apply Hother. lia. }
    split; [auto|]. split; [auto|]. split.
    { rewrite IHdom, Hm, dom_insert_L. simpl.
      rewrite (assoc_L (∪)), (comm_L (∪) (list_to_set _) {[Id d]}). reflexivity. }
    split.
    { intros k a H. destruct (IHnew k a H) as [H1|[H1 H2]].
      - rewrite Hm, lookup_insert in H1. case_decide.
        + injection H1 as <-. right. split; [lia|].
          rewrite IHact by lia. exact Hlive.
        + left. exact H1.
      - right. split; [lia|exact H2]. }
    intros k H. specialize (IHnull k H).
    rewrite Hm, lookup_insert in IHnull. case_decide; [discriminate|exact IHnull].
Qed.

(** Started on an empty map with pairwise distinct ids, the loop leaves
    one fresh live actor per element. *)
Lemma for_each_fills (l : list D) i s w :
  markers s = ∅ -> NoDup (Id <$> l) ->
  let r := for_each body i l s w in
  dom (markers r.1) = list_to_set (Id <$> l)
  /\ (forall d, d ∈ l ->
       exists a, markers r.1 !! Id d = Some (Some a) /\
                 (NextObject w <= a)%nat /\ is_Some (Actors r.2 !! a))
  /\ (forall k, markers r.1 !! k <> Some None)
  /\ unshared (markers r.1)
  /\ size (markers r.1) = length l.
Proof.
  intros He Hnd.
  destruct (for_each_spec l i s w)
    as (_ & _ & _ & _ & Hun & Hdom & Hnew & Hnull).
  simpl. rewrite He in *. rewrite dom_empty_L, (right_id_L ∅ (∪)) in Hdom.
  split; [exact Hdom|]. split.
  { intros d Hd.
    assert (Hk : Id d ∈ dom (markers (for_each body i l s w).1)).
    { rewrite Hdom. apply elem_of_list_to_set, list_elem_of_fmap. eauto. }
    apply elem_of_dom in Hk as [[a|] Hk].
    - exists a. split; [exact Hk|].
      destruct (Hnew _ _ Hk) as [H|H]; [rewrite lookup_empty in H; discriminate|exact H].
    - apply Hnull in Hk. rewrite lookup_empty in Hk. discriminate. }
  split.
  { intros k Hk. apply Hnull in Hk. rewrite lookup_empty in Hk. discriminate. }
  split.
  { apply Hun.
    - intros k a. rewrite lookup_empty. discriminate.
    - intros k1 k2 a. rewrite lookup_empty. discriminate. }
  rewrite <- size_dom, Hdom, size_list_to_set by exact Hnd.
  apply length_fmap.
Qed.

End Loop.

(** *** The three loop bodies, in a round whose spawn succeeds *)

Ltac actor_lookups :=
  simpl;
  repeat first
    [ rewrite lookup_alter_eq
    | rewrite lookup_alter_ne by congruence
    | rewrite lookup_insert_eq
    | rewrite lookup_insert_ne by congruence ];
  simpl; try reflexivity; try (eexists; reflexivity); try lia.

Lemma SpawnVenueMarker_spec i d s w :
  SpawnSucceeds env (NextObject w) = true ->
  VenueMarkers (SpawnVenueMarker env i d s w).1 =
    <[FVenueData.Id d := Some (NextObject w)]> (VenueMarkers s)
  /\ Venues (SpawnVenueMarker env i d s w).1 = Venues s
  /\ (NextObject w < NextObject (SpawnVenueMarker env i d s w).2)%nat
  /\ is_Some (Actors (SpawnVenueMarker env i d s w).2 !! NextObject w)
  /\ (forall b, b <> NextObject w ->
        Actors (SpawnVenueMarker env i d s w).2 !! b = Actors w !! b).
Proof.
  intros Hok. unfold SpawnVenueMarker, SpawnActor. rewrite Hok.
  destruct (nonnull _); repeat split; try intros b Hb; actor_lookups.
Qed.

Lemma AddTooltip_spec k a s w :
  Props (AddTooltip k a s w).1 = Props s
  /\ Venues (AddTooltip k a s w).1 = Venues s
  /\ Players (AddTooltip k a s w).1 = Players s
  /\ Events (AddTooltip k a s w).1 = Events s
  /\ PlayerMarkers (AddTooltip k a s w).1 = PlayerMarkers s
  /\ EventMarkers (AddTooltip k a s w).1 = EventMarkers s
  /\ Actors (AddTooltip k a s w).2 = Actors w
  /\ (NextObject w <= NextObject (AddTooltip k a s w).2)%nat.
Proof.
  unfold AddTooltip. destruct (nonnull _); simpl; repeat split; lia.
Qed.

Lemma StartFadeAnimation_spec k s w :
  Players (StartFadeAnimation k s w).1 = Players s
  /\ PlayerMarkers (StartFadeAnimation k s w).1 = PlayerMarkers s
  /\ Actors (StartFadeAnimation k s w).2 = Actors w
  /\ NextObject (StartFadeAnimation k s w).2 = NextObject w.
Proof.
  unfold StartFadeAnimation. destruct (negb _); simpl; repeat split.
Qed.

Lemma StartPulseAnimation_spec k s w :
  Events (StartPulseAnimation k s w).1 = Events s
  /\ EventMarkers (StartPulseAnimation k s w).1 = EventMarkers s
  /\ Actors (StartPulseAnimation k s w).2 = Actors w
  /\ NextObject (StartPulseAnimation k s w).2 = NextObject w.
Proof.
  unfold StartPulseAnimation. destruct (negb _); simpl; repeat split.
Qed.

Ltac with_tooltip :=
  match goal with
  | |- context [AddTooltip ?k ?a ?s ?w] =>
      let Hp := fresh "Hp" in let He := fresh "He" in
      let Hpm := fresh "Hpm" in let Hem := fresh "Hem" in
      let Ha := fresh "Ha" in let Hn := fresh "Hn" in
      destruct (AddTooltip_spec k a s w) as (_ & _ & Hp & He & Hpm & Hem & Ha & Hn);
      destruct (AddTooltip k a s w);
      simpl in Hp, He, Hpm, Hem, Ha, Hn
  end.

Lemma SpawnPlayerMarker_spec i d s w :
  SpawnSucceeds env (NextObject w) = true ->
  PlayerMarkers (SpawnPlayerMarker env i d s w).1 =
    <[FPlayerData.Id d := Some (NextObject w)]> (PlayerMarkers s)
  /\ Players (SpawnPlayerMarker env i d s w).1 = Players s
  /\ (NextObject w < NextObject (SpawnPlayerMarker env i d s w).2)%nat
  /\ is_Some (Actors (SpawnPlayerMarker env i d s w).2 !! NextObject w)
  /\ (forall b, b <> NextObject w ->
        Actors (SpawnPlayerMarker env i d s w).2 !! b = Actors w !! b).
Proof.
  intros Hok. unfold SpawnPlayerMarker, SpawnActor. rewrite Hok.
  destruct (decide (FPlayerData.Status d = "active")).
  - destruct (nonnull _); with_tooltip; simpl; rewrite Hpm, Hp, Ha;
      repeat split; try intros b Hb; actor_lookups.
  - destruct (nonnull _); with_tooltip;
      match goal with
      | |- context [StartFadeAnimation ?k ?s ?w] =>
          destruct (StartFadeAnimation_spec k s w) as (Hp' & Hm' & Ha' & Hn');
          destruct (StartFadeAnimation k s w)
      end;
      simpl in *; rewrite Hm', Hp', Ha', Hn', Hpm, Hp, Ha;
      repeat split; try intros b Hb; actor_lookups.
Qed.

Lemma SpawnEventMarker_spec i d s w :
  SpawnSucceeds env (NextObject w) = true ->
  EventMarkers (SpawnEventMarker env i d s w).1 =
    <[FEventData.Id d := Some (NextObject w)]> (EventMarkers s)
  /\ Events (SpawnEventMarker env i d s w).1 = Events s
  /\ (NextObject w < NextObject (SpawnEventMarker env i d s w).2)%nat
  /\ is_Some (Actors (SpawnEventMarker env i d s w).2 !! NextObject w)
  /\ (forall b, b <> NextObject w ->
        Actors (SpawnEventMarker env i d s w).2 !! b = Actors w !! b).
Proof.
  intros Hok. unfold SpawnEventMarker, SpawnActor. rewrite Hok.
  destruct (decide (FEventData.Status d = "active")).
  - destruct (nonnull _); with_tooltip;
      match goal with
      | |- context [StartPulseAnimation ?k ?s ?w] =>
          destruct (StartPulseAnimation_spec k s w) as (Hp' & Hm' & Ha' & Hn');
          destruct (StartPulseAnimation k s w)
      end;
      simpl in *; rewrite Hm', Hp', Ha', Hn', Hem, He, Ha;
      repeat split; try intros b Hb; actor_lookups.
  - destruct (nonnull _); with_tooltip; simpl; rewrite Hem, He, Ha;
      repeat split; try intros b Hb; actor_lookups.
Qed.

(** The actor spawned for an event sits where [EventMarkerLocation] says:
    none of the later calls on it moves it. *)
Lemma SpawnEventMarker_location i d s w :
  SpawnSucceeds env (NextObject w) = true ->
  ActorLocation <$> Actors (SpawnEventMarker env i d s w).2 !! NextObject w =
  Some (EventMarkerLocation env i d s).
Proof.
  intros Hok. unfold SpawnEventMarker, SpawnActor. rewrite Hok.
  destruct (decide (FEventData.Status d = "active")).
  - destruct (nonnull _); with_tooltip;
      match goal with
      | |- context [StartPulseAnimation ?k ?s ?w] =>
          destruct (StartPulseAnimation_spec k s w) as (Hp' & Hm' & Ha' & Hn');
          destruct (StartPulseAnimation k s w)
      end;
      simpl in *; rewrite Ha', Ha; actor_lookups.
  - destruct (nonnull _); with_tooltip; simpl; rewrite Ha; actor_lookups.
Qed.

(** *** What every round does, whether its spawn succeeds or not *)

Section LoopFrame.
Context {D : Type}.
Variable markers : AMapView -> gmap string Ptr.
Variable data : AMapView -> list D.
Variable body : nat -> D -> AMapView -> World -> AMapView * World.

Lemma round_frame_of_spec (Id : D -> FString) i d s w :
  markers (body i d s w).1 = <[Id d := Some (NextObject w)]> (markers s)
  /\ data (body i d s w).1 = data s
  /\ (NextObject w < NextObject (body i d s w).2)%nat
  /\ is_Some (Actors (body i d s w).2 !! NextObject w)
  /\ (forall b, b <> NextObject w ->
        Actors (body i d s w).2 !! b = Actors w !! b) ->
  round_frame markers data body i d s w.
Proof.
  intros (Hm & Hd & Hn & _ & Ho). unfold round_frame.
  split; [exact Hd|]. split; [lia|]. split.
  - intros b Hb. apply Ho. lia.
  - intros k a. rewrite Hm, lookup_insert. case_decide.
    + intros [= <-]. right. lia.
    + auto.
Qed.

Hypothesis body_frame : forall i d s w, round_frame markers data body i d s w.

Lemma for_each_frame (l : list D) : forall i s w,
  data (for_each body i l s w).1 = data s
  /\ (NextObject w <= NextObject (for_each body i l s w).2)%nat
  /\ (forall b, (b < NextObject w)%nat ->
        Actors (for_each body i l s w).2 !! b = Actors w !! b)
  /\ (forall k a, markers (for_each body i l s w).1 !! k = Some (Some a) ->
        markers s !! k = Some (Some a) \/
        (NextObject w <= a < NextObject (for_each body i l s w).2)%nat).
Proof.
  induction l as [|d l IH]; intros i s w.
  - simpl. repeat split; auto.
  - rewrite for_each_cons.
    destruct (body_frame i d s w) as (Hd & Hn & Ha & Hm).
    destruct (IH (S i) (body i d s w).1 (body i d s w).2)
      as (IHd & IHn & IHa & IHm).
    split; [congruence|]. split; [lia|]. split.
    + intros b Hb. rewrite IHa by lia. apply Ha, Hb.
    + intros k a H. destruct (IHm k a H) as [H1|H1].
      * destruct (Hm k a H1) as [H2|H2]; [left; exact H2|right; lia].
      * right. lia.
Qed.

End LoopFrame.

Lemma SpawnVenueMarker_frame i d s w :
  round_frame VenueMarkers Venues (SpawnVenueMarker env) i d s w.
Proof.
  destruct (SpawnSucceeds env (NextObject w)) eqn:Hok.
  - exact (round_frame_of_spec _ _ _ FVenueData.Id i d s w
             (SpawnVenueMarker_spec i d s w Hok)).
  - unfold round_frame, SpawnVenueMarker, SpawnActor. rewrite Hok. simpl.
    repeat split; auto.
Qed.

Lemma SpawnPlayerMarker_frame i d s w :
  round_frame PlayerMarkers Players (SpawnPlayerMarker env) i d s w.
Proof.
  destruct (SpawnSucceeds env (NextObject w)) eqn:Hok.
  - exact (round_frame_of_spec _ _ _ FPlayerData.Id i d s w
             (SpawnPlayerMarker_spec i d s w Hok)).
  - unfold round_frame, SpawnPlayerMarker, SpawnActor. rewrite Hok. simpl.
    repeat split; auto.
Qed.

Lemma SpawnEventMarker_frame i d s w :
  round_frame EventMarkers Events (SpawnEventMarker env) i d s w.
Proof.
  destruct (SpawnSucceeds env (NextObject w)) eqn:Hok.
  - exact (round_frame_of_spec _ _ _ FEventData.Id i d s w
             (SpawnEventMarker_spec i d s w Hok)).
  - unfold round_frame, SpawnEventMarker, SpawnActor. rewrite Hok. simpl.
    repeat split; auto.
Qed.

(** *** The three update functions, whatever the mesh and the spawns *)

Lemma UpdateVenues_clears (NewVenues : list FVenueData.t) s w :
  allocated (VenueMarkers s) w ->
  Cleared NewVenues (VenueMarkers s) w
    (Venues (UpdateVenues env NewVenues s w).1)
    (VenueMarkers (UpdateVenues env NewVenues s w).1)
    (UpdateVenues env NewVenues s w).2
  /\ (nonnull (DefaultVenueMarker (Props s)) = false ->
      VenueMarkers (UpdateVenues env NewVenues s w).1 = ∅).
Proof.
  intros Hal. unfold UpdateVenues, SpawnVenueMarkers. simpl.
  set (s2 := set_Venues NewVenues (set_VenueMarkers ∅ s)).
  set (w1 := DestroyMarkers (VenueMarkers s) w).
  assert (Hn1 : NextObject w1 = NextObject w) by apply DestroyMarkers_NextObject.
  assert (Hgone : forall k a, VenueMarkers s !! k = Some (Some a) ->
                              Actors w1 !! a = None).
  { intros k a Hk. exact (DestroyMarkers_gone _ _ _ _ Hk). }
  destruct (nonnull (DefaultVenueMarker (Props s))); simpl.
  - destruct (for_each_frame VenueMarkers Venues (SpawnVenueMarker env)
                SpawnVenueMarker_frame NewVenues 0%nat s2 w1)
      as (Hd & _ & Ha & Hm).
    split; [|discriminate]. split; [exact Hd|]. split.
    + intros k a Hk. rewrite Ha; [eauto|]. rewrite Hn1. eauto.
    + intros k a Hk. destruct (Hm k a Hk) as [H|H]; [|lia].
      simpl in H. rewrite lookup_empty in H. discriminate.
  - split; [|reflexivity]. split; [reflexivity|]. split; [exact Hgone|].
    intros k a Hk. rewrite lookup_empty in Hk. discriminate.
Qed.

Lemma UpdatePlayers_clears (NewPlayers : list FPlayerData.t) s w :
  allocated (PlayerMarkers s) w ->
  Cleared NewPlayers (PlayerMarkers s) w
    (Players (UpdatePlayers env NewPlayers s w).1)
    (PlayerMarkers (UpdatePlayers env NewPlayers s w).1)
    (UpdatePlayers env NewPlayers s w).2
  /\ (nonnull (PlayerMarkerMesh (Props s)) = false ->
      PlayerMarkers (UpdatePlayers env NewPlayers s w).1 = ∅).
Proof.
  intros Hal. unfold UpdatePlayers, SpawnPlayerMarkers. simpl.
  set (s2 := set_Players NewPlayers (set_PlayerMarkers ∅ s)).
  set (w1 := DestroyMarkers (PlayerMarkers s) w).
  assert (Hn1 : NextObject w1 = NextObject w) by apply DestroyMarkers_NextObject.
  assert (Hgone : forall k a, PlayerMarkers s !! k = Some (Some a) ->
                              Actors w1 !! a = None).
  { intros k a Hk. exact (DestroyMarkers_gone _ _ _ _ Hk). }
  destruct (nonnull (PlayerMarkerMesh (Props s))); simpl.
  - destruct (for_each_frame PlayerMarkers Players (SpawnPlayerMarker env)
                SpawnPlayerMarker_frame NewPlayers 0%nat s2 w1)
      as (Hd & _ & Ha & Hm).
    split; [|discriminate]. split; [exact Hd|]. split.
    + intros k a Hk. rewrite Ha; [eauto|]. rewrite Hn1. eauto.
    + intros k a Hk. destruct (Hm k a Hk) as [H|H]; [|lia].
      simpl in H. rewrite lookup_empty in H. discriminate.
  - split; [|reflexivity]. split; [reflexivity|]. split; [exact Hgone|].
    intros k a Hk. rewrite lookup_empty in Hk. discriminate.
Qed.

Lemma UpdateEvents_clears (NewEvents : list FEventData.t) s w :
  allocated (EventMarkers s) w ->
  Cleared NewEvents (EventMarkers s) w
    (Events (UpdateEvents env NewEvents s w).1)
    (EventMarkers (UpdateEvents env NewEvents s w).1)
    (UpdateEvents env NewEvents s w).2
  /\ (nonnull (EventMarkerMesh (Props s)) = false ->
      EventMarkers (UpdateEvents env NewEvents s w).1 = ∅).
Proof.
  intros Hal. unfold UpdateEvents, SpawnEventMarkers. simpl.
  set (s2 := set_Events NewEvents (set_EventMarkers ∅ s)).
  set (w1 := DestroyMarkers (EventMarkers s) w).
  assert (Hn1 : NextObject w1 = NextObject w) by apply DestroyMarkers_NextObject.
  assert (Hgone : forall k a, EventMarkers s !! k = Some (Some a) ->
                              Actors w1 !! a = None).
  { intros k a Hk. exact (DestroyMarkers_gone _ _ _ _ Hk). }
  destruct (nonnull (EventMarkerMesh (Props s))); simpl.
  - destruct (for_each_frame EventMarkers Events (SpawnEventMarker env)
                SpawnEventMarker_frame NewEvents 0%nat s2 w1)
      as (Hd & _ & Ha & Hm).
    split; [|discriminate]. split; [exact Hd|]. split.
    + intros k a Hk. rewrite Ha; [eauto|]. rewrite Hn1. eauto.
    + intros k a Hk. destruct (Hm k a Hk) as [H|H]; [|lia].
      simpl in H. rewrite lookup_empty in H. discriminate.
  - split; [|reflexivity]. split; [reflexivity|]. split; [exact Hgone|].
    intros k a Hk. rewrite lookup_empty in Hk. discriminate.
Qed.

(** *** The assumption on stored markers is an invariant

    It holds of the constructed actor, whose maps are empty, and each of
    the three update functions keeps it. *)

Lemma allocated_mono (m : gmap string Ptr) w w' :
  allocated m w -> (NextObject w <= NextObject w')%nat -> allocated m w'.
Proof. intros H Hn k a Hk. specialize (H k a Hk). lia. Qed.

Lemma allocated_empty w : allocated ∅ w.
Proof. intros k a H. rewrite lookup_empty in H. discriminate. Qed.

Lemma for_each_preserves {D X : Type} (f : AMapView -> X)
    (body : nat -> D -> AMapView -> World -> AMapView * World) :
  (forall i d s w, f (body i d s w).1 = f s) ->
  forall (l : list D) i s w, f (for_each body i l s w).1 = f s.
Proof.
  intros Hb l. induction l as [|d l IH]; intros i s w; [reflexivity|].
  rewrite for_each_cons, IH. apply Hb.
Qed.

Lemma AddTooltip_markers k a s w :
  VenueMarkers (AddTooltip k a s w).1 = VenueMarkers s
  /\ PlayerMarkers (AddTooltip k a s w).1 = PlayerMarkers s
  /\ EventMarkers (AddTooltip k a s w).1 = EventMarkers s.
Proof. unfold AddTooltip. destruct (nonnull _); repeat split. Qed.

Lemma StartFadeAnimation_markers k s w :
  VenueMarkers (StartFadeAnimation k s w).1 = VenueMarkers s
  /\ PlayerMarkers (StartFadeAnimation k s w).1 = PlayerMarkers s
  /\ EventMarkers (StartFadeAnimation k s w).1 = EventMarkers s.
Proof. unfold StartFadeAnimation. destruct (negb _); repeat split. Qed.

Lemma StartPulseAnimation_markers k s w :
  VenueMarkers (StartPulseAnimation k s w).1 = VenueMarkers s
  /\ PlayerMarkers (StartPulseAnimation k s w).1 = PlayerMarkers s
  /\ EventMarkers (StartPulseAnimation k s w).1 = EventMarkers s.
Proof. unfold StartPulseAnimation. destruct (negb _); repeat split. Qed.

Lemma SpawnVenueMarker_others i d s w :
  PlayerMarkers (SpawnVenueMarker env i d s w).1 = PlayerMarkers s
  /\ EventMarkers (SpawnVenueMarker env i d s w).1 = EventMarkers s.
Proof.
  unfold SpawnVenueMarker, SpawnActor.
  destruct (SpawnSucceeds env _); split; reflexivity.
Qed.

Lemma SpawnPlayerMarker_others i d s w :
  VenueMarkers (SpawnPlayerMarker env i d s w).1 = VenueMarkers s
  /\ EventMarkers (SpawnPlayerMarker env i d s w).1 = EventMarkers s.
Proof.
  unfold SpawnPlayerMarker, SpawnActor.
  destruct (SpawnSucceeds env _); [|split; reflexivity].
  match goal with
  | |- context [AddTooltip ?k ?a ?s ?w] =>
      destruct (AddTooltip_markers k a s w) as (Hv & _ & He);
      destruct (AddTooltip k a s w) as [s1 w5]
  end.
  simpl in Hv, He. destruct (decide _).
  - simpl. auto.
  - match goal with
    | |- context [StartFadeAnimation ?k ?s ?w] =>
        destruct (StartFadeAnimation_markers k s w) as (Hv' & _ & He')
    end.
    rewrite Hv', He'. simpl. auto.
Qed.

Lemma SpawnEventMarker_others i d s w :
  VenueMarkers (SpawnEventMarker env i d s w).1 = VenueMarkers s
  /\ PlayerMarkers (SpawnEventMarker env i d s w).1 = PlayerMarkers s.
Proof.
  unfold SpawnEventMarker, SpawnActor.
  destruct (SpawnSucceeds env _); [|split; reflexivity].
  match goal with
  | |- context [AddTooltip ?k ?a ?s ?w] =>
      destruct (AddTooltip_markers k a s w) as (Hv & Hp & _);
      destruct (AddTooltip k a s w) as [s1 w5]
  end.
  simpl in Hv, Hp. destruct (decide _).
  - match goal with
    | |- context [StartPulseAnimation ?k ?s ?w] =>
        destruct (StartPulseAnimation_markers k s w) as (Hv' & Hp' & _)
    end.
    rewrite Hv', Hp'. simpl. auto.
  - simpl. auto.
Qed.

Lemma AMapView_ctor_allocated w : markers_allocated AMapView_ctor w.
Proof. repeat split; apply allocated_empty. Qed.

Lemma UpdateVenues_keeps_allocated NewVenues s w :
  markers_allocated s w ->
  markers_allocated (UpdateVenues env NewVenues s w).1
                    (UpdateVenues env NewVenues s w).2.
Proof.
  intros (_ & Hp & He). unfold UpdateVenues, SpawnVenueMarkers. simpl.
  set (s2 := set_Venues NewVenues (set_VenueMarkers ∅ s)).
  set (w1 := DestroyMarkers (VenueMarkers s) w).
  assert (Hn1 : NextObject w1 = NextObject w) by apply DestroyMarkers_NextObject.
  destruct (negb _).
  - repeat split; simpl.
    + apply allocated_empty.
    + apply (allocated_mono _ w); [exact Hp|lia].
    + apply (allocated_mono _ w); [exact He|lia].
  - destruct (for_each_frame VenueMarkers Venues (SpawnVenueMarker env)
                SpawnVenueMarker_frame NewVenues 0%nat s2 w1)
      as (_ & Hn & _ & Hm).
    assert (Hal : allocated (VenueMarkers (for_each (SpawnVenueMarker env) 0 NewVenues s2 w1).1)
                            (for_each (SpawnVenueMarker env) 0 NewVenues s2 w1).2).
    { intros k a Hk. destruct (Hm k a Hk) as [H|H]; [|lia].
      simpl in H. rewrite lookup_empty in H. discriminate. }
    repeat split.
    + exact Hal.
    + rewrite (for_each_preserves PlayerMarkers _
                 (fun i d s w => proj1 (SpawnVenueMarker_others i d s w))).
      apply (allocated_mono _ w); [exact Hp|lia].
    + rewrite (for_each_preserves EventMarkers _
                 (fun i d s w => proj2 (SpawnVenueMarker_others i d s w))).
      apply (allocated_mono _ w); [exact He|lia].
Qed.

Lemma UpdatePlayers_keeps_allocated NewPlayers s w :
  markers_allocated s w ->
  markers_allocated (UpdatePlayers env NewPlayers s w).1
                    (UpdatePlayers env NewPlayers s w).2.
Proof.
  intros (Hv & _ & He). unfold UpdatePlayers, SpawnPlayerMarkers. simpl.
  set (s2 := set_Players NewPlayers (set_PlayerMarkers ∅ s)).
  set (w1 := DestroyMarkers (PlayerMarkers s) w).
  assert (Hn1 : NextObject w1 = NextObject w) by apply DestroyMarkers_NextObject.
  destruct (negb _).
  - repeat split; simpl.
    + apply (allocated_mono _ w); [exact Hv|lia].
    + apply allocated_empty.
    + apply (allocated_mono _ w); [exact He|lia].
  - destruct (for_each_frame PlayerMarkers Players (SpawnPlayerMarker env)
                SpawnPlayerMarker_frame NewPlayers 0%nat s2 w1)
      as (_ & Hn & _ & Hm).
    assert (Hal : allocated (PlayerMarkers (for_each (SpawnPlayerMarker env) 0 NewPlayers s2 w1).1)
                            (for_each (SpawnPlayerMarker env) 0 NewPlayers s2 w1).2).
    { intros k a Hk. destruct (Hm k a Hk) as [H|H]; [|lia].
      simpl in H. rewrite lookup_empty in H. discriminate. }
    repeat split.
    + rewrite (for_each_preserves VenueMarkers _
                 (fun i d s w => proj1 (SpawnPlayerMarker_others i d s w))).
      apply (allocated_mono _ w); [exact Hv|lia].
    + exact Hal.
    + rewrite (for_each_preserves EventMarkers _
                 (fun i d s w => proj2 (SpawnPlayerMarker_others i d s w))).
      apply (allocated_mono _ w); [exact He|lia].
Qed.

Lemma UpdateEvents_keeps_allocated NewEvents s w :
  markers_allocated s w ->
  markers_allocated (UpdateEvents env NewEvents s w).1
                    (UpdateEvents env NewEvents s w).2.
Proof.
  intros (Hv & Hp & _). unfold UpdateEvents, SpawnEventMarkers. simpl.
  set (s2 := set_Events NewEvents (set_EventMarkers ∅ s)).
  set (w1 := DestroyMarkers (EventMarkers s) w).
  assert (Hn1 : NextObject w1 = NextObject w) by apply DestroyMarkers_NextObject.
  destruct (negb _).
  - repeat split; simpl.
    + apply (allocated_mono _ w); [exact Hv|lia].
    + apply (allocated_mono _ w); [exact Hp|lia].
    + apply allocated_empty.
  - destruct (for_each_frame EventMarkers Events (SpawnEventMarker env)
                SpawnEventMarker_frame NewEvents 0%nat s2 w1)
      as (_ & Hn & _ & Hm).
    assert (Hal : allocated (EventMarkers (for_each (SpawnEventMarker env) 0 NewEvents s2 w1).1)
                            (for_each (SpawnEventMarker env) 0 NewEvents s2 w1).2).
    { intros k a Hk. destruct (Hm k a Hk) as [H|H]; [|lia].
      simpl in H. rewrite lookup_empty in H. discriminate. }
    repeat split.
    + rewrite (for_each_preserves VenueMarkers _
                 (fun i d s w => proj1 (SpawnEventMarker_others i d s w))).
      apply (allocated_mono _ w); [exact Hv|lia].
    + rewrite (for_each_preserves PlayerMarkers _
                 (fun i d s w => proj2 (SpawnEventMarker_others i d s w))).
      apply (allocated_mono _ w); [exact Hp|lia].
    + exact Hal.
Qed.

(** *** The three update functions, when every spawn succeeds *)

Section SpawnsSucceed.

Hypothesis spawn_ok : forall n, SpawnSucceeds env n = true.


Lemma UpdateVenues_replaces (NewVenues : list FVenueData.t) s w :
  allocated (VenueMarkers s) w ->
  nonnull (DefaultVenueMarker (Props s)) = true ->
  NoDup (FVenueData.Id <$> NewVenues) ->
  FullReplacement FVenueData.Id NewVenues (VenueMarkers s) w
    (Venues (UpdateVenues env NewVenues s w).1)
    (VenueMarkers (UpdateVenues env NewVenues s w).1)
    (UpdateVenues env NewVenues s w).2.
Proof.
  intros Hal Hmesh Hnd. unfold UpdateVenues, SpawnVenueMarkers. simpl.
  rewrite Hmesh. simpl.
  set (s2 := set_Venues NewVenues (set_VenueMarkers ∅ s)).
  set (w1 := DestroyMarkers (VenueMarkers s) w).
  destruct (for_each_spec FVenueData.Id VenueMarkers Venues
              (SpawnVenueMarker env)
              (fun i d s w => SpawnVenueMarker_spec i d s w (spawn_ok _))
              NewVenues 0%nat s2 w1)
    as (Hd & _ & Hact & _).
  destruct (for_each_fills FVenueData.Id VenueMarkers Venues
              (SpawnVenueMarker env)
              (fun i d s w => SpawnVenueMarker_spec i d s w (spawn_ok _))
              NewVenues 0%nat s2 w1
              eq_refl Hnd)
    as (Hdom & Hel & Hnull & Hun & Hsize).
  unfold w1 in Hel, Hact. rewrite DestroyMarkers_NextObject in Hel, Hact.
  split; [exact Hd|]. split.
  { intros k a Hk. rewrite Hact by exact (Hal k a Hk).
    exact (DestroyMarkers_gone _ _ _ _ Hk). }
  repeat split; assumption.
Qed.

Lemma UpdatePlayers_replaces (NewPlayers : list FPlayerData.t) s w :
  allocated (PlayerMarkers s) w ->
  nonnull (PlayerMarkerMesh (Props s)) = true ->
  NoDup (FPlayerData.Id <$> NewPlayers) ->
  FullReplacement FPlayerData.Id NewPlayers (PlayerMarkers s) w
    (Players (UpdatePlayers env NewPlayers s w).1)
    (PlayerMarkers (UpdatePlayers env NewPlayers s w).1)
    (UpdatePlayers env NewPlayers s w).2.
Proof.
  intros Hal Hmesh Hnd. unfold UpdatePlayers, SpawnPlayerMarkers. simpl.
  rewrite Hmesh. simpl.
  set (s2 := set_Players NewPlayers (set_PlayerMarkers ∅ s)).
  set (w1 := DestroyMarkers (PlayerMarkers s) w).
  destruct (for_each_spec FPlayerData.Id PlayerMarkers Players
              (SpawnPlayerMarker env)
              (fun i d s w => SpawnPlayerMarker_spec i d s w (spawn_ok _))
              NewPlayers 0%nat s2 w1)
    as (Hd & _ & Hact & _).
  destruct (for_each_fills FPlayerData.Id PlayerMarkers Players
              (SpawnPlayerMarker env)
              (fun i d s w => SpawnPlayerMarker_spec i d s w (spawn_ok _))
              NewPlayers 0%nat s2 w1
              eq_refl Hnd)
    as (Hdom & Hel & Hnull & Hun & Hsize).
  unfold w1 in Hel, Hact. rewrite DestroyMarkers_NextObject in Hel, Hact.
  split; [exact Hd|]. split.
  { intros k a Hk. rewrite Hact by exact (Hal k a Hk).
    exact (DestroyMarkers_gone _ _ _ _ Hk). }
  repeat split; assumption.
Qed.

Lemma UpdateEvents_replaces (NewEvents : list FEventData.t) s w :
  allocated (EventMarkers s) w ->
  nonnull (EventMarkerMesh (Props s)) = true ->
  NoDup (FEventData.Id <$> NewEvents) ->
  FullReplacement FEventData.Id NewEvents (EventMarkers s) w
    (Events (UpdateEvents env NewEvents s w).1)
    (EventMarkers (UpdateEvents env NewEvents s w).1)
    (UpdateEvents env NewEvents s w).2.
Proof.
  intros Hal Hmesh Hnd. unfold UpdateEvents, SpawnEventMarkers. simpl.
  rewrite Hmesh. simpl.
  set (s2 := set_Events NewEvents (set_EventMarkers ∅ s)).
  set (w1 := DestroyMarkers (EventMarkers s) w).
  destruct (for_each_spec FEventData.Id EventMarkers Events
              (SpawnEventMarker env)
              (fun i d s w => SpawnEventMarker_spec i d s w (spawn_ok _))
              NewEvents 0%nat s2 w1)
    as (Hd & _ & Hact & _).
  destruct (for_each_fills FEventData.Id EventMarkers Events
              (SpawnEventMarker env)
              (fun i d s w => SpawnEventMarker_spec i d s w (spawn_ok _))
              NewEvents 0%nat s2 w1
              eq_refl Hnd)
    as (Hdom & Hel & Hnull & Hun & Hsize).
  unfold w1 in Hel, Hact. rewrite DestroyMarkers_NextObject in Hel, Hact.
  split; [exact Hd|]. split.
  { intros k a Hk. rewrite Hact by exact (Hal k a Hk).
    exact (DestroyMarkers_gone _ _ _ _ Hk). }
  repeat split; assumption.
Qed.

End SpawnsSucceed.

(** C3. Full replacement, for each of the three kinds.  Assume the stored
    markers are objects of the world (which holds of the constructed actor
    and is kept by the three functions, see above).  Then a call of
    [UpdateVenues] (of [UpdatePlayers], of [UpdateEvents]) stores the array
    passed in, leaves no marker of the kind stored before in the level and
    none in the map.  If moreover the mesh of the kind is set, every spawn
    succeeds and the ids of the array are pairwise distinct, the call
    stores under each id of the array, and under nothing else, one live
    actor that it created, different ids getting different actors. *)
Theorem marker_lifecycle_full_replacement (s : AMapView) (w : World) :
  markers_allocated s w ->
  (forall NewVenues,
     Cleared NewVenues (VenueMarkers s) w
       (Venues (UpdateVenues env NewVenues s w).1)
       (VenueMarkers (UpdateVenues env NewVenues s w).1)
       (UpdateVenues env NewVenues s w).2
     /\ ((forall n, SpawnSucceeds env n = true) ->
         nonnull (DefaultVenueMarker (Props s)) = true ->
         NoDup (FVenueData.Id <$> NewVenues) ->
         FullReplacement FVenueData.Id NewVenues (VenueMarkers s) w
           (Venues (UpdateVenues env NewVenues s w).1)
           (VenueMarkers (UpdateVenues env NewVenues s w).1)
           (UpdateVenues env NewVenues s w).2))
  /\ (forall NewPlayers,
     Cleared NewPlayers (PlayerMarkers s) w
       (Players (UpdatePlayers env NewPlayers s w).1)
       (PlayerMarkers (UpdatePlayers env NewPlayers s w).1)
       (UpdatePlayers env NewPlayers s w).2
     /\ ((forall n, SpawnSucceeds env n = true) ->
         nonnull (PlayerMarkerMesh (Props s)) = true ->
         NoDup (FPlayerData.Id <$> NewPlayers) ->
         FullReplacement FPlayerData.Id NewPlayers (PlayerMarkers s) w
           (Players (UpdatePlayers env NewPlayers s w).1)
           (PlayerMarkers (UpdatePlayers env NewPlayers s w).1)
           (UpdatePlayers env NewPlayers s w).2))
  /\ (forall NewEvents,
     Cleared NewEvents (EventMarkers s) w
       (Events (UpdateEvents env NewEvents s w).1)
       (EventMarkers (UpdateEvents env NewEvents s w).1)
       (UpdateEvents env NewEvents s w).2
     /\ ((forall n, SpawnSucceeds env n = true) ->
         nonnull (EventMarkerMesh (Props s)) = true ->
         NoDup (FEventData.Id <$> NewEvents) ->
         FullReplacement FEventData.Id NewEvents (EventMarkers s) w
           (Events (UpdateEvents env NewEvents s w).1)
           (EventMarkers (UpdateEvents env NewEvents s w).1)
           (UpdateEvents env NewEvents s w).2)).
Proof.
  intros (Hv & Hp & He). split; [|split].
  - intros New. split; [apply UpdateVenues_clears, Hv|].
    intros Hok. apply (UpdateVenues_replaces Hok), Hv.
  - intros New. split; [apply UpdatePlayers_clears, Hp|].
    intros Hok. apply (UpdatePlayers_replaces Hok), Hp.
  - intros New. split; [apply UpdateEvents_clears, He|].
    intros Hok. apply (UpdateEvents_replaces Hok), He.
Qed.

End MarkerLifecycle.

(** C3 at work: the sample map shows the court; the court and the gym are
    passed in. *)
Lemma marker_lifecycle_full_replacement_witness :
  MapView.FullReplacement MapView.FVenueData.Id [Sample.court; Sample.gym]
    (MapView.VenueMarkers Sample.map0) Sample.world0
    (MapView.Venues
       (MapView.UpdateVenues (Sample.env Sample.origin) [Sample.court; Sample.gym]
                             Sample.map0 Sample.world0).1)
    (MapView.VenueMarkers
       (MapView.UpdateVenues (Sample.env Sample.origin) [Sample.court; Sample.gym]
                             Sample.map0 Sample.world0).1)
    (MapView.UpdateVenues (Sample.env Sample.origin) [Sample.court; Sample.gym]
                          Sample.map0 Sample.world0).2.
Proof.
  apply (marker_lifecycle_full_replacement (Sample.env Sample.origin)
           Sample.map0 Sample.world0).
  - repeat split; intros k a H; simpl in H.
    + apply lookup_singleton_Some in H as [_ [= <-]]. simpl. lia.
    + rewrite lookup_empty in H. discriminate.
    + rewrite lookup_empty in H. discriminate.
  - intros n. reflexivity.
  - reflexivity.
  - apply NoDup_cons. split; [|apply NoDup_singleton].
    rewrite list_elem_of_singleton. discriminate.
Defined.

(** ** The map view: where event markers are placed *)

Section EventPlacement.
Import Float32 MapView.

Variable env : Env.

(** With a venue of that id stored, the inner loop ends on the coordinates
    of the first such venue, whatever the local held before. *)
Lemma FindVenueCoords_found VenueId before Venue after init :
  Forall (fun v => FVenueData.Id v <> VenueId) before ->
  FVenueData.Id Venue = VenueId ->
  FindVenueCoords VenueId (before ++ Venue :: after) init =
  FVenueData.Coordinates Venue.
Proof.
  intros Hb Hv. induction Hb as [|v before Hn _ IH]; simpl.
  - destruct (decide (FVenueData.Id Venue = VenueId)); [reflexivity|contradiction].
  - destruct (decide (FVenueData.Id v = VenueId)); [contradiction|exact IH].
Qed.

(** Without one, the local is never assigned. *)
Lemma FindVenueCoords_missing VenueId vs init :
  Forall (fun v => FVenueData.Id v <> VenueId) vs ->
  FindVenueCoords VenueId vs init = init.
Proof.
  induction 1 as [|v vs Hn _ IH]; simpl; [reflexivity|].
  destruct (decide (FVenueData.Id v = VenueId)); [contradiction|exact IH].
Qed.

(** The offset on the Z axis is exactly 100: [0.0f + 100.0f]. *)
Lemma EventMarkerLocation_Z i Event s :
  vZ (EventMarkerLocation env i Event s) = of_Z 100.
Proof. unfold EventMarkerLocation. simpl. vm_compute. reflexivity. Qed.

(** For an event whose venue is stored, the marker goes to the world
    location of that venue's coordinates, 100 units up. *)
Lemma EventMarkerLocation_of_venue i Event s before Venue after :
  Venues s = before ++ Venue :: after ->
  Forall (fun v => FVenueData.Id v <> FEventData.VenueId Event) before ->
  FVenueData.Id Venue = FEventData.VenueId Event ->
  EventMarkerLocation env i Event s =
  mkFVector (vX (LatLongToWorldLocation env (FVenueData.Coordinates Venue)))
            (vY (LatLongToWorldLocation env (FVenueData.Coordinates Venue)))
            (of_Z 100).
Proof.
  intros Hs Hb Hv. unfold EventMarkerLocation.
  rewrite Hs, (FindVenueCoords_found _ _ _ _ _ Hb Hv). simpl.
  f_equal.
Qed.

(** For an event whose venue is not stored, the marker goes to the world
    location of whatever the uninitialised local holds. *)
Lemma EventMarkerLocation_no_venue i Event s :
  Forall (fun v => FVenueData.Id v <> FEventData.VenueId Event) (Venues s) ->
  EventMarkerLocation env i Event s =
  mkFVector (vX (LatLongToWorldLocation env (Indeterminate env i)))
            (vY (LatLongToWorldLocation env (Indeterminate env i)))
            (of_Z 100).
Proof.
  intros H. unfold EventMarkerLocation.
  rewrite (FindVenueCoords_missing _ _ _ H). simpl. f_equal.
Qed.

End EventPlacement.

(** An event whose venue is stored: whatever the uninitialised local held,
    the marker of the final sits over the court, at X = 10 * 100 and
    Z = 100. *)
Example final_event_marker_over_its_venue :
  let s := MapView.set_Events [Sample.final] Sample.map0 in
  let placed g :=
    MapView.ActorLocation <$>
      MapView.Actors
        (MapView.SpawnEventMarkers (Sample.env g) s Sample.world0).2 !! 1%nat in
  (MapView.vX <$> placed (MapView.mkFVector2D (Float32.of_Z 1) (Float32.of_Z 1)),
   MapView.vZ <$> placed (MapView.mkFVector2D (Float32.of_Z 1) (Float32.of_Z 1)))
    = (Some (Float32.of_Z 1000), Some (Float32.of_Z 100))
  /\ placed (MapView.mkFVector2D (Float32.of_Z 1) (Float32.of_Z 1))
     = placed (MapView.mkFVector2D (Float32.of_Z 2) (Float32.of_Z 2)).
Proof. split; vm_compute; reflexivity. Qed.

(** C4, at an event whose [VenueId] matches no stored venue: the sample map
    stores the venue "v1" only and the event names "v9".  The marker is
    spawned (actor 1), and its X coordinate is 100 times whatever the
    uninitialised [VenueCoords] held: 100 when that was (1, 1), 200 when it
    was (2, 2).  The placement is not a function of the stored data. *)
Theorem stray_event_marker_follows_garbage :
  let s := MapView.set_Events [Sample.stray] Sample.map0 in
  let placed g :=
    MapView.vX <$> (MapView.ActorLocation <$>
      MapView.Actors
        (MapView.SpawnEventMarkers (Sample.env g) s Sample.world0).2 !! 1%nat) in
  placed (MapView.mkFVector2D (Float32.of_Z 1) (Float32.of_Z 1))
    = Some (Float32.of_Z 100)
  /\ placed (MapView.mkFVector2D (Float32.of_Z 2) (Float32.of_Z 2))
    = Some (Float32.of_Z 200).
Proof.
  split; vm_compute; reflexivity.
Qed.

(** ** The coaching flow *)

Section Coaching.
Import CoachingFlow.

Lemma flow_broadcasts_app l1 l2 :
  flow_broadcasts (l1 ++ l2) = flow_broadcasts l1 ++ flow_broadcasts l2.
Proof. apply omap_app. Qed.

Ltac script_cases s :=
  destruct s as [[scroll container input send voice player image] st hist v log];
  destruct st; destruct player, image, scroll;
  simpl; rewrite ?flow_broadcasts_app; simpl; rewrite ?app_nil_r.

Example first_answer_moves_to_WeaknessIdentification :
  CurrentState
    (state_of (ProcessUserInput 7 "fine"
                 (set_CurrentState PerformanceReview
                    (UCoachingFlowWidget_ctor
                       (mkBindings None None None None None None None))))) =
  WeaknessIdentification.
Proof. reflexivity. Qed.

(** C1. Whatever the state, [ProcessUserInput] appends exactly one message
    to the history, a coach message.  In the six scripted states it moves
    [CurrentState] to the state that follows in the script and broadcasts
    that state, once, through [OnFlowStateChanged]; in [Initial] and
    [ProgressSummary] the state stays, nothing is broadcast and the message
    is the fallback question.  The call returns, except that in
    [WeaknessIdentification], with the media player bound and the image
    display not, it stops in [DisplayMedia] after all of this is done. *)
Theorem coaching_flow_linear_script (now : FDateTime) (Input : FString)
    (s : UCoachingFlowWidget) :
  let o := ProcessUserInput now Input s in
  let s' := state_of o in
  (exists m, MessageHistory s' = MessageHistory s ++ [m]
             /\ bIsCoach m = true /\ SenderName m = "Coach AI"
             /\ (scripted (CurrentState s) = false ->
                 MessageText m =
                 "Is there anything specific you'd like to focus on in your training?"))
  /\ (scripted (CurrentState s) = true ->
      CurrentState s' = following (CurrentState s)
      /\ flow_broadcasts (Log s') =
         flow_broadcasts (Log s) ++ [following (CurrentState s)])
  /\ (scripted (CurrentState s) = false ->
      CurrentState s' = CurrentState s
      /\ flow_broadcasts (Log s') = flow_broadcasts (Log s))
  /\ returned o = negb (video_without_image s).
Proof.
  script_cases s;
    (split; [eexists; split; [reflexivity|];
             split; [reflexivity|]; split; [reflexivity|];
             first [intros _; reflexivity | intros [=]] |]);
    (split; [first [intros _; split; reflexivity | intros [=]] |]);
    (split; [first [intros _; split; reflexivity | intros [=]] |]);
    reflexivity.
Qed.

(** C2. [StartCoachingFlow] always returns; afterwards the history holds
    the welcome message of "Coach AI" and nothing else, a coach message
    without media, the state is [PerformanceReview], and that is the only
    state it broadcast: [Initial] is never announced. *)
Theorem StartCoachingFlow_resets (now : FDateTime) (s : UCoachingFlowWidget) :
  exists s' m,
    StartCoachingFlow now s = Returned s'
    /\ MessageHistory s' = [m]
    /\ SenderName m = "Coach AI"
    /\ MessageText m =
       "Welcome to your personalized coaching session! Let's start by reviewing your recent performance. How have your last few games been?"
    /\ bIsCoach m = true
    /\ MediaURL m = ""
    /\ Timestamp m = now
    /\ CurrentState s' = PerformanceReview
    /\ flow_broadcasts (Log s') = flow_broadcasts (Log s) ++ [PerformanceReview]
    /\ Widgets s' = Widgets s
    /\ bIsVoiceInputActive s' = bIsVoiceInputActive s.
Proof.
  destruct s as [[scroll container input send voice player image] st hist v log].
  unfold StartCoachingFlow, AddMessageToUI. simpl.
  destruct scroll; simpl; eexists; eexists;
    (split; [reflexivity|]); simpl;
    rewrite ?flow_broadcasts_app; simpl; rewrite ?app_nil_r;
    repeat split.
Qed.

End Coaching.

(** ** Voice input *)

Section Voice.
Import VoiceInput.

Lemma InitializeWebSocket_CaptureComponent url s :
  CaptureComponent (InitializeWebSocket url s) = CaptureComponent s.
Proof.
  unfold InitializeWebSocket, CleanupWebSocket.
  destruct (WebSocket s); simpl; [destruct (bConnected s)|]; reflexivity.
Qed.

Lemma ValidateAudioSetup_true s :
  ValidateAudioSetup s = true ->
  nonnull (CaptureComponent s) = true /\ nonnull (AudioComponent s) = true.
Proof.
  unfold ValidateAudioSetup.
  destruct (nonnull (CaptureComponent s)), (nonnull (AudioComponent s));
    simpl; intros H; try discriminate; auto.
Qed.

(** C6. [StartRecording] on a recording manager changes nothing.  On an
    idle manager whose audio setup does not validate it broadcasts
    [OnVoiceInputError] and changes nothing else, so the manager is still
    idle.  [StopRecording] on an idle manager changes nothing.  And
    [StartRecording] on an idle manager whose setup validates (the capture
    component is then present) leaves it recording with an empty audio
    buffer and the capture running. *)
Theorem recording_start_stop_guarded (url : option FString)
    (s : UVoiceInputManager) :
  (bIsRecording s = true -> StartRecording url s = s)
  /\ (bIsRecording s = false -> ValidateAudioSetup s = false ->
      StartRecording url s =
        emit (OnVoiceInputError_Broadcast "Failed to initialize audio capture") s
      /\ bIsRecording (StartRecording url s) = false)
  /\ (bIsRecording s = false -> StopRecording s = s)
  /\ (bIsRecording s = false -> ValidateAudioSetup s = true ->
      nonnull (CaptureComponent s) = true
      /\ bIsRecording (StartRecording url s) = true
      /\ AudioBuffer (StartRecording url s) = []
      /\ bCapturing (StartRecording url s) = true).
Proof.
  split; [|split; [|split]].
  - intros H. unfold StartRecording. rewrite H. reflexivity.
  - intros H V. unfold StartRecording. rewrite H, V. simpl.
    split; [reflexivity|exact H].
  - intros H. unfold StopRecording. rewrite H. reflexivity.
  - intros H V. destruct (ValidateAudioSetup_true s V) as [Hc _].
    unfold StartRecording. rewrite H, V. cbv [negb]. cbv zeta.
    rewrite InitializeWebSocket_CaptureComponent, Hc.
    repeat split.
Qed.

End Voice.

(** ** The media player widget *)

Section Media.
Import Float32 MediaPlayer.

Lemma UpdatePlayPauseButton_flags s :
  bIsPlaying (UpdatePlayPauseButton s) = bIsPlaying s
  /\ MediaPlayer (UpdatePlayPauseButton s) = MediaPlayer s.
Proof. unfold UpdatePlayPauseButton. destruct (nonnull _); split; reflexivity. Qed.

Lemma UpdateMuteButton_flags s :
  bIsMuted (UpdateMuteButton s) = bIsMuted s
  /\ VolumeMultiplier (UpdateMuteButton s) = VolumeMultiplier s
  /\ SoundComponent (UpdateMuteButton s) = SoundComponent s.
Proof. unfold UpdateMuteButton. destruct (nonnull _); repeat split. Qed.

Lemma TogglePlayPause_flips s :
  nonnull (MediaPlayer s) = true ->
  bIsPlaying (TogglePlayPause s) = negb (bIsPlaying s)
  /\ MediaPlayer (TogglePlayPause s) = MediaPlayer s.
Proof.
  intros H. unfold TogglePlayPause, Play, Pause. rewrite H.
  destruct (bIsPlaying s); cbv zeta;
    match goal with
    | |- context [UpdatePlayPauseButton ?t] =>
        destruct (UpdatePlayPauseButton_flags t) as [-> ->]
    end; split; reflexivity.
Qed.

Lemma ToggleMute_flips s :
  nonnull (SoundComponent s) = true ->
  bIsMuted (ToggleMute s) = negb (bIsMuted s)
  /\ VolumeMultiplier (ToggleMute s) = volume_for (negb (bIsMuted s))
  /\ SoundComponent (ToggleMute s) = SoundComponent s.
Proof.
  intros H. unfold ToggleMute. rewrite H. cbv zeta.
  match goal with
  | |- context [UpdateMuteButton ?t] =>
      destruct (UpdateMuteButton_flags t) as (-> & -> & ->)
  end.
  repeat split.
Qed.

(** C7. With the media player object present, [TogglePlayPause] negates
    [bIsPlaying], so two calls give the value back.  With the sound
    component present, [ToggleMute] negates [bIsMuted] and sets the volume
    multiplier that goes with the new flag; two calls give [bIsMuted] back
    and leave the multiplier that goes with it (1.0 when unmuted, 0.0 when
    muted), which is the original multiplier whenever that one went with
    the original flag. *)
Theorem toggles_are_involutions (s : UMediaPlayerWidget) :
  (nonnull (MediaPlayer s) = true ->
     bIsPlaying (TogglePlayPause s) = negb (bIsPlaying s)
     /\ bIsPlaying (TogglePlayPause (TogglePlayPause s)) = bIsPlaying s)
  /\ (nonnull (SoundComponent s) = true ->
     bIsMuted (ToggleMute s) = negb (bIsMuted s)
     /\ VolumeMultiplier (ToggleMute s) = volume_for (negb (bIsMuted s))
     /\ bIsMuted (ToggleMute (ToggleMute s)) = bIsMuted s
     /\ VolumeMultiplier (ToggleMute (ToggleMute s)) = volume_for (bIsMuted s)
     /\ (VolumeMultiplier s = volume_for (bIsMuted s) ->
         VolumeMultiplier (ToggleMute (ToggleMute s)) = VolumeMultiplier s)).
Proof.
  split.
  - intros H. destruct (TogglePlayPause_flips s H) as [H1 H2].
    split; [exact H1|].
    destruct (TogglePlayPause_flips (TogglePlayPause s)) as [H3 _].
    { rewrite H2. exact H. }
    rewrite H3, H1. apply negb_involutive.
  - intros H. destruct (ToggleMute_flips s H) as (H1 & H2 & H3).
    destruct (ToggleMute_flips (ToggleMute s)) as (H4 & H5 & _).
    { rewrite H3. exact H. }
    split; [exact H1|]. split; [exact H2|].
    rewrite H4, H5, H1, negb_involutive.
    split; [reflexivity|]. split; [reflexivity|].
    intros Hv. symmetry. exact Hv.
Qed.

End Media.

(** ** The timeline feed *)

Section Feed.
Import TimelineFeed.

Lemma same_config_refl s : same_config s s.
Proof. repeat split. Qed.

Lemma same_config_trans s1 s2 s3 :
  same_config s1 s2 -> same_config s2 s3 -> same_config s1 s3.
Proof.
  unfold same_config. intros (?&?&?&?&?) (?&?&?&?&?).
  repeat split; congruence.
Qed.

(** Within the array, the detaching loop runs through; it touches the
    children of the scroll box only. *)
Lemma DetachOldest_ok (n : nat) : forall i s,
  (i + n <= length (FeedEntries s))%nat ->
  exists s', DetachOldest n i s = Some s'
             /\ FeedEntries s' = FeedEntries s /\ same_config s s'.
Proof.
  induction n as [|n IH]; intros i s Hlen; simpl.
  - exists s. split; [reflexivity|]. split; [reflexivity|apply same_config_refl].
  - destruct (FeedEntries s !! i) as [entry|] eqn:E.
    + destruct (IH (S i) (match entry with
                          | Some widget => RemoveFromParent widget s
                          | None => s
                          end)) as (s' & H1 & H2 & H3).
      { destruct entry; simpl; lia. }
      exists s'. split; [exact H1|].
      destruct entry; simpl in *; auto.
    + apply lookup_ge_None in E. lia.
Qed.

(** Past the end of the array the loop fails. *)
Lemma DetachOldest_out_of_range (n : nat) : forall i s,
  (i <= length (FeedEntries s))%nat ->
  (length (FeedEntries s) < i + n)%nat -> DetachOldest n i s = None.
Proof.
  induction n as [|n IH]; intros i s Hi Hlen; simpl.
  - lia.
  - destruct (FeedEntries s !! i) as [entry|] eqn:E; [|reflexivity].
    apply lookup_lt_Some in E. apply IH; destruct entry; simpl; lia.
Qed.

Lemma TrimOldEntries_ok s :
  0 <= MaxEntries s ->
  exists s', TrimOldEntries s = Some s'
             /\ FeedEntries s' =
                drop (length (FeedEntries s) - Z.to_nat (MaxEntries s))
                     (FeedEntries s)
             /\ same_config s s'.
Proof.
  intros Hmax. unfold TrimOldEntries.
  destruct (Z.gtb_spec (Z.of_nat (length (FeedEntries s))) (MaxEntries s))
    as [Hgt|Hle].
  - assert (Hn : Z.to_nat (Z.of_nat (length (FeedEntries s)) - MaxEntries s) =
                 (length (FeedEntries s) - Z.to_nat (MaxEntries s))%nat) by lia.
    rewrite Hn.
    destruct (DetachOldest_ok (length (FeedEntries s) - Z.to_nat (MaxEntries s))
                              0 s) as (s1 & H1 & H2 & H3); [lia|].
    rewrite H1. unfold RemoveAtFront. rewrite H2.
    destruct (Nat.leb_spec (length (FeedEntries s) - Z.to_nat (MaxEntries s))
                           (length (FeedEntries s))); [|lia].
    eexists. split; [reflexivity|]. split; [reflexivity|].
    destruct H3 as (?&?&?&?&?). repeat split; assumption.
  - exists s. split; [reflexivity|].
    replace (length (FeedEntries s) - Z.to_nat (MaxEntries s))%nat with 0%nat by lia.
    split; [reflexivity|apply same_config_refl].
Qed.

Lemma CreateFeedEntryWidget_keeps Entry s :
  FeedEntries (CreateFeedEntryWidget Entry s).2 = FeedEntries s
  /\ same_config s (CreateFeedEntryWidget Entry s).2.
Proof.
  unfold CreateFeedEntryWidget, same_config.
  destruct (negb _); [repeat split|].
  destruct (decide _); simpl; [repeat split|].
  destruct (bSetupEntryImplemented s) eqn:E; simpl; rewrite ?E; repeat split.
Qed.

Lemma length_newest MaxEntries old widget :
  0 <= MaxEntries -> Z.of_nat (length old) <= MaxEntries ->
  Z.of_nat (length (newest MaxEntries old widget)) <= MaxEntries.
Proof.
  intros H0 H. unfold newest. rewrite length_drop, length_app. simpl. lia.
Qed.

Lemma AddFeedEntry_ok Entry s :
  feed_ok s ->
  exists s', AddFeedEntry Entry s = Some s'
             /\ feed_ok s' /\ same_config s s'
             /\ (FeedEntries s' = FeedEntries s \/
                 exists widget,
                   FeedEntries s' = newest (MaxEntries s) (FeedEntries s) widget).
Proof.
  intros (Hmax & Hlen & Hbox). unfold AddFeedEntry.
  destruct (FeedScrollBox s) as [box|] eqn:Ebox; simpl.
  2:{ exists s. split; [reflexivity|]. split.
      - repeat split; auto.
      - split; [apply same_config_refl|left; reflexivity]. }
  destruct (CreateFeedEntryWidget_keeps Entry s) as [Hfe Hcfg].
  destruct (CreateFeedEntryWidget Entry s) as [[widget|] s1]; simpl in Hfe, Hcfg.
  - set (s3 := set_FeedEntries (FeedEntries s1 ++ [Some widget])
                 (set_Children (Children s1 ++ [widget]) s1)).
    assert (Hcfg3 : same_config s s3) by exact Hcfg.
    destruct (TrimOldEntries_ok s3) as (s4 & H1 & H2 & H3).
    { destruct Hcfg3 as (_&_&_&->&_). exact Hmax. }
    simpl. fold s3. rewrite H1.
    pose proof (same_config_trans _ _ _ Hcfg3 H3) as Hcfg4.
    assert (Hlist : FeedEntries s4 = newest (MaxEntries s) (FeedEntries s) widget).
    { rewrite H2. unfold newest, s3. simpl. rewrite Hfe, length_app. simpl.
      destruct Hcfg as (_&_&_&->&_). reflexivity. }
    eexists. split; [reflexivity|].
    assert (Hk : forall t, same_config s t ->
                 FeedEntries t = FeedEntries s4 -> feed_ok t).
    { intros t (Hb&_&_&Hm&_) Ht. unfold feed_ok. rewrite Hm, Ht, Hb, Hlist.
      split; [exact Hmax|]. split; [apply length_newest; assumption|].
      rewrite Ebox. discriminate. }
    unfold ScrollToLatest.
    destruct Hcfg4 as (Hb4&?&?&?&?).
    destruct (nonnull (FeedScrollBox s4)); simpl;
      (split; [apply Hk; [repeat split; assumption|reflexivity]|]);
      (split; [repeat split; assumption|]);
      right; exists widget; exact Hlist.
  - exists s1. split; [reflexivity|].
    destruct Hcfg as (Hb&?&?&Hm&?).
    split; [|split; [repeat split; assumption|left; exact Hfe]].
    unfold feed_ok. rewrite Hm, Hfe, Hb, Ebox.
    split; [exact Hmax|]. split; [exact Hlen|discriminate].
Qed.

Lemma AddBadgeEntry_ok now BadgeData s :
  feed_ok s ->
  exists s', AddBadgeEntry now BadgeData s = Some s'
             /\ feed_ok s' /\ same_config s s'
             /\ (FeedEntries s' = FeedEntries s \/
                 exists widget,
                   FeedEntries s' = newest (MaxEntries s) (FeedEntries s) widget).
Proof.
  intros H. unfold AddBadgeEntry. destruct (negb _).
  - exists s. split; [reflexivity|]. split; [exact H|].
    split; [apply same_config_refl|left; reflexivity].
  - apply AddFeedEntry_ok, H.
Qed.

Lemma ClearFeed_ok s :
  feed_ok s ->
  feed_ok (ClearFeed s) /\ same_config s (ClearFeed s)
  /\ FeedEntries (ClearFeed s) = [].
Proof.
  intros (Hmax & Hlen & Hbox). unfold ClearFeed.
  destruct (FeedScrollBox s) as [box|] eqn:E; simpl.
  - split; [|split; [repeat split|reflexivity]].
    unfold feed_ok. simpl. split; [exact Hmax|]. split; [lia|reflexivity].
  - split; [|split; [apply same_config_refl|auto]].
    unfold feed_ok. rewrite E. auto.
Qed.

Lemma feed_calls_ok (cs : list FeedCall) : forall s,
  feed_ok s ->
  exists s', feed_calls cs s = Some s' /\ feed_ok s' /\ same_config s s'.
Proof.
  induction cs as [|c cs IH]; intros s H; simpl.
  - exists s. split; [reflexivity|]. split; [exact H|apply same_config_refl].
  - assert (exists s1, feed_call c s = Some s1 /\ feed_ok s1 /\ same_config s s1)
      as (s1 & E & H1 & C1).
    { destruct c as [Entry|now BadgeData|]; simpl.
      - destruct (AddFeedEntry_ok Entry s H) as (s1 & ? & ? & ? & _). eauto.
      - destruct (AddBadgeEntry_ok now BadgeData s H) as (s1 & ? & ? & ? & _). eauto.
      - destruct (ClearFeed_ok s H) as (? & ? & _). eauto. }
    rewrite E. destruct (IH s1 H1) as (s' & E' & H' & C').
    exists s'. split; [exact E'|]. split; [exact H'|].
    exact (same_config_trans _ _ _ C1 C').
Qed.

Example feed_keeps_the_newest_two :
  FeedEntries <$>
    feed_calls [CallAddFeedEntry Sample.stat_line;
                CallAddBadgeEntry 5 Sample.first_win;
                CallAddBadgeEntry 6 Sample.hot_streak]
               (Sample.short_feed 2) =
  Some [Some 11%nat; Some 12%nat].
Proof. vm_compute. reflexivity. Qed.

(** With a negative bound the first insertion runs [FeedEntries[i]] past
    the end of the array. *)
Example negative_bound_fails_the_range_check :
  feed_calls [CallAddBadgeEntry 5 Sample.first_win] (Sample.short_feed (-1)) =
  None.
Proof. vm_compute. reflexivity. Qed.

(** The widget [CreateFeedEntryWidget] returns: the next object when the
    class for the type of the entry is set, none otherwise. *)
Lemma CreateFeedEntryWidget_result Entry s :
  (CreateFeedEntryWidget Entry s).1 =
  if nonnull (if decide (FFeedEntry.EntryType Entry = "badge")
              then BadgeEntryClass s else DefaultFeedEntryClass s)
  then Some (NextObject s) else None.
Proof.
  unfold CreateFeedEntryWidget.
  destruct (decide _); destruct (nonnull _); reflexivity.
Qed.

(** On a list within its bound, the newest [MaxEntries] entries after an
    insertion: all of them when there was room, all but the oldest when
    there was none. *)
Lemma newest_cases MaxEntries old widget :
  0 <= MaxEntries -> Z.of_nat (length old) <= MaxEntries ->
  newest MaxEntries old widget =
  if Z.of_nat (length old) <? MaxEntries
  then old ++ [Some widget] else drop 1 (old ++ [Some widget]).
Proof.
  intros H0 H. unfold newest.
  destruct (Z.ltb_spec (Z.of_nat (length old)) MaxEntries).
  - replace (length old + 1 - Z.to_nat MaxEntries)%nat with 0%nat by lia.
    reflexivity.
  - replace (length old + 1 - Z.to_nat MaxEntries)%nat with 1%nat by lia.
    reflexivity.
Qed.

(** When an insertion stores, and what. *)
Lemma AddFeedEntry_stores Entry s :
  feed_ok s ->
  exists s',
    AddFeedEntry Entry s = Some s'
    /\ FeedEntries s' =
       if nonnull (FeedScrollBox s)
          && nonnull (if decide (FFeedEntry.EntryType Entry = "badge")
                      then BadgeEntryClass s else DefaultFeedEntryClass s)
       then if Z.of_nat (length (FeedEntries s)) <? MaxEntries s
            then FeedEntries s ++ [Some (NextObject s)]
            else drop 1 (FeedEntries s ++ [Some (NextObject s)])
       else FeedEntries s.
Proof.
  intros (Hmax & Hlen & Hbox). unfold AddFeedEntry.
  destruct (nonnull (FeedScrollBox s)); simpl; [|exists s; split; reflexivity].
  destruct (CreateFeedEntryWidget_keeps Entry s) as [Hfe Hcfg].
  pose proof (CreateFeedEntryWidget_result Entry s) as Hw.
  destruct (CreateFeedEntryWidget Entry s) as [w s1]; simpl in Hfe, Hcfg, Hw.
  destruct (nonnull (if decide (FFeedEntry.EntryType Entry = "badge")
                     then BadgeEntryClass s else DefaultFeedEntryClass s));
    subst w; [|exists s1; split; [reflexivity|exact Hfe]].
  set (s3 := set_FeedEntries (FeedEntries s1 ++ [Some (NextObject s)])
               (set_Children (Children s1 ++ [NextObject s]) s1)).
  assert (Hm3 : MaxEntries s3 = MaxEntries s) by apply Hcfg.
  destruct (TrimOldEntries_ok s3) as (s4 & H1 & H2 & _);
    [rewrite Hm3; exact Hmax|].
  rewrite H1. eexists. split; [reflexivity|].
  rewrite <- (newest_cases _ _ _ Hmax Hlen).
  transitivity (FeedEntries s4).
  { unfold ScrollToLatest. destruct (nonnull (FeedScrollBox s4)); reflexivity. }
  rewrite H2, Hm3. unfold newest, s3. simpl. rewrite Hfe, length_app. simpl.
  reflexivity.
Qed.

Lemma AddBadgeEntry_stores now BadgeData s :
  feed_ok s ->
  exists s',
    AddBadgeEntry now BadgeData s = Some s'
    /\ FeedEntries s' =
       if nonnull (BadgeEntryClass s) && nonnull (FeedScrollBox s)
       then if Z.of_nat (length (FeedEntries s)) <? MaxEntries s
            then FeedEntries s ++ [Some (NextObject s)]
            else drop 1 (FeedEntries s ++ [Some (NextObject s)])
       else FeedEntries s.
Proof.
  intros H. unfold AddBadgeEntry.
  destruct (nonnull (BadgeEntryClass s)) eqn:Hclass; simpl;
    [|exists s; split; reflexivity].
  destruct (AddFeedEntry_stores
              (FFeedEntry.mk (FBadgeData.Name BadgeData)
                 (FBadgeData.Description BadgeData)
                 (FBadgeData.Icon BadgeData) now "badge" BadgeData) s H)
    as (s' & E & Hlist).
  exists s'. split; [exact E|]. rewrite Hlist. simpl. rewrite Hclass.
  rewrite andb_true_r. reflexivity.
Qed.

(** C9, as amended.  Start from a widget whose list is empty and whose
    [MaxEntries] is not negative (the constructor gives 50).  Every finite
    run of [AddFeedEntry], [AddBadgeEntry] and [ClearFeed] calls runs to
    its end, leaves [MaxEntries] as it was and at most [MaxEntries]
    entries in the list.  In the state reached, an insertion stores a
    widget exactly when the scroll box is bound and the class for the type
    of the entry is set, the badge class for [AddBadgeEntry]; it stores
    the widget it creates at the end of the list, and when the list was
    full the entry removed is the oldest one, at the front.  An insertion
    that does not store leaves the list as it was, and [ClearFeed] leaves
    it empty. *)
Theorem timeline_feed_bounded_fifo (s0 : UTimelineFeedWidget)
    (cs : list FeedCall) :
  0 <= MaxEntries s0 ->
  FeedEntries s0 = [] ->
  exists s,
    feed_calls cs s0 = Some s
    /\ MaxEntries s = MaxEntries s0
    /\ Z.of_nat (length (FeedEntries s)) <= MaxEntries s0
    /\ (forall Entry, exists s',
          AddFeedEntry Entry s = Some s'
          /\ FeedEntries s' =
             if nonnull (FeedScrollBox s)
                && nonnull (if decide (FFeedEntry.EntryType Entry = "badge")
                            then BadgeEntryClass s
                            else DefaultFeedEntryClass s)
             then if Z.of_nat (length (FeedEntries s)) <? MaxEntries s0
                  then FeedEntries s ++ [Some (NextObject s)]
                  else drop 1 (FeedEntries s ++ [Some (NextObject s)])
             else FeedEntries s)
    /\ (forall now BadgeData, exists s',
          AddBadgeEntry now BadgeData s = Some s'
          /\ FeedEntries s' =
             if nonnull (BadgeEntryClass s) && nonnull (FeedScrollBox s)
             then if Z.of_nat (length (FeedEntries s)) <? MaxEntries s0
                  then FeedEntries s ++ [Some (NextObject s)]
                  else drop 1 (FeedEntries s ++ [Some (NextObject s)])
             else FeedEntries s)
    /\ FeedEntries (ClearFeed s) = [].
Proof.
  intros Hmax Hempty.
  assert (H0 : feed_ok s0).
  { unfold feed_ok. rewrite Hempty. simpl. repeat split; [exact Hmax|lia]. }
  destruct (feed_calls_ok cs s0 H0) as (s & E & Hs & (_&_&_&Hm&_)).
  exists s. split; [exact E|]. split; [exact Hm|].
  split; [destruct Hs as (_ & Hlen & _); lia|].
  rewrite <- Hm. split; [|split].
  - intros Entry. exact (AddFeedEntry_stores Entry s Hs).
  - intros now BadgeData. exact (AddBadgeEntry_stores now BadgeData s Hs).
  - apply ClearFeed_ok, Hs.
Qed.

(** A feed with room for two entries, fed an entry and two badges: the
    list holds the two badges, the entry fed first is gone, and one more
    entry takes the place of the older badge. *)
Lemma timeline_feed_bounded_fifo_witness :
  exists s s',
    feed_calls [CallAddFeedEntry Sample.stat_line;
                CallAddBadgeEntry 5 Sample.first_win;
                CallAddBadgeEntry 6 Sample.hot_streak]
               (Sample.short_feed 2) = Some s
    /\ FeedEntries s = [Some 11%nat; Some 12%nat]
    /\ AddFeedEntry Sample.stat_line s = Some s'
    /\ FeedEntries s' = [Some 12%nat; Some 13%nat].
Proof.
  destruct (timeline_feed_bounded_fifo
              (Sample.short_feed 2)
              [CallAddFeedEntry Sample.stat_line;
               CallAddBadgeEntry 5 Sample.first_win;
               CallAddBadgeEntry 6 Sample.hot_streak])
    as (s & E & _ & _ & Hadd & _).
  - simpl. lia.
  - reflexivity.
  - destruct (Hadd Sample.stat_line) as (s' & E' & Hlist).
    exists s, s'. vm_compute in E. injection E as <-.
    split; [reflexivity|]. split; [reflexivity|].
    split; [exact E'|]. rewrite Hlist. reflexivity.
Defined.

(** C9 as it was stated, without a condition on [MaxEntries].  With a
    negative [MaxEntries], which a Blueprint can set, it fails on a widget
    whose list is empty: the first insertion that stores runs
    [FeedEntries[i]] past the end of the array, so there is no state after
    the call; and after a [ClearFeed], which does return, the empty list
    holds more than [MaxEntries] entries. *)
Lemma negative_bound_breaks_the_feed :
  FeedEntries (Sample.short_feed (-1)) = []
  /\ feed_calls [CallAddBadgeEntry 5 Sample.first_win] (Sample.short_feed (-1))
     = None
  /\ ~ (exists s,
          feed_calls [CallAddBadgeEntry 5 Sample.first_win]
                     (Sample.short_feed (-1)) = Some s
          /\ Z.of_nat (length (FeedEntries s))
             <= MaxEntries (Sample.short_feed (-1)))
  /\ ~ (exists s,
          feed_calls [CallClearFeed] (Sample.short_feed (-1)) = Some s
          /\ Z.of_nat (length (FeedEntries s))
             <= MaxEntries (Sample.short_feed (-1))).
Proof.
  split; [reflexivity|]. split; [vm_compute; reflexivity|]. split.
  - intros (s & E & _). vm_compute in E. discriminate E.
  - intros (s & E & H). vm_compute in E. injection E as <-.
    vm_compute in H. apply H. reflexivity.
Qed.

End Feed.

(** ** The challenge card *)

Section Challenge.
Import Float32 ChallengeCard.

Lemma percents_app l1 l2 : percents (l1 ++ l2) = percents l1 ++ percents l2.
Proof. apply omap_app. Qed.

Lemma zero_le_one : fleb (of_Z 0) (of_Z 1) = true.
Proof. vm_compute. reflexivity. Qed.

(** What [UpdateProgressDisplay] adds to the values handed to
    [SetPercent]: the clamped quotient, when the bar is bound. *)
Lemma UpdateProgressDisplay_percents cp s :
  percents (Log (UpdateProgressDisplay cp s)) =
  percents (Log s) ++
  (if nonnull (ProgressBar (Widgets s))
   then [Clamp (ProgressQuotient cp (TargetProgress s)) (of_Z 0) (of_Z 1)]
   else []).
Proof.
  unfold UpdateProgressDisplay.
  destruct (nonnull (ProgressBar (Widgets s))); simpl;
    destruct (nonnull (ProgressText (Widgets s))); simpl;
    rewrite ?percents_app; simpl; rewrite ?app_nil_r, <- ?app_assoc; reflexivity.
Qed.

Lemma UpdateProgress_percents cp s :
  percents (Log (UpdateProgress cp s)) =
  percents (Log s) ++
  (if nonnull (ProgressBar (Widgets s))
   then [Clamp (ProgressQuotient cp (TargetProgress s)) (of_Z 0) (of_Z 1)]
   else []).
Proof.
  unfold UpdateProgress. simpl.
  rewrite percents_app, UpdateProgressDisplay_percents. simpl.
  apply app_nil_r.
Qed.

Lemma SetupChallenge_percents d s :
  percents (Log (SetupChallenge d s)) =
  percents (Log s) ++
  (if nonnull (ProgressBar (Widgets s))
   then [Clamp (ProgressQuotient (of_Z (CurrentProgress d)) (Target d))
               (of_Z 0) (of_Z 1)]
   else []).
Proof.
  unfold SetupChallenge. rewrite UpdateProgress_percents.
  unfold SetCategoryIcon, SetDifficultyColor.
  destruct s as [[title desc ptext bar xp icon border] cid target icons colors log].
  simpl.
  destruct title, desc, xp, border, icon; simpl;
    repeat match goal with
    | |- context [match ?m !! ?k with _ => _ end] => destruct (m !! k)
    end; simpl; rewrite ?percents_app; simpl; rewrite ?app_nil_r; reflexivity.
Qed.

(** Whatever the progress and the target, what reaches [SetPercent] lies
    between 0 and 1. *)
Lemma SetPercent_in_unit_interval d cps s :
  Forall (fun p => within (of_Z 0) (of_Z 1) p = true) (percents (Log s)) ->
  Forall (fun p => within (of_Z 0) (of_Z 1) p = true)
         (percents (Log (fold_left (fun t cp => UpdateProgress cp t) cps
                                   (SetupChallenge d s)))).
Proof.
  intros H.
  assert (H1 : Forall (fun p => within (of_Z 0) (of_Z 1) p = true)
                      (percents (Log (SetupChallenge d s)))).
  { rewrite SetupChallenge_percents. apply Forall_app. split; [exact H|].
    destruct (nonnull _); constructor; [|constructor].
    apply Clamp_within, zero_le_one. }
  clear H. revert H1. generalize (SetupChallenge d s) as t.
  induction cps as [|cp cps IH]; intros t Ht; simpl; [exact Ht|].
  apply IH. rewrite UpdateProgress_percents. apply Forall_app. split; [exact Ht|].
  destruct (nonnull _); constructor; [|constructor].
  apply Clamp_within, zero_le_one.
Qed.

(** With a target different from 0 and a progress within the [int32]
    range, three made of ten say, the quotient is a number. *)
Example free_throws_quotient :
  ProgressQuotient (of_Z 3) 10 = fdiv (of_Z 3) (of_Z 10)
  /\ is_finite (ProgressQuotient (of_Z 3) 10) = true
  /\ percents (Log (SetupChallenge Sample.free_throws Sample.card)) =
     [fdiv (of_Z 3) (of_Z 10)].
Proof. repeat split; vm_compute; reflexivity. Qed.

(** C10, at a challenge whose [Target] is 0.  The quotient is then never a
    number: it is NaN or an infinity whatever the progress.  For the
    challenge without target and without progress it is 0/0, NaN, and the
    clamp turns it into 1: the bar of a challenge on which nothing was done
    shows full. *)
Theorem zero_target_quotient_is_not_a_number :
  (forall CurrentProgress, is_finite (ProgressQuotient CurrentProgress 0) = false)
  /\ ProgressQuotient (of_Z (CurrentProgress Sample.no_target))
                      (Target Sample.no_target) = S754_nan
  /\ percents (Log (SetupChallenge Sample.no_target Sample.card)) = [of_Z 1].
Proof.
  split; [|split].
  - intros x. unfold ProgressQuotient. destruct x; reflexivity.
  - vm_compute. reflexivity.
  - vm_compute. reflexivity.
Qed.

End Challenge.

(** ** The statements at work on the sample data *)

(** C1 on the sample widget: the answer to the welcome question moves the
    script from [PerformanceReview] to [WeaknessIdentification]. *)
Lemma coaching_flow_linear_script_witness :
  CoachingFlow.CurrentState
    (CoachingFlow.state_of (CoachingFlow.ProcessUserInput 7 "fine" Sample.coach))
  = CoachingFlow.WeaknessIdentification
  /\ CoachingFlow.flow_broadcasts
       (CoachingFlow.Log
          (CoachingFlow.state_of
             (CoachingFlow.ProcessUserInput 7 "fine" Sample.coach)))
     = [CoachingFlow.WeaknessIdentification].
Proof.
  apply (proj1 (proj2 (coaching_flow_linear_script 7 "fine" Sample.coach))).
  reflexivity.
Defined.

(** C5 on the sample map: Ann moves to (10, 20); Bob stays. *)
Lemma UpdatePlayerLocation_frame_witness :
  MapView.Players
    (MapView.UpdatePlayerLocation (Sample.env Sample.origin) "p1"
       (MapView.mkFVector2D (Float32.of_Z 10) (Float32.of_Z 20))
       Sample.map1 Sample.world0).1
  = [MapView.FPlayerData.set_Coordinates
       (MapView.mkFVector2D (Float32.of_Z 10) (Float32.of_Z 20)) Sample.ann;
     Sample.bob].
Proof.
  apply (proj1 (proj2 (proj2 (UpdatePlayerLocation_frame
                                (Sample.env Sample.origin) "p1"
                                (MapView.mkFVector2D (Float32.of_Z 10)
                                                     (Float32.of_Z 20))
                                Sample.map1 Sample.world0)))
           [] Sample.ann [Sample.bob]).
  - reflexivity.
  - constructor.
  - reflexivity.
Defined.

(** C6 on the sample manager: idle with both audio components, it starts. *)
Lemma recording_start_stop_guarded_witness :
  nonnull (VoiceInput.CaptureComponent Sample.manager) = true
  /\ VoiceInput.bIsRecording (VoiceInput.StartRecording None Sample.manager) = true
  /\ VoiceInput.AudioBuffer (VoiceInput.StartRecording None Sample.manager) = []
  /\ VoiceInput.bCapturing (VoiceInput.StartRecording None Sample.manager) = true.
Proof.
  apply (proj2 (proj2 (proj2 (recording_start_stop_guarded None Sample.manager))));
    reflexivity.
Defined.

(** C7 on the sample media widget. *)
Lemma toggles_are_involutions_witness :
  MediaPlayer.bIsPlaying (MediaPlayer.TogglePlayPause Sample.video) = true
  /\ MediaPlayer.bIsPlaying
       (MediaPlayer.TogglePlayPause (MediaPlayer.TogglePlayPause Sample.video))
     = false.
Proof.
  apply (proj1 (toggles_are_involutions Sample.video)). reflexivity.
Defined.

(** ** The map view: what the spawned markers show *)

Section MarkerLook.
Import Float32 MapView.

(** *** A spawning loop, followed for what it leaves of each element

    [shown i d a s w] is what is asked of the marker [a] of the element [d]
    of round [i]; a round establishes it for its own marker and keeps it
    for the markers of the other ids. *)

Section LoopPost.
Context {D : Type}.
Variable Id : D -> FString.
Variable markers : AMapView -> gmap string (option nat).
Variable body : nat -> D -> AMapView -> World -> AMapView * World.
Variable shown : nat -> D -> nat -> AMapView -> World -> Prop.

Hypothesis body_shown : forall i d s w,
  markers (body i d s w).1 = <[Id d := Some (NextObject w)]> (markers s)
  /\ (NextObject w < NextObject (body i d s w).2)%nat
  /\ shown i d (NextObject w) (body i d s w).1 (body i d s w).2.

Hypothesis body_stable : forall i d s w j e a,
  (a < NextObject w)%nat -> Id e <> Id d ->
  shown j e a s w -> shown j e a (body i d s w).1 (body i d s w).2.

Lemma for_each_other_keys (l : list D) : forall i s w k,
  k ∉ Id <$> l ->
  markers (for_each body i l s w).1 !! k = markers s !! k.
Proof.
  induction l as [|d l IH]; intros i s w k Hk; [reflexivity|].
  rewrite for_each_cons. rewrite fmap_cons, not_elem_of_cons in Hk.
  destruct Hk as [Hkd Hk].
  destruct (body_shown i d s w) as (Hm & _).
  rewrite IH by exact Hk. rewrite Hm. apply lookup_insert_ne. congruence.
Qed.

Lemma for_each_stable (l : list D) : forall i s w j e a,
  (a < NextObject w)%nat -> Id e ∉ Id <$> l ->
  shown j e a s w ->
  shown j e a (for_each body i l s w).1 (for_each body i l s w).2.
Proof.
  induction l as [|d l IH]; intros i s w j e a Ha He Hp; [exact Hp|].
  rewrite for_each_cons. rewrite fmap_cons, not_elem_of_cons in He.
  destruct He as [Hed He].
  destruct (body_shown i d s w) as (_ & Hn & _).
  apply IH; [lia|exact He|].
  apply body_stable; assumption.
Qed.

Lemma for_each_shown (l : list D) : forall i s w j d,
  NoDup (Id <$> l) -> l !! j = Some d ->
  exists a,
    markers (for_each body i l s w).1 !! Id d = Some (Some a)
    /\ shown (i + j) d a (for_each body i l s w).1 (for_each body i l s w).2.
Proof.
  induction l as [|d0 l IH]; intros i s w j d Hnd Hj.
  - rewrite lookup_nil in Hj. discriminate.
  - rewrite for_each_cons. rewrite fmap_cons in Hnd.
    apply NoDup_cons in Hnd as [Hfresh Hnd].
    destruct (body_shown i d0 s w) as (Hm & Hn & Hp).
    destruct j as [|j]; simpl in Hj.
    + injection Hj as ->. exists (NextObject w).
      rewrite (for_each_other_keys l _ _ _ _ Hfresh), Hm, lookup_insert_eq.
      split; [reflexivity|].
      rewrite Nat.add_0_r.
      apply for_each_stable; [exact Hn|exact Hfresh|exact Hp].
    + destruct (IH (S i) (body i d0 s w).1 (body i d0 s w).2 j d Hnd Hj)
        as (a & H1 & H2).
      exists a. split; [exact H1|].
      replace (i + S j)%nat with (S i + j)%nat by lia. exact H2.
Qed.

End LoopPost.

(** *** The three loop bodies *)

Variable env : Env.
Hypothesis spawn_ok : forall n, SpawnSucceeds env n = true.

Ltac lookups :=
  simpl;
  repeat first
    [ rewrite lookup_alter_eq
    | rewrite lookup_alter_ne by (congruence || lia)
    | rewrite lookup_insert_eq
    | rewrite lookup_insert_ne by (congruence || lia) ];
  simpl.

(** Open a loop body on a state given field by field, and go through the
    tests it makes. *)
Ltac open_body s :=
  destruct s as [[] ? ? ? ? ? ? ? ? ? ? ? ? ?];
  unfold SpawnVenueMarker, SpawnPlayerMarker, SpawnEventMarker, SpawnActor,
    AddTooltip, NewTooltip, StartFadeAnimation, StartPulseAnimation,
    RestartTimer;
  rewrite spawn_ok; simpl;
  repeat match goal with
  | |- context [decide ?P] => destruct (decide P); simpl
  | |- context [nonnull ?m] => is_var m; destruct m; simpl
  | |- context [if ?b then _ else _] => is_var b; destruct b; simpl
  end.

Ltac keeps_tooltip H :=
  try (intros Hf; discriminate Hf);
  intros _; destruct (H eq_refl) as (c & Hc & Hk & Hcomp); exists c;
  (split; [simpl; lia|]); lookups; split; assumption.

Ltac new_tooltip w :=
  try (intros Hf; discriminate Hf);
  intros _; exists (S (NextObject w)); (split; [lia|]); lookups;
  split; reflexivity.

Lemma SpawnVenueMarker_shown i d s w :
  VenueMarkers (SpawnVenueMarker env i d s w).1 =
    <[FVenueData.Id d := Some (NextObject w)]> (VenueMarkers s)
  /\ (NextObject w < NextObject (SpawnVenueMarker env i d s w).2)%nat
  /\ venue_marker_shown env i d (NextObject w) (SpawnVenueMarker env i d s w).1
                        (SpawnVenueMarker env i d s w).2.
Proof.
  unfold venue_marker_shown, VenueMarker. destruct d as [? ? ? ? ? ? indoor].
  open_body s.
  all: (split; [reflexivity|]); (split; [lia|]); lookups; reflexivity.
Qed.

Lemma SpawnVenueMarker_stable i d s w j e a :
  (a < NextObject w)%nat -> FVenueData.Id e <> FVenueData.Id d ->
  venue_marker_shown env j e a s w ->
  venue_marker_shown env j e a (SpawnVenueMarker env i d s w).1
                     (SpawnVenueMarker env i d s w).2.
Proof.
  unfold venue_marker_shown. intros Ha _ H. destruct d as [? ? ? ? ? ? indoor].
  open_body s.
  all: lookups; exact H.
Qed.

Lemma SpawnPlayerMarker_shown i d s w :
  PlayerMarkers (SpawnPlayerMarker env i d s w).1 =
    <[FPlayerData.Id d := Some (NextObject w)]> (PlayerMarkers s)
  /\ (NextObject w < NextObject (SpawnPlayerMarker env i d s w).2)%nat
  /\ player_marker_shown env i d (NextObject w) (SpawnPlayerMarker env i d s w).1
                         (SpawnPlayerMarker env i d s w).2.
Proof.
  unfold player_marker_shown, tooltip_attached, PlayerMarker.
  open_body s.
  all: (split; [reflexivity|]); (split; [lia|]).
  all: split; [lookups; reflexivity|].
  all: new_tooltip w.
Qed.

Lemma SpawnPlayerMarker_stable i d s w j e a :
  (a < NextObject w)%nat -> FPlayerData.Id e <> FPlayerData.Id d ->
  player_marker_shown env j e a s w ->
  player_marker_shown env j e a (SpawnPlayerMarker env i d s w).1
                      (SpawnPlayerMarker env i d s w).2.
Proof.
  unfold player_marker_shown, tooltip_attached, PlayerMarker.
  intros Ha Hne [H1 H2].
  open_body s.
  all: split; [lookups; exact H1|].
  all: keeps_tooltip H2.
Qed.

Lemma SpawnEventMarker_shown i d s w :
  EventMarkers (SpawnEventMarker env i d s w).1 =
    <[FEventData.Id d := Some (NextObject w)]> (EventMarkers s)
  /\ (NextObject w < NextObject (SpawnEventMarker env i d s w).2)%nat
  /\ event_marker_shown env i d (NextObject w) (SpawnEventMarker env i d s w).1
                        (SpawnEventMarker env i d s w).2.
Proof.
  unfold event_marker_shown, tooltip_attached, EventMarkerLocation.
  open_body s.
  all: (split; [reflexivity|]); (split; [lia|]).
  all: split; [lookups; reflexivity|].
  all: new_tooltip w.
Qed.

Lemma SpawnEventMarker_stable i d s w j e a :
  (a < NextObject w)%nat -> FEventData.Id e <> FEventData.Id d ->
  event_marker_shown env j e a s w ->
  event_marker_shown env j e a (SpawnEventMarker env i d s w).1
                     (SpawnEventMarker env i d s w).2.
Proof.
  unfold event_marker_shown, tooltip_attached, EventMarkerLocation.
  intros Ha Hne [H1 H2].
  open_body s.
  all: split; [lookups; exact H1|].
  all: keeps_tooltip H2.
Qed.

(** No round writes the properties or the stored venues. *)
Lemma SpawnVenueMarker_Props i d s w :
  Props (SpawnVenueMarker env i d s w).1 = Props s.
Proof. destruct d as [? ? ? ? ? ? indoor]. open_body s; reflexivity. Qed.

Lemma SpawnPlayerMarker_Props i d s w :
  Props (SpawnPlayerMarker env i d s w).1 = Props s.
Proof. open_body s; reflexivity. Qed.

Lemma SpawnEventMarker_Props i d s w :
  Props (SpawnEventMarker env i d s w).1 = Props s
  /\ Venues (SpawnEventMarker env i d s w).1 = Venues s.
Proof. open_body s; split; reflexivity. Qed.

(** The inner loop of the event round finds the first venue of the id. *)
Lemma FindVenueCoords_venue_of VenueId vs Venue init :
  venue_of VenueId vs = Some Venue ->
  FindVenueCoords VenueId vs init = FVenueData.Coordinates Venue
  /\ FVenueData.Id Venue = VenueId /\ Venue ∈ vs.
Proof.
  unfold venue_of. induction vs as [|v vs IH]; simpl; [discriminate|].
  destruct (decide (FVenueData.Id v = VenueId)) as [Heq|Hne].
  - rewrite (bool_decide_eq_true_2 _ Heq). intros [= <-].
    split; [reflexivity|]. split; [exact Heq|apply elem_of_cons; left; reflexivity].
  - rewrite (bool_decide_eq_false_2 _ Hne). intros H.
    destruct (IH H) as (H1 & H2 & H3).
    split; [exact H1|]. split; [exact H2|apply elem_of_cons; right; exact H3].
Qed.

(** X1. [UpdateVenues], with the venue mesh set, every spawn succeeding and
    the ids of the array pairwise distinct: each venue of the array gets,
    under its id, an actor that stands at the world location of the venue's
    coordinates, is movable, carries the venue mesh, the indoor material
    for an indoor venue and the outdoor material otherwise, and has the
    venue's id as its only tag. *)
Theorem venue_markers_show_their_venues (NewVenues : list FVenueData.t)
    (s : AMapView) (w : World) (Venue : FVenueData.t) :
  nonnull (DefaultVenueMarker (Props s)) = true ->
  NoDup (FVenueData.Id <$> NewVenues) ->
  Venue ∈ NewVenues ->
  exists a,
    VenueMarkers (UpdateVenues env NewVenues s w).1 !! FVenueData.Id Venue =
      Some (Some a)
    /\ Actors (UpdateVenues env NewVenues s w).2 !! a =
       Some (VenueMarker env (Props s) Venue).
Proof.
  intros Hmesh Hnd Hin. unfold UpdateVenues, SpawnVenueMarkers. simpl.
  rewrite Hmesh. simpl.
  apply list_elem_of_lookup in Hin as [j Hj].
  destruct (for_each_shown FVenueData.Id VenueMarkers (SpawnVenueMarker env)
              (venue_marker_shown env)
              SpawnVenueMarker_shown SpawnVenueMarker_stable NewVenues 0%nat
              (set_Venues NewVenues (set_VenueMarkers ∅ s))
              (DestroyMarkers (VenueMarkers s) w) j Venue Hnd Hj)
    as (a & Hk & Hshown).
  exists a. split; [exact Hk|].
  unfold venue_marker_shown in Hshown.
  rewrite (for_each_preserves Props _ SpawnVenueMarker_Props) in Hshown.
  exact Hshown.
Qed.

(** X2. [UpdatePlayers], with the player mesh set, every spawn succeeding
    and the ids of the array pairwise distinct: each player of the array
    gets, under its id, an actor at the world location of the player's
    coordinates, movable, with the player mesh, the active material when
    the status is "active" and the inactive one otherwise, tagged with the
    player's id.  With a tooltip class configured, the tooltip stored under
    the id is a component of that class, attached to this actor and
    hidden. *)
Theorem player_markers_show_their_players (NewPlayers : list FPlayerData.t)
    (s : AMapView) (w : World) (Player : FPlayerData.t) :
  nonnull (PlayerMarkerMesh (Props s)) = true ->
  NoDup (FPlayerData.Id <$> NewPlayers) ->
  Player ∈ NewPlayers ->
  exists a,
    PlayerMarkers (UpdatePlayers env NewPlayers s w).1 !! FPlayerData.Id Player =
      Some (Some a)
    /\ Actors (UpdatePlayers env NewPlayers s w).2 !! a =
       Some (PlayerMarker env (Props s) Player)
    /\ (nonnull (TooltipWidgetClass (Props s)) = true ->
        exists c,
          MarkerTooltips (UpdatePlayers env NewPlayers s w).1
            !! FPlayerData.Id Player = Some (Some c)
          /\ Components (UpdatePlayers env NewPlayers s w).2 !! c =
             Some (mkComponent (TooltipWidgetClass (Props s)) a false)).
Proof.
  intros Hmesh Hnd Hin. unfold UpdatePlayers, SpawnPlayerMarkers. simpl.
  rewrite Hmesh. simpl.
  apply list_elem_of_lookup in Hin as [j Hj].
  destruct (for_each_shown FPlayerData.Id PlayerMarkers (SpawnPlayerMarker env)
              (player_marker_shown env)
              SpawnPlayerMarker_shown SpawnPlayerMarker_stable NewPlayers 0%nat
              (set_Players NewPlayers (set_PlayerMarkers ∅ s))
              (DestroyMarkers (PlayerMarkers s) w) j Player Hnd Hj)
    as (a & Hk & Hactor & Htip).
  exists a. split; [exact Hk|].
  unfold tooltip_attached in Htip.
  rewrite (for_each_preserves Props _ SpawnPlayerMarker_Props) in Hactor, Htip.
  split; [exact Hactor|].
  intros Hcls. destruct (Htip Hcls) as (c & _ & H1 & H2). eauto.
Qed.

(** X3. [UpdateEvents], with the event mesh set, every spawn succeeding and
    the ids of the array pairwise distinct: an event of the array whose
    [VenueId] is the id of a stored venue gets, under its id, an actor that
    stands over the first such venue, at the world location of the venue's
    coordinates with Z = 100, whatever the uninitialised local of the loop
    held; it is movable, carries the event mesh, the live material when the
    status is "active" and the upcoming one otherwise, and is tagged with
    the event's id. *)
Theorem event_markers_sit_over_their_venues (NewEvents : list FEventData.t)
    (s : AMapView) (w : World) (Event : FEventData.t) (Venue : FVenueData.t) :
  nonnull (EventMarkerMesh (Props s)) = true ->
  NoDup (FEventData.Id <$> NewEvents) ->
  Event ∈ NewEvents ->
  venue_of (FEventData.VenueId Event) (Venues s) = Some Venue ->
  FVenueData.Id Venue = FEventData.VenueId Event
  /\ exists a,
    EventMarkers (UpdateEvents env NewEvents s w).1 !! FEventData.Id Event =
      Some (Some a)
    /\ Actors (UpdateEvents env NewEvents s w).2 !! a =
       Some (EventMarker env (Props s) Venue Event).
Proof.
  intros Hmesh Hnd Hin Hvenue. unfold UpdateEvents, SpawnEventMarkers. simpl.
  rewrite Hmesh. simpl.
  apply list_elem_of_lookup in Hin as [j Hj].
  set (s2 := set_Events NewEvents (set_EventMarkers ∅ s)).
  destruct (for_each_shown FEventData.Id EventMarkers (SpawnEventMarker env)
              (event_marker_shown env)
              SpawnEventMarker_shown SpawnEventMarker_stable NewEvents 0%nat
              s2 (DestroyMarkers (EventMarkers s) w) j Event Hnd Hj)
    as (a & Hk & Hactor & _).
  destruct (FindVenueCoords_venue_of _ _ _ (Indeterminate env j) Hvenue)
    as (Hcoords & Hid & _).
  split; [exact Hid|].
  exists a. split; [exact Hk|].
  rewrite Hactor. unfold EventMarker, EventMarkerLocation.
  rewrite (for_each_preserves Props _
             (fun i d s w => proj1 (SpawnEventMarker_Props i d s w))).
  rewrite (for_each_preserves Venues _
             (fun i d s w => proj2 (SpawnEventMarker_Props i d s w))).
  simpl. rewrite Hcoords. simpl. do 3 f_equal.
Qed.

End MarkerLook.

(** X1 on the sample map: the gym, an indoor venue, passed in with the
    court. *)
Lemma venue_markers_show_their_venues_witness :
  exists a,
    MapView.VenueMarkers
      (MapView.UpdateVenues (Sample.env Sample.origin) [Sample.court; Sample.gym]
                            Sample.map0 Sample.world0).1 !! "v2" = Some (Some a)
    /\ MapView.Actors
         (MapView.UpdateVenues (Sample.env Sample.origin) [Sample.court; Sample.gym]
                               Sample.map0 Sample.world0).2 !! a =
       Some (MapView.VenueMarker (Sample.env Sample.origin) Sample.props Sample.gym).
Proof.
  apply (venue_markers_show_their_venues (Sample.env Sample.origin)
           (fun n => eq_refl) [Sample.court; Sample.gym] Sample.map0
           Sample.world0 Sample.gym).
  - reflexivity.
  - apply NoDup_cons. split; [|apply NoDup_singleton].
    rewrite list_elem_of_singleton. discriminate.
  - apply elem_of_cons. right. apply elem_of_cons. left. reflexivity.
Defined.

(** X2 on the sample map: Bob, who is idle, passed in with Ann. *)
Lemma player_markers_show_their_players_witness :
  exists a,
    MapView.PlayerMarkers
      (MapView.UpdatePlayers (Sample.env Sample.origin) [Sample.ann; Sample.bob]
                             Sample.map0 Sample.world0).1 !! "p2" = Some (Some a)
    /\ MapView.Actors
         (MapView.UpdatePlayers (Sample.env Sample.origin) [Sample.ann; Sample.bob]
                                Sample.map0 Sample.world0).2 !! a =
       Some (MapView.PlayerMarker (Sample.env Sample.origin) Sample.props Sample.bob).
Proof.
  destruct (player_markers_show_their_players (Sample.env Sample.origin)
              (fun n => eq_refl) [Sample.ann; Sample.bob] Sample.map0
              Sample.world0 Sample.bob) as (a & H1 & H2 & _).
  - reflexivity.
  - apply NoDup_cons. split; [|apply NoDup_singleton].
    rewrite list_elem_of_singleton. discriminate.
  - apply elem_of_cons. right. apply elem_of_cons. left. reflexivity.
  - exists a. split; [exact H1|exact H2].
Defined.

(** X3 on the sample map: the final is played on the court. *)
Lemma event_markers_sit_over_their_venues_witness :
  exists a,
    MapView.EventMarkers
      (MapView.UpdateEvents (Sample.env Sample.origin) [Sample.final; Sample.stray]
                            Sample.map0 Sample.world0).1 !! "e1" = Some (Some a)
    /\ MapView.Actors
         (MapView.UpdateEvents (Sample.env Sample.origin) [Sample.final; Sample.stray]
                               Sample.map0 Sample.world0).2 !! a =
       Some (MapView.EventMarker (Sample.env Sample.origin) Sample.props
                                 Sample.court Sample.final).
Proof.
  apply (event_markers_sit_over_their_venues (Sample.env Sample.origin)
           (fun n => eq_refl) [Sample.final; Sample.stray] Sample.map0
           Sample.world0 Sample.final Sample.court).
  - reflexivity.
  - apply NoDup_cons. split; [|apply NoDup_singleton].
    rewrite list_elem_of_singleton. discriminate.
  - apply elem_of_cons. left. reflexivity.
  - reflexivity.
Defined.

(** ** The map view: status changes *)

Section StatusChange.
Import Float32 MapView.

Variable NewStatus : FString.

Lemma set_Events_same (s : AMapView) : set_Events (Events s) s = s.
Proof. destruct s; reflexivity. Qed.

(** A list splits in one way only at the first element that satisfies a
    test. *)
Lemma first_split_unique {X : Type} (P : X -> Prop) (b1 b2 : list X) x1 x2 a1 a2 :
  b1 ++ x1 :: a1 = b2 ++ x2 :: a2 ->
  Forall (fun y => ~ P y) b1 -> P x1 ->
  Forall (fun y => ~ P y) b2 -> P x2 ->
  b1 = b2 /\ x1 = x2 /\ a1 = a2.
Proof.
  intros Hs Hb1 Hx1. revert b2 Hs.
  induction Hb1 as [|y b1 Hy _ IH]; intros b2 Hs Hb2 Hx2.
  - destruct b2 as [|z b2]; simpl in Hs.
    + inversion Hs; subst. auto.
    + inversion Hs; subst. inversion Hb2; subst. contradiction.
  - destruct b2 as [|z b2]; simpl in Hs.
    + inversion Hs; subst. contradiction.
    + inversion Hs; subst. inversion Hb2; subst.
      destruct (IH b2 H1 H3 Hx2) as (-> & -> & ->). auto.
Qed.

(** What [StartFadeAnimation] and [StartPulseAnimation] leave behind with
    the curve set: a running timer bound to the update function, under the
    handle stored for the marker. *)
Lemma StartFadeAnimation_starts k s w :
  nonnull (FadeCurve (Props s)) = true ->
  exists h,
    AnimationTimers (StartFadeAnimation k s w).1 !! k = Some h
    /\ Timers (StartFadeAnimation k s w).2 !! h = Some ("OnFadeTimelineUpdate", k).
Proof.
  intros H. unfold StartFadeAnimation. rewrite H. simpl.
  exists (NextTimer w). split; apply lookup_insert_eq.
Qed.

Lemma StartPulseAnimation_starts k s w :
  nonnull (PulseCurve (Props s)) = true ->
  exists h,
    AnimationTimers (StartPulseAnimation k s w).1 !! k = Some h
    /\ Timers (StartPulseAnimation k s w).2 !! h = Some ("OnPulseTimelineUpdate", k).
Proof.
  intros H. unfold StartPulseAnimation. rewrite H. simpl.
  exists (NextTimer w). split; apply lookup_insert_eq.
Qed.

(** Of the actor, the two animation functions write [AnimationTimers]
    only; of the world, the timers only. *)
Lemma StartFadeAnimation_writes k s w :
  (StartFadeAnimation k s w).1 =
    set_AnimationTimers (AnimationTimers (StartFadeAnimation k s w).1) s
  /\ Actors (StartFadeAnimation k s w).2 = Actors w
  /\ Components (StartFadeAnimation k s w).2 = Components w
  /\ NextObject (StartFadeAnimation k s w).2 = NextObject w.
Proof.
  unfold StartFadeAnimation. destruct (negb _); simpl; [|repeat split].
  destruct s; repeat split.
Qed.

Lemma StartPulseAnimation_writes k s w :
  (StartPulseAnimation k s w).1 =
    set_AnimationTimers (AnimationTimers (StartPulseAnimation k s w).1) s
  /\ Actors (StartPulseAnimation k s w).2 = Actors w
  /\ Components (StartPulseAnimation k s w).2 = Components w
  /\ NextObject (StartPulseAnimation k s w).2 = NextObject w.
Proof.
  unfold StartPulseAnimation. destruct (negb _); simpl; [|repeat split].
  destruct s; repeat split.
Qed.

(** The block that updates the marker of a player. *)
Lemma PlayerStatusVisuals_spec PlayerId s w :
  let r := PlayerStatusVisuals PlayerId NewStatus s w in
  let M := if decide (NewStatus = "active") then ActivePlayerMaterial (Props s)
           else InactivePlayerMaterial (Props s) in
  r.1 = set_AnimationTimers (AnimationTimers r.1) s
  /\ (forall m, FindRef (PlayerMarkers s) PlayerId = Some m ->
        Actors r.2 !! m = repainted M <$> Actors w !! m)
  /\ (forall a, FindRef (PlayerMarkers s) PlayerId <> Some a ->
        Actors r.2 !! a = Actors w !! a)
  /\ Components r.2 = Components w /\ NextObject r.2 = NextObject w
  /\ (NewStatus = "active" \/ FindRef (PlayerMarkers s) PlayerId = None ->
      AnimationTimers r.1 = AnimationTimers s /\ Timers r.2 = Timers w
      /\ NextTimer r.2 = NextTimer w)
  /\ (NewStatus <> "active" -> is_Some (FindRef (PlayerMarkers s) PlayerId) ->
      nonnull (FadeCurve (Props s)) = true ->
      exists h, AnimationTimers r.1 !! PlayerId = Some h
                /\ Timers r.2 !! h = Some ("OnFadeTimelineUpdate", PlayerId)).
Proof.
  unfold PlayerStatusVisuals.
  destruct (FindRef (PlayerMarkers s) PlayerId) as [m|] eqn:Hm; simpl.
  2:{ split; [destruct s; reflexivity|].
      split; [discriminate|]. split; [reflexivity|].
      split; [reflexivity|]. split; [reflexivity|]. split; [auto|].
      intros _ [x Hx]. discriminate. }
  set (M := if decide (NewStatus = "active") then ActivePlayerMaterial (Props s)
            else InactivePlayerMaterial (Props s)).
  set (w1 := if nonnull M then SetMaterial m M w else w).
  assert (Hown : Actors w1 !! m = repainted M <$> Actors w !! m).
  { unfold w1, repainted. destruct (nonnull M); simpl.
    - apply lookup_alter_eq.
    - destruct (Actors w !! m) as [[]|]; reflexivity. }
  assert (Hother : forall a, Some m <> Some a -> Actors w1 !! a = Actors w !! a).
  { intros a Ha. unfold w1. destruct (nonnull M); simpl; [|reflexivity].
    apply lookup_alter_ne. congruence. }
  assert (Hrest : Components w1 = Components w /\ NextObject w1 = NextObject w
                  /\ Timers w1 = Timers w /\ NextTimer w1 = NextTimer w).
  { unfold w1. destruct (nonnull M); repeat split. }
  destruct Hrest as (Hc & Hn & Ht & Hnt).
  destruct (decide (NewStatus = "active")) as [Ha|Hna]; simpl.
  - split; [destruct s; reflexivity|].
    split; [intros ? [= <-]; exact Hown|]. split; [exact Hother|].
    split; [exact Hc|]. split; [exact Hn|]. split; [auto|].
    intros Hne. contradiction.
  - destruct (StartFadeAnimation_writes PlayerId s w1) as (H1 & H2 & H3 & H4).
    split; [exact H1|]. rewrite H2, H3, H4.
    split; [intros ? [= <-]; exact Hown|]. split; [exact Hother|].
    split; [exact Hc|]. split; [exact Hn|]. split.
    { intros [Ha|Hnone]; [contradiction|discriminate]. }
    intros _ _ Hcurve. apply StartFadeAnimation_starts, Hcurve.
Qed.

(** The block that updates the marker of an event. *)
Lemma EventStatusVisuals_spec EventId s w :
  let r := EventStatusVisuals EventId NewStatus s w in
  let M := if decide (NewStatus = "active") then LiveEventMaterial (Props s)
           else UpcomingEventMaterial (Props s) in
  r.1 = set_AnimationTimers (AnimationTimers r.1) s
  /\ (forall m, FindRef (EventMarkers s) EventId = Some m ->
        Actors r.2 !! m = repainted M <$> Actors w !! m)
  /\ (forall a, FindRef (EventMarkers s) EventId <> Some a ->
        Actors r.2 !! a = Actors w !! a)
  /\ Components r.2 = Components w /\ NextObject r.2 = NextObject w
  /\ (NewStatus <> "active" \/ FindRef (EventMarkers s) EventId = None ->
      AnimationTimers r.1 = AnimationTimers s /\ Timers r.2 = Timers w
      /\ NextTimer r.2 = NextTimer w)
  /\ (NewStatus = "active" -> is_Some (FindRef (EventMarkers s) EventId) ->
      nonnull (PulseCurve (Props s)) = true ->
      exists h, AnimationTimers r.1 !! EventId = Some h
                /\ Timers r.2 !! h = Some ("OnPulseTimelineUpdate", EventId)).
Proof.
  unfold EventStatusVisuals.
  destruct (FindRef (EventMarkers s) EventId) as [m|] eqn:Hm; simpl.
  2:{ split; [destruct s; reflexivity|].
      split; [discriminate|]. split; [reflexivity|].
      split; [reflexivity|]. split; [reflexivity|]. split; [auto|].
      intros _ [x Hx]. discriminate. }
  set (M := if decide (NewStatus = "active") then LiveEventMaterial (Props s)
            else UpcomingEventMaterial (Props s)).
  set (w1 := if nonnull M then SetMaterial m M w else w).
  assert (Hown : Actors w1 !! m = repainted M <$> Actors w !! m).
  { unfold w1, repainted. destruct (nonnull M); simpl.
    - apply lookup_alter_eq.
    - destruct (Actors w !! m) as [[]|]; reflexivity. }
  assert (Hother : forall a, Some m <> Some a -> Actors w1 !! a = Actors w !! a).
  { intros a Ha. unfold w1. destruct (nonnull M); simpl; [|reflexivity].
    apply lookup_alter_ne. congruence. }
  assert (Hrest : Components w1 = Components w /\ NextObject w1 = NextObject w
                  /\ Timers w1 = Timers w /\ NextTimer w1 = NextTimer w).
  { unfold w1. destruct (nonnull M); repeat split. }
  destruct Hrest as (Hc & Hn & Ht & Hnt).
  destruct (decide (NewStatus = "active")) as [Ha|Hna]; simpl.
  - destruct (StartPulseAnimation_writes EventId s w1) as (H1 & H2 & H3 & H4).
    split; [exact H1|]. rewrite H2, H3, H4.
    split; [intros ? [= <-]; exact Hown|]. split; [exact Hother|].
    split; [exact Hc|]. split; [exact Hn|]. split.
    { intros [Hne|Hnone]; [contradiction|discriminate]. }
    intros _ _ Hcurve. apply StartPulseAnimation_starts, Hcurve.
  - split; [destruct s; reflexivity|].
    split; [intros ? [= <-]; exact Hown|]. split; [exact Hother|].
    split; [exact Hc|]. split; [exact Hn|]. split; [auto|].
    intros Ha. contradiction.
Qed.

Lemma UpdatePlayerStatus_loop_absent PlayerId (ps : list FPlayerData.t) s w :
  Forall (fun p => FPlayerData.Id p <> PlayerId) ps ->
  UpdatePlayerStatus_loop PlayerId NewStatus ps s w = (ps, s, w).
Proof.
  induction 1 as [|p ps Hp _ IH]; simpl; [reflexivity|].
  destruct (decide (FPlayerData.Id p = PlayerId)); [contradiction|].
  rewrite IH. reflexivity.
Qed.

Lemma UpdatePlayerStatus_loop_first PlayerId
    (before : list FPlayerData.t) p after s w :
  Forall (fun q => FPlayerData.Id q <> PlayerId) before ->
  FPlayerData.Id p = PlayerId ->
  UpdatePlayerStatus_loop PlayerId NewStatus (before ++ p :: after) s w =
  (before ++ FPlayerData.set_Status NewStatus p :: after,
   (PlayerStatusVisuals PlayerId NewStatus s w).1,
   (PlayerStatusVisuals PlayerId NewStatus s w).2).
Proof.
  intros Hb Hp. induction Hb as [|q before Hq _ IH]; simpl.
  - destruct (decide (FPlayerData.Id p = PlayerId)); [|contradiction].
    destruct (PlayerStatusVisuals _ _ _ _); reflexivity.
  - destruct (decide (FPlayerData.Id q = PlayerId)); [contradiction|].
    rewrite IH. reflexivity.
Qed.

Lemma UpdateEventStatus_loop_absent EventId (es : list FEventData.t) s w :
  Forall (fun e => FEventData.Id e <> EventId) es ->
  UpdateEventStatus_loop EventId NewStatus es s w = (es, s, w).
Proof.
  induction 1 as [|e es He _ IH]; simpl; [reflexivity|].
  destruct (decide (FEventData.Id e = EventId)); [contradiction|].
  rewrite IH. reflexivity.
Qed.

Lemma UpdateEventStatus_loop_first EventId
    (before : list FEventData.t) e after s w :
  Forall (fun q => FEventData.Id q <> EventId) before ->
  FEventData.Id e = EventId ->
  UpdateEventStatus_loop EventId NewStatus (before ++ e :: after) s w =
  (before ++ FEventData.set_Status NewStatus e :: after,
   (EventStatusVisuals EventId NewStatus s w).1,
   (EventStatusVisuals EventId NewStatus s w).2).
Proof.
  intros Hb He. induction Hb as [|q before Hq _ IH]; simpl.
  - destruct (decide (FEventData.Id e = EventId)); [|contradiction].
    destruct (EventStatusVisuals _ _ _ _); reflexivity.
  - destruct (decide (FEventData.Id q = EventId)); [contradiction|].
    rewrite IH. reflexivity.
Qed.

(** X4. [UpdatePlayerStatus] writes [Players] and [AnimationTimers] and
    nothing else of the actor.  When no stored player has the id, the actor
    and the world are as before.  Otherwise exactly the first player with
    the id gets the new status; in the world only the actor stored as that
    player's marker changes, and of it only the material, which becomes the
    active material for the status "active" and the inactive one for any
    other, and stays when that material is not assigned.  A status other
    than "active" starts the fade timer of the marker when the fade curve
    is set; the status "active" starts no timer and stops none, so a fade
    started earlier goes on. *)
Theorem UpdatePlayerStatus_frame (PlayerId : FString) (s : AMapView)
    (w : World) :
  let s' := (UpdatePlayerStatus PlayerId NewStatus s w).1 in
  let w' := (UpdatePlayerStatus PlayerId NewStatus s w).2 in
  let M := if decide (NewStatus = "active") then ActivePlayerMaterial (Props s)
           else InactivePlayerMaterial (Props s) in
  s' = set_Players (Players s') (set_AnimationTimers (AnimationTimers s') s)
  /\ (Forall (fun p => FPlayerData.Id p <> PlayerId) (Players s) ->
      s' = s /\ w' = w)
  /\ (forall before p after,
        Players s = before ++ p :: after ->
        Forall (fun q => FPlayerData.Id q <> PlayerId) before ->
        FPlayerData.Id p = PlayerId ->
        Players s' = before ++ FPlayerData.set_Status NewStatus p :: after
        /\ (forall m, FindRef (PlayerMarkers s) PlayerId = Some m ->
              Actors w' !! m = repainted M <$> Actors w !! m)
        /\ (NewStatus <> "active" ->
            is_Some (FindRef (PlayerMarkers s) PlayerId) ->
            nonnull (FadeCurve (Props s)) = true ->
            exists h, AnimationTimers s' !! PlayerId = Some h
                      /\ Timers w' !! h = Some ("OnFadeTimelineUpdate", PlayerId)))
  /\ (forall a, FindRef (PlayerMarkers s) PlayerId <> Some a ->
        Actors w' !! a = Actors w !! a)
  /\ (NewStatus = "active" ->
      AnimationTimers s' = AnimationTimers s /\ Timers w' = Timers w)
  /\ Components w' = Components w /\ NextObject w' = NextObject w.
Proof.
  unfold UpdatePlayerStatus.
  destruct (first_with_id PlayerId (Players s))
    as [Habs|(before & p & after & Hsplit & Hb & Hp)].
  - rewrite (UpdatePlayerStatus_loop_absent _ _ _ _ Habs). simpl.
    split; [destruct s; reflexivity|].
    rewrite set_Players_same.
    split; [intros _; split; reflexivity|].
    split; [|repeat split; reflexivity].
    intros b q c Hs Hbq Hq. exfalso.
    rewrite Hs in Habs. apply Forall_app in Habs as [_ Habs].
    inversion Habs; subst; contradiction.
  - rewrite Hsplit, (UpdatePlayerStatus_loop_first _ _ _ _ _ _ Hb Hp). simpl.
    destruct (PlayerStatusVisuals_spec PlayerId s w)
      as (Hw & Hown & Hother & Hc & Hn & Hquiet & Hfade).
    simpl in Hw, Hown, Hother, Hc, Hn, Hquiet, Hfade.
    split.
    { rewrite Hw at 1. destruct s; reflexivity. }
    split.
    { intros Habs. exfalso.
      apply Forall_app in Habs as [_ Habs]. inversion Habs; subst; contradiction. }
    split.
    { intros b q c Hs Hbq Hq.
      destruct (first_split_unique (fun x => FPlayerData.Id x = PlayerId)
                  _ _ _ _ _ _ Hs Hb Hp Hbq Hq) as (-> & -> & ->).
      split; [reflexivity|]. split; [exact Hown|exact Hfade]. }
    split; [exact Hother|]. split; [|split; assumption].
    intros Ha. destruct (Hquiet (or_introl Ha)) as (H1 & H2 & _). split; assumption.
Qed.

(** X5. [UpdateEventStatus] writes [Events] and [AnimationTimers] and
    nothing else of the actor.  When no stored event has the id, the actor
    and the world are as before.  Otherwise exactly the first event with
    the id gets the new status; in the world only the actor stored as that
    event's marker changes, and of it only the material, which becomes the
    live material for the status "active" and the upcoming one for any
    other, and stays when that material is not assigned.  The status
    "active" starts the pulse timer of the marker when the pulse curve is
    set; any other status starts no timer and stops none, so the marker of
    an event that is no longer live keeps its pulse timer. *)
Theorem UpdateEventStatus_frame (EventId : FString) (s : AMapView)
    (w : World) :
  let s' := (UpdateEventStatus EventId NewStatus s w).1 in
  let w' := (UpdateEventStatus EventId NewStatus s w).2 in
  let M := if decide (NewStatus = "active") then LiveEventMaterial (Props s)
           else UpcomingEventMaterial (Props s) in
  s' = set_Events (Events s') (set_AnimationTimers (AnimationTimers s') s)
  /\ (Forall (fun e => FEventData.Id e <> EventId) (Events s) ->
      s' = s /\ w' = w)
  /\ (forall before e after,
        Events s = before ++ e :: after ->
        Forall (fun q => FEventData.Id q <> EventId) before ->
        FEventData.Id e = EventId ->
        Events s' = before ++ FEventData.set_Status NewStatus e :: after
        /\ (forall m, FindRef (EventMarkers s) EventId = Some m ->
              Actors w' !! m = repainted M <$> Actors w !! m)
        /\ (NewStatus = "active" ->
            is_Some (FindRef (EventMarkers s) EventId) ->
            nonnull (PulseCurve (Props s)) = true ->
            exists h, AnimationTimers s' !! EventId = Some h
                      /\ Timers w' !! h = Some ("OnPulseTimelineUpdate", EventId)))
  /\ (forall a, FindRef (EventMarkers s) EventId <> Some a ->
        Actors w' !! a = Actors w !! a)
  /\ (NewStatus <> "active" ->
      AnimationTimers s' = AnimationTimers s /\ Timers w' = Timers w)
  /\ Components w' = Components w /\ NextObject w' = NextObject w.
Proof.
  unfold UpdateEventStatus.
  assert (Hcases : Forall (fun e => FEventData.Id e <> EventId) (Events s) \/
            exists before e after, Events s = before ++ e :: after /\
              Forall (fun q => FEventData.Id q <> EventId) before /\
              FEventData.Id e = EventId).
  { generalize (Events s) as es. induction es as [|q es IH].
    - left. constructor.
    - destruct (decide (FEventData.Id q = EventId)) as [E|N].
      + right. exists [], q, es. repeat split; [constructor|exact E].
      + destruct IH as [IH|(before & e & after & -> & Hb & He)].
        * left. constructor; assumption.
        * right. exists (q :: before), e, after.
          repeat split; [constructor; assumption|exact He]. }
  destruct Hcases as [Habs|(before & e & after & Hsplit & Hb & He)].
  - rewrite (UpdateEventStatus_loop_absent _ _ _ _ Habs). simpl.
    split; [destruct s; reflexivity|].
    rewrite set_Events_same.
    split; [intros _; split; reflexivity|].
    split; [|repeat split; reflexivity].
    intros b q c Hs Hbq Hq. exfalso.
    rewrite Hs in Habs. apply Forall_app in Habs as [_ Habs].
    inversion Habs; subst; contradiction.
  - rewrite Hsplit, (UpdateEventStatus_loop_first _ _ _ _ _ _ Hb He). simpl.
    destruct (EventStatusVisuals_spec EventId s w)
      as (Hw & Hown & Hother & Hc & Hn & Hquiet & Hpulse).
    simpl in Hw, Hown, Hother, Hc, Hn, Hquiet, Hpulse.
    split.
    { rewrite Hw at 1. destruct s; reflexivity. }
    split.
    { intros Habs. exfalso.
      apply Forall_app in Habs as [_ Habs]. inversion Habs; subst; contradiction. }
    split.
    { intros b q c Hs Hbq Hq.
      destruct (first_split_unique (fun x => FEventData.Id x = EventId)
                  _ _ _ _ _ _ Hs Hb He Hbq Hq) as (-> & -> & ->).
      split; [reflexivity|]. split; [exact Hown|exact Hpulse]. }
    split; [exact Hother|]. split; [|split; assumption].
    intros Ha. destruct (Hquiet (or_introl Ha)) as (H1 & H2 & _). split; assumption.
Qed.

End StatusChange.

(** X4 on the sample map: Ann, whose marker is actor 0, goes idle. *)
Lemma UpdatePlayerStatus_frame_witness :
  MapView.Players
    (MapView.UpdatePlayerStatus "p1" "idle" Sample.map1 Sample.world0).1 =
    [MapView.FPlayerData.set_Status "idle" Sample.ann; Sample.bob]
  /\ MapView.Material <$>
       MapView.Actors
         (MapView.UpdatePlayerStatus "p1" "idle" Sample.map1 Sample.world0).2
         !! 0%nat = Some (Some 107%nat)
  /\ exists h,
       MapView.AnimationTimers
         (MapView.UpdatePlayerStatus "p1" "idle" Sample.map1 Sample.world0).1
         !! "p1" = Some h
       /\ MapView.Timers
            (MapView.UpdatePlayerStatus "p1" "idle" Sample.map1 Sample.world0).2
            !! h = Some ("OnFadeTimelineUpdate", "p1").
Proof.
  destruct (proj1 (proj2 (proj2 (UpdatePlayerStatus_frame "idle" "p1"
                                   Sample.map1 Sample.world0)))
              [] Sample.ann [Sample.bob]) as (H1 & H2 & H3).
  - reflexivity.
  - constructor.
  - reflexivity.
  - split; [exact H1|]. split.
    + rewrite (H2 0%nat eq_refl). reflexivity.
    + apply H3; [discriminate|eexists; reflexivity|reflexivity].
Defined.

(** X5 on the sample map: the final, not yet on the map as a marker, is
    called off. *)
Lemma UpdateEventStatus_frame_witness :
  MapView.Events
    (MapView.UpdateEventStatus "e1" "cancelled"
       (MapView.set_Events [Sample.stray; Sample.final] Sample.map0)
       Sample.world0).1 =
    [Sample.stray; MapView.FEventData.set_Status "cancelled" Sample.final].
Proof.
  apply (proj1 (proj2 (proj2 (UpdateEventStatus_frame "cancelled" "e1"
                                (MapView.set_Events [Sample.stray; Sample.final]
                                                    Sample.map0)
                                Sample.world0)))
           [Sample.stray] Sample.final []).
  - reflexivity.
  - constructor; [discriminate|constructor].
  - reflexivity.
Defined.

(** ** The map view: animation timers up to the end of play *)

Section TimerLifecycle.
Import Float32 MapView.

(** Restarting the timer of one marker keeps every running timer under a
    stored handle: the handle that is dropped from the map is the one whose
    timer is cleared. *)
Lemma restart_keeps_held (AT : gmap string FTimerHandle)
    (T : gmap FTimerHandle (FString * FString)) k n v :
  (forall h, is_Some (T !! h) -> exists k', AT !! k' = Some h) ->
  forall h, is_Some (<[n := v]> (delete (default 0%nat (AT !! k)) T) !! h) ->
            exists k', <[k := n]> AT !! k' = Some h.
Proof.
  intros H h Hh. destruct (decide (h = n)) as [->|Hn].
  - exists k. apply lookup_insert_eq.
  - rewrite lookup_insert_ne in Hh by congruence.
    destruct (decide (h = default 0%nat (AT !! k))) as [->|Hd].
    + rewrite lookup_delete_eq in Hh. destruct Hh as [x Hx]. discriminate.
    + rewrite lookup_delete_ne in Hh by congruence.
      destruct (H h Hh) as [k' Hk']. exists k'.
      rewrite lookup_insert_ne; [exact Hk'|].
      intros Heq. apply Hd. subst. unfold FTimerHandle in *.
      rewrite Hk'. reflexivity.
Qed.

Lemma StartFadeAnimation_held k s w :
  timers_held s w ->
  timers_held (StartFadeAnimation k s w).1 (StartFadeAnimation k s w).2.
Proof.
  unfold timers_held, StartFadeAnimation. intros H.
  destruct (negb _); simpl; [exact H|]. apply restart_keeps_held, H.
Qed.

Lemma StartPulseAnimation_held k s w :
  timers_held s w ->
  timers_held (StartPulseAnimation k s w).1 (StartPulseAnimation k s w).2.
Proof.
  unfold timers_held, StartPulseAnimation. intros H.
  destruct (negb _); simpl; [exact H|]. apply restart_keeps_held, H.
Qed.

(** A step that writes neither the handles nor the timers. *)
Lemma timers_held_same s w s' w' :
  AnimationTimers s' = AnimationTimers s -> Timers w' = Timers w ->
  timers_held s w -> timers_held s' w'.
Proof. unfold timers_held. intros -> ->. auto. Qed.

Lemma DestroyMarkers_Timers m w : Timers (DestroyMarkers m w) = Timers w.
Proof.
  unfold DestroyMarkers. induction (map_to_list m) as [|kv l IH]; simpl.
  - reflexivity.
  - unfold DestroyMarker at 1. destruct kv.2; simpl; exact IH.
Qed.

Lemma for_each_invariant {D : Type} (Inv : AMapView -> World -> Prop)
    (body : nat -> D -> AMapView -> World -> AMapView * World) :
  (forall i d s w, Inv s w -> Inv (body i d s w).1 (body i d s w).2) ->
  forall (l : list D) i s w,
    Inv s w -> Inv (for_each body i l s w).1 (for_each body i l s w).2.
Proof.
  intros Hb l. induction l as [|d l IH]; intros i s w H; [exact H|].
  rewrite for_each_cons. apply IH, Hb, H.
Qed.

Variable env : Env.

Lemma SpawnVenueMarker_held i d s w :
  timers_held s w ->
  timers_held (SpawnVenueMarker env i d s w).1 (SpawnVenueMarker env i d s w).2.
Proof.
  apply timers_held_same;
    unfold SpawnVenueMarker, SpawnActor;
    destruct (SpawnSucceeds env _); simpl; try reflexivity;
    destruct (nonnull _); reflexivity.
Qed.

Lemma AddTooltip_held k a s w :
  AnimationTimers (AddTooltip k a s w).1 = AnimationTimers s
  /\ Timers (AddTooltip k a s w).2 = Timers w.
Proof. unfold AddTooltip. destruct (nonnull _); split; reflexivity. Qed.

Lemma SpawnPlayerMarker_held i d s w :
  timers_held s w ->
  timers_held (SpawnPlayerMarker env i d s w).1 (SpawnPlayerMarker env i d s w).2.
Proof.
  intros H. unfold SpawnPlayerMarker, SpawnActor.
  destruct (SpawnSucceeds env _); [|exact H].
  match goal with
  | |- context [AddTooltip ?k ?a ?s ?w] =>
      destruct (AddTooltip_held k a s w) as [H1 H2];
      destruct (AddTooltip k a s w) as [s1 w5]
  end.
  simpl in H1, H2.
  assert (H5 : timers_held s1 w5).
  { apply (timers_held_same s w); [exact H1| |exact H].
    rewrite H2. destruct (nonnull _); reflexivity. }
  destruct (decide _).
  - exact H5.
  - apply StartFadeAnimation_held. exact H5.
Qed.

Lemma SpawnEventMarker_held i d s w :
  timers_held s w ->
  timers_held (SpawnEventMarker env i d s w).1 (SpawnEventMarker env i d s w).2.
Proof.
  intros H. unfold SpawnEventMarker, SpawnActor.
  destruct (SpawnSucceeds env _); [|exact H].
  match goal with
  | |- context [AddTooltip ?k ?a ?s ?w] =>
      destruct (AddTooltip_held k a s w) as [H1 H2];
      destruct (AddTooltip k a s w) as [s1 w5]
  end.
  simpl in H1, H2.
  assert (H5 : timers_held s1 w5).
  { apply (timers_held_same s w); [exact H1| |exact H].
    rewrite H2. destruct (nonnull _); reflexivity. }
  destruct (decide _).
  - apply StartPulseAnimation_held. exact H5.
  - exact H5.
Qed.

Lemma PlayerStatusVisuals_held k st s w :
  timers_held s w ->
  timers_held (PlayerStatusVisuals k st s w).1 (PlayerStatusVisuals k st s w).2.
Proof.
  intros H. unfold PlayerStatusVisuals.
  destruct (FindRef _ _) as [m|]; [|exact H].
  match goal with
  | |- context [StartFadeAnimation k s ?w1] =>
      assert (H1 : timers_held s w1)
        by (apply (timers_held_same s w); [reflexivity| |exact H];
            destruct (nonnull _); reflexivity)
  end.
  destruct (decide _); [exact H1|].
  apply StartFadeAnimation_held, H1.
Qed.

Lemma EventStatusVisuals_held k st s w :
  timers_held s w ->
  timers_held (EventStatusVisuals k st s w).1 (EventStatusVisuals k st s w).2.
Proof.
  intros H. unfold EventStatusVisuals.
  destruct (FindRef _ _) as [m|]; [|exact H].
  match goal with
  | |- context [StartPulseAnimation k s ?w1] =>
      assert (H1 : timers_held s w1)
        by (apply (timers_held_same s w); [reflexivity| |exact H];
            destruct (nonnull _); reflexivity)
  end.
  destruct (decide _); [|exact H1].
  apply StartPulseAnimation_held, H1.
Qed.

Lemma UpdatePlayerStatus_loop_held k st (ps : list FPlayerData.t) s w :
  timers_held s w ->
  timers_held (UpdatePlayerStatus_loop k st ps s w).1.2
              (UpdatePlayerStatus_loop k st ps s w).2.
Proof.
  intros H. induction ps as [|p ps IH]; simpl; [exact H|].
  destruct (decide _).
  - pose proof (PlayerStatusVisuals_held k st s w H) as H1.
    destruct (PlayerStatusVisuals k st s w). exact H1.
  - destruct (UpdatePlayerStatus_loop k st ps s w) as [[ps' s1] w1]. exact IH.
Qed.

Lemma UpdateEventStatus_loop_held k st (es : list FEventData.t) s w :
  timers_held s w ->
  timers_held (UpdateEventStatus_loop k st es s w).1.2
              (UpdateEventStatus_loop k st es s w).2.
Proof.
  intros H. induction es as [|e es IH]; simpl; [exact H|].
  destruct (decide _).
  - pose proof (EventStatusVisuals_held k st s w H) as H1.
    destruct (EventStatusVisuals k st s w). exact H1.
  - destruct (UpdateEventStatus_loop k st es s w) as [[es' s1] w1]. exact IH.
Qed.

Lemma UpdatePlayerLocation_loop_Timers k l markers (ps : list FPlayerData.t) w :
  Timers (UpdatePlayerLocation_loop env k l markers ps w).2 = Timers w.
Proof.
  induction ps as [|p ps IH]; simpl; [reflexivity|].
  destruct (decide _).
  - simpl. destruct (FindRef markers k); reflexivity.
  - destruct (UpdatePlayerLocation_loop env k l markers ps w). exact IH.
Qed.

Lemma map_call_held c s w :
  timers_held s w ->
  timers_held (map_call env c s w).1 (map_call env c s w).2.
Proof.
  intros H. destruct c as [vs|ps|es|k l|k st|k st|z]; simpl.
  - unfold UpdateVenues, SpawnVenueMarkers. simpl.
    assert (H1 : timers_held (set_Venues vs (set_VenueMarkers ∅ s))
                             (DestroyMarkers (VenueMarkers s) w)).
    { apply (timers_held_same s w);
        [reflexivity|apply DestroyMarkers_Timers|exact H]. }
    destruct (negb _); [exact H1|].
    apply for_each_invariant; [apply SpawnVenueMarker_held|exact H1].
  - unfold UpdatePlayers, SpawnPlayerMarkers. simpl.
    assert (H1 : timers_held (set_Players ps (set_PlayerMarkers ∅ s))
                             (DestroyMarkers (PlayerMarkers s) w)).
    { apply (timers_held_same s w);
        [reflexivity|apply DestroyMarkers_Timers|exact H]. }
    destruct (negb _); [exact H1|].
    apply for_each_invariant; [apply SpawnPlayerMarker_held|exact H1].
  - unfold UpdateEvents, SpawnEventMarkers. simpl.
    assert (H1 : timers_held (set_Events es (set_EventMarkers ∅ s))
                             (DestroyMarkers (EventMarkers s) w)).
    { apply (timers_held_same s w);
        [reflexivity|apply DestroyMarkers_Timers|exact H]. }
    destruct (negb _); [exact H1|].
    apply for_each_invariant; [apply SpawnEventMarker_held|exact H1].
  - unfold UpdatePlayerLocation.
    pose proof (UpdatePlayerLocation_loop_Timers k l (PlayerMarkers s) (Players s) w) as Ht.
    destruct (UpdatePlayerLocation_loop env k l (PlayerMarkers s) (Players s) w)
      as [ps' w1].
    simpl in *. apply (timers_held_same s w); [reflexivity|exact Ht|exact H].
  - unfold UpdatePlayerStatus.
    pose proof (UpdatePlayerStatus_loop_held k st (Players s) s w H) as H1.
    destruct (UpdatePlayerStatus_loop k st (Players s) s w) as [[ps' s1] w1].
    exact H1.
  - unfold UpdateEventStatus.
    pose proof (UpdateEventStatus_loop_held k st (Events s) s w H) as H1.
    destruct (UpdateEventStatus_loop k st (Events s) s w) as [[es' s1] w1].
    exact H1.
  - destruct z; exact H.
Qed.

Lemma map_calls_held (cs : list MapCall) : forall s w,
  timers_held s w ->
  timers_held (map_calls env cs s w).1 (map_calls env cs s w).2.
Proof.
  unfold map_calls. induction cs as [|c cs IH]; intros s w H; [exact H|].
  simpl. pose proof (map_call_held c s w H) as H1.
  destruct (map_call env c s w) as [s1 w1]. apply IH, H1.
Qed.

(** The loop of [EndPlay] stops the timer of every handle it meets and no
    other. *)
Lemma clear_all_lookup (l : list (string * FTimerHandle)) w h :
  Timers (foldr ClearOne w l) !! h =
  if bool_decide (h ∈ l.*2) then None else Timers w !! h.
Proof.
  induction l as [|kv l IH]; simpl; [reflexivity|].
  destruct (decide (h = kv.2)) as [->|Hne].
  - rewrite lookup_delete_eq, bool_decide_eq_true_2; [reflexivity|].
    apply elem_of_cons. left. reflexivity.
  - rewrite lookup_delete_ne by congruence. rewrite IH.
    destruct (decide (h ∈ l.*2)) as [Hin|Hout].
    + rewrite !bool_decide_eq_true_2; [reflexivity| |exact Hin].
      apply elem_of_cons. right. exact Hin.
    + rewrite !bool_decide_eq_false_2; [reflexivity| |exact Hout].
      rewrite elem_of_cons. intros [?|?]; contradiction.
Qed.

(** X6. Start from a state in which every running timer is one whose handle
    the actor holds in [AnimationTimers]; with no timer running, as at
    construction, this is the case.  After any finite run of [UpdateVenues],
    [UpdatePlayers], [UpdateEvents], [UpdatePlayerLocation],
    [UpdatePlayerStatus], [UpdateEventStatus], [ZoomIn] and [ZoomOut]
    calls, whatever the outcome of the spawns, this still holds, and
    [EndPlay] then leaves no timer running. *)
Theorem EndPlay_stops_every_timer (cs : list MapCall) (s : AMapView)
    (w : World) :
  timers_held s w ->
  timers_held (map_calls env cs s w).1 (map_calls env cs s w).2
  /\ Timers (EndPlay (map_calls env cs s w).1 (map_calls env cs s w).2).2 = ∅.
Proof.
  intros H. pose proof (map_calls_held cs s w H) as H1.
  split; [exact H1|].
  destruct (map_calls env cs s w) as [s1 w1]. simpl in *.
  apply map_eq. intros h. rewrite lookup_empty, clear_all_lookup.
  destruct (decide (h ∈ (map_to_list (AnimationTimers s1)).*2)) as [Hin|Hout].
  - rewrite bool_decide_eq_true_2 by exact Hin. reflexivity.
  - rewrite bool_decide_eq_false_2 by exact Hout.
    destruct (Timers w1 !! h) as [v|] eqn:Hv; [|reflexivity].
    exfalso. apply Hout.
    destruct (H1 h) as [k Hk]; [rewrite Hv; eauto|].
    apply list_elem_of_fmap. exists (k, h). split; [reflexivity|].
    apply elem_of_map_to_list. exact Hk.
Qed.

End TimerLifecycle.

(** X6 on the sample map, on which no timer runs: Ann and Bob come in, Ann
    goes idle, the final goes live, and play ends. *)
Lemma EndPlay_stops_every_timer_witness :
  let r :=
    MapView.map_calls (Sample.env Sample.origin)
      [MapView.CallUpdatePlayers [Sample.ann; Sample.bob];
       MapView.CallUpdatePlayerStatus "p1" "idle";
       MapView.CallUpdateEvents [Sample.final]]
      Sample.map0 Sample.world0 in
  MapView.Timers (MapView.EndPlay r.1 r.2).2 = ∅.
Proof.
  apply (EndPlay_stops_every_timer (Sample.env Sample.origin)).
  intros h [x Hx]. simpl in Hx. rewrite lookup_empty in Hx. discriminate.
Defined.

(** ** The map view: tooltips under the mouse *)

Section Tooltips.
Import Float32 MapView.






End Tooltips.


(** ** The mouse wheel *)

Section Wheel.
Import Float32 MapView MapViewHandler.

Lemma fneg_involutive (x : float) : fneg (fneg x) = x.
Proof. destruct x; simpl; rewrite ?negb_involutive; reflexivity. Qed.

(** X11. [HandleZoom] leaves the actor alone for a wheel value equal to
    zero (of either sign) and is [ZoomIn] of the value otherwise, in both
    directions of the wheel and for a NaN: the branch taken for a value
    that is not positive negates it twice.  Hence a zoom that lies between
    [MinZoom] and [MaxZoom] still does after any wheel value. *)
Theorem HandleZoom_is_ZoomIn (Value : float) (s : AMapView) :
  HandleZoom Value s =
    (if SFeqb Value (of_Z 0) then s else ZoomIn Value s)
  /\ (within (MinZoom (Props s)) (MaxZoom (Props s)) (CurrentZoom s) = true ->
      within (MinZoom (Props s)) (MaxZoom (Props s))
             (CurrentZoom (HandleZoom Value s)) = true).
Proof.
  assert (H : HandleZoom Value s =
              if SFeqb Value (of_Z 0) then s else ZoomIn Value s).
  { unfold HandleZoom, ZoomOut. rewrite fneg_involutive.
    destruct (SFeqb Value (of_Z 0)); simpl; [reflexivity|].
    destruct (fltb _ Value); reflexivity. }
  split; [exact H|].
  intros Hw. rewrite H. destruct (SFeqb Value (of_Z 0)); [exact Hw|].
  apply ZoomIn_within, Hw.
Qed.

End Wheel.

(** X11 on the constructed actor: the wheel turned by -3 zooms as
    [ZoomIn (-3)] does, out to 1300. *)
Lemma HandleZoom_is_ZoomIn_witness :
  Float32.within (Float32.of_Z 500) (Float32.of_Z 5000)
    (MapView.CurrentZoom
       (MapViewHandler.HandleZoom (Float32.of_Z (-3)) MapView.AMapView_ctor)) = true.
Proof.
  apply (proj2 (HandleZoom_is_ZoomIn (Float32.of_Z (-3)) MapView.AMapView_ctor)).
  vm_compute. reflexivity.
Defined.

(** ** The map view: highlight markers and their filters *)

Section HighlightFilters.
Import Float32 MapView Highlights.

Variable Convert : FVector2D -> FVector.

Lemma bShouldBeVisible_passes h s :
  bShouldBeVisible h s =
  passes (CurrentPlayerFilter s) (CurrentTypeFilter s) h.
Proof.
  unfold bShouldBeVisible, passes.
  destruct (CoachingFlow.IsEmpty (CurrentPlayerFilter s)),
           (CoachingFlow.IsEmpty (CurrentTypeFilter s)),
           (bool_decide (FHighlightData.PlayerId h = CurrentPlayerFilter s)),
           (bool_decide (FHighlightData.HighlightType h = CurrentTypeFilter s));
    reflexivity.
Qed.

Lemma RefreshOne_placed h s :
  placed Convert s h ->
  RefreshOne h s = SetVisibility (FHighlightData.Id h) (bShouldBeVisible h s) s.
Proof.
  intros [H _]. unfold RefreshOne, FindRef. unfold FString in *.
  rewrite H. reflexivity.
Qed.

(** The loop of [SetHighlightFilters] over highlights of distinct ids whose
    markers are in place. *)
Lemma refresh_all (l : list FHighlightData.t) : forall s,
  NoDup (FHighlightData.Id <$> l) ->
  (forall h, h ∈ l -> placed Convert s h) ->
  let r := fold_left (fun t h => RefreshOne h t) l s in
  r = set_Meshes (Meshes r) s
  /\ (forall h, h ∈ l -> marked Convert r h)
  /\ (forall k, k ∉ FHighlightData.Id <$> l -> Meshes r !! k = Meshes s !! k).
Proof.
  induction l as [|h0 l IH]; intros s Hnd Hpl; simpl.
  - split; [destruct s; reflexivity|]. split; [|reflexivity].
    intros h Hh. inversion Hh.
  - rewrite fmap_cons in Hnd. apply NoDup_cons in Hnd as [Hfresh Hnd].
    assert (H0 : placed Convert s h0) by (apply Hpl, elem_of_cons; left; reflexivity).
    rewrite (RefreshOne_placed h0 s H0).
    set (s1 := SetVisibility (FHighlightData.Id h0) (bShouldBeVisible h0 s) s).
    assert (Hs1 : s1 = set_Meshes (Meshes s1) s) by (destruct s; reflexivity).
    destruct (IH s1 Hnd) as (Hr & Hin & Hout).
    { intros h Hh.
      assert (Hne : FHighlightData.Id h <> FHighlightData.Id h0).
      { intros Heq. apply Hfresh. rewrite <- Heq.
        apply list_elem_of_fmap. eauto. }
      destruct (Hpl h) as [H1 [v H2]]; [apply elem_of_cons; right; exact Hh|].
      split; [exact H1|]. exists v. unfold s1. simpl.
      rewrite lookup_alter_ne by congruence. exact H2. }
    set (r := fold_left (fun t h => RefreshOne h t) l s1) in *.
    split; [rewrite Hr, Hs1 at 1; destruct s; reflexivity|]. split.
    + intros h Hh. apply elem_of_cons in Hh as [->|Hh]; [|apply Hin, Hh].
      destruct H0 as [H1 [v H2]]. split.
      * rewrite Hr. exact H1.
      * rewrite (Hout _ Hfresh). unfold s1. simpl.
        rewrite lookup_alter_eq, H2. simpl.
        rewrite bShouldBeVisible_passes, Hr. reflexivity.
    + intros k Hk. rewrite not_elem_of_cons in Hk. destruct Hk as [Hk0 Hk].
      rewrite (Hout k Hk). unfold s1. simpl.
      apply lookup_alter_ne. congruence.
Qed.

(** The loop of [UpdateHighlights] that spawns the markers, over
    highlights of distinct ids, with the mesh set. *)
Lemma spawn_all (l : list FHighlightData.t) : forall s,
  nonnull (HighlightMarkerMesh s) = true ->
  NoDup (FHighlightData.Id <$> l) ->
  let r := fold_left (fun t h => SpawnHighlightMarker Convert h t) l s in
  r = set_Meshes (Meshes r) (set_HighlightMarkers (HighlightMarkers r) s)
  /\ (forall h, h ∈ l -> marked Convert r h)
  /\ (forall k, k ∉ FHighlightData.Id <$> l ->
        HighlightMarkers r !! k = HighlightMarkers s !! k
        /\ Meshes r !! k = Meshes s !! k).
Proof.
  induction l as [|h0 l IH]; intros s Hmesh Hnd; simpl.
  - split; [destruct s; reflexivity|]. split; [|auto].
    intros h Hh. inversion Hh.
  - rewrite fmap_cons in Hnd. apply NoDup_cons in Hnd as [Hfresh Hnd].
    set (s1 := SpawnHighlightMarker Convert h0 s).
    assert (Hs1 : s1 = set_Meshes (Meshes s1)
                         (set_HighlightMarkers (HighlightMarkers s1) s)).
    { unfold s1, SpawnHighlightMarker. rewrite Hmesh. destruct s; reflexivity. }
    assert (Hm1 : HighlightMarkers s1 =
                  <[FHighlightData.Id h0 := Some (FHighlightData.Id h0)]>
                    (HighlightMarkers s)).
    { unfold s1, SpawnHighlightMarker. rewrite Hmesh. reflexivity. }
    assert (Hc1 : Meshes s1 =
                  alter (fun x => mkMesh (StaticMesh x) (Material x)
                                         (WorldLocation x)
                                         (passes (CurrentPlayerFilter s)
                                                 (CurrentTypeFilter s) h0))
                        (FHighlightData.Id h0)
                        (<[FHighlightData.Id h0 :=
                             mkMesh (HighlightMarkerMesh s)
                                    (GetHighlightMaterial
                                       (FHighlightData.HighlightType h0) s)
                                    (Convert (FHighlightData.Coordinates h0))
                                    true]> (Meshes s))).
    { unfold s1, SpawnHighlightMarker. rewrite Hmesh. simpl.
      unfold UpdateHighlightMarkerVisibility. rewrite bShouldBeVisible_passes.
      reflexivity. }
    destruct (IH s1) as (Hr & Hin & Hout); [rewrite Hs1; exact Hmesh|exact Hnd|].
    set (r := fold_left (fun t h => SpawnHighlightMarker Convert h t) l s1) in *.
    split; [rewrite Hr, Hs1 at 1; destruct s; reflexivity|]. split.
    + intros h Hh. apply elem_of_cons in Hh as [->|Hh]; [|apply Hin, Hh].
      destruct (Hout _ Hfresh) as [H1 H2]. split.
      * etransitivity; [exact H1|]. rewrite Hm1. apply lookup_insert_eq.
      * etransitivity; [exact H2|].
        rewrite Hc1, lookup_alter_eq, lookup_insert_eq. simpl.
        rewrite Hr, Hs1. reflexivity.
    + intros k Hk. rewrite not_elem_of_cons in Hk. destruct Hk as [Hk0 Hk].
      destruct (Hout k Hk) as [H1 H2]. rewrite H1, H2, Hm1, Hc1.
      rewrite lookup_alter_ne, !lookup_insert_ne by congruence. auto.
Qed.

(** Writing the components of a state that differs from [s] in its
    components only gives such a state again. *)
Lemma set_Meshes_over m t s :
  t = set_Meshes (Meshes t) s ->
  set_Meshes m t = set_Meshes (Meshes (set_Meshes m t)) s.
Proof. intros ->. destruct s; reflexivity. Qed.

Lemma destroy_all_config (l : list (string * option string)) s :
  foldr DestroyOne s l = set_Meshes (Meshes (foldr DestroyOne s l)) s.
Proof.
  induction l as [|kv l IH]; simpl; [destruct s; reflexivity|].
  unfold DestroyOne at 1 3. destruct kv.2; [|exact IH].
  apply set_Meshes_over, IH.
Qed.

Lemma UpdateHighlights_filtered (hs : list FHighlightData.t) s :
  nonnull (HighlightMarkerMesh s) = true ->
  NoDup (FHighlightData.Id <$> hs) ->
  ActiveHighlights (UpdateHighlights Convert hs s) = hs
  /\ filtered Convert (UpdateHighlights Convert hs s).
Proof.
  intros Hmesh Hnd. unfold UpdateHighlights.
  set (s1 := foldr DestroyOne s (map_to_list (HighlightMarkers s))).
  set (s3 := set_ActiveHighlights hs (set_HighlightMarkers ∅ s1)).
  assert (H3 : nonnull (HighlightMarkerMesh s3) = true).
  { unfold s3, s1. rewrite destroy_all_config. exact Hmesh. }
  destruct (spawn_all hs s3 H3 Hnd) as (Hr & Hin & _).
  assert (Ha : ActiveHighlights
                 (fold_left (fun t h => SpawnHighlightMarker Convert h t) hs s3)
               = hs) by (rewrite Hr; reflexivity).
  split; [exact Ha|].
  intros h Hh. rewrite Ha in Hh. apply Hin, Hh.
Qed.

(** The loop of [ClearHighlightFilters] writes components only, and of
    them the visibility only; the markers it meets end up visible. *)
Lemma show_all_config (l : list (string * option string)) s :
  foldr ShowOne s l = set_Meshes (Meshes (foldr ShowOne s l)) s.
Proof.
  induction l as [|kv l IH]; simpl; [destruct s; reflexivity|].
  unfold ShowOne at 1 3. destruct kv.2; [|exact IH].
  apply set_Meshes_over, IH.
Qed.

Lemma show_all_shown (l : list (string * option string)) s n :
  shown <$> Meshes (foldr ShowOne s l) !! n = shown <$> Meshes s !! n.
Proof.
  induction l as [|kv l IH]; simpl; [reflexivity|].
  unfold ShowOne at 1. destruct kv.2 as [m|]; [|exact IH]. simpl.
  destruct (decide (n = m)) as [->|Hne].
  - rewrite lookup_alter_eq. fold shown. rewrite <- IH.
    destruct (Meshes (foldr ShowOne s l) !! m); reflexivity.
  - rewrite lookup_alter_ne by congruence. exact IH.
Qed.

Lemma show_all_met (l : list (string * option string)) s k n :
  (k, Some n) ∈ l ->
  Meshes (foldr ShowOne s l) !! n = shown <$> Meshes s !! n.
Proof.
  induction l as [|kv l IH]; simpl; intros Hin; [inversion Hin|].
  apply elem_of_cons in Hin as [<-|Hin].
  - unfold ShowOne at 1. simpl. rewrite lookup_alter_eq. fold shown.
    rewrite <- (show_all_shown l s n).
    destruct (Meshes (foldr ShowOne s l) !! n); reflexivity.
  - unfold ShowOne at 1. destruct kv.2 as [m|]; [|exact (IH Hin)]. simpl.
    destruct (decide (n = m)) as [->|Hne].
    + rewrite lookup_alter_eq. fold shown. rewrite (IH Hin).
      destruct (Meshes s !! m); reflexivity.
    + rewrite lookup_alter_ne by congruence. exact (IH Hin).
Qed.

Lemma filter_call_filtered c s :
  NoDup (FHighlightData.Id <$> ActiveHighlights s) ->
  filtered Convert s ->
  ActiveHighlights (filter_call c s) = ActiveHighlights s
  /\ filtered Convert (filter_call c s).
Proof.
  intros Hnd Hf. destruct c as [P T Ty|]; unfold filter_call.
  - unfold SetHighlightFilters.
    set (s1 := set_Filters P T Ty s).
    destruct (refresh_all (ActiveHighlights s1) s1 Hnd) as (Hr & Hin & _).
    { intros h Hh. destruct (Hf h Hh) as [H1 H2].
      split; [exact H1|]. eexists. exact H2. }
    assert (Ha : ActiveHighlights
                   (fold_left (fun t h => RefreshOne h t) (ActiveHighlights s1) s1)
                 = ActiveHighlights s) by (rewrite Hr; reflexivity).
    split; [exact Ha|].
    intros h Hh. rewrite Ha in Hh. apply Hin, Hh.
  - unfold ClearHighlightFilters.
    set (s1 := set_Filters "" "" "" s).
    pose proof (show_all_config (map_to_list (HighlightMarkers s1)) s1) as Hr.
    set (r := foldr ShowOne s1 (map_to_list (HighlightMarkers s1))) in *.
    assert (Ha : ActiveHighlights r = ActiveHighlights s)
      by (rewrite Hr; reflexivity).
    split; [exact Ha|].
    intros h Hh. rewrite Ha in Hh. destruct (Hf h Hh) as [H1 H2]. split.
    + rewrite Hr. exact H1.
    + etransitivity.
      { apply (show_all_met _ s1 (FHighlightData.Id h)).
        apply elem_of_map_to_list. exact H1. }
      simpl. unfold FString in *. rewrite H2. simpl. rewrite Hr. reflexivity.
Qed.

Lemma filter_calls_filtered (cs : list FilterCall) : forall s,
  NoDup (FHighlightData.Id <$> ActiveHighlights s) ->
  filtered Convert s ->
  ActiveHighlights (filter_calls cs s) = ActiveHighlights s
  /\ filtered Convert (filter_calls cs s).
Proof.
  unfold filter_calls. induction cs as [|c cs IH]; intros s Hnd Hf; simpl.
  - split; [reflexivity|exact Hf].
  - destruct (filter_call_filtered c s Hnd Hf) as [Ha1 Hf1].
    destruct (IH (filter_call c s)) as [Ha Hf2];
      [rewrite Ha1; exact Hnd|exact Hf1|].
    split; [rewrite Ha; exact Ha1|exact Hf2].
Qed.

(** The material does not depend on the case of the type. *)
Lemma GetHighlightMaterial_ignores_case (A B : FString) (s : Layer) :
  ChallengeCard.ToLower A = ChallengeCard.ToLower B ->
  GetHighlightMaterial A s = GetHighlightMaterial B s.
Proof.
  intros H. unfold GetHighlightMaterial, EqualsIgnoreCase. rewrite H.
  reflexivity.
Qed.

(** A type written in lower or in upper case gets the material of the
    type, a type that is none of the four the clutch play material. *)
Example off_case_type_gets_its_material :
  GetHighlightMaterial "hotstreak" Sample.layer = HotStreakMaterial Sample.layer
  /\ GetHighlightMaterial "HOTSTREAK" Sample.layer
     = HotStreakMaterial Sample.layer
  /\ GetHighlightMaterial "impactplay" Sample.layer
     = ImpactPlayMaterial Sample.layer
  /\ GetHighlightMaterial "Dunk" Sample.layer = ClutchPlayMaterial Sample.layer
  /\ HotStreakMaterial Sample.layer <> ClutchPlayMaterial Sample.layer.
Proof. repeat split; vm_compute; congruence. Qed.


(** A round of the loop of [SetHighlightFilters] does not look at the team
    filter. *)
Lemma RefreshOne_team h T u :
  RefreshOne h (set_Filters (CurrentPlayerFilter u) T (CurrentTypeFilter u) u) =
  set_Filters (CurrentPlayerFilter u) T (CurrentTypeFilter u) (RefreshOne h u)
  /\ CurrentPlayerFilter (RefreshOne h u) = CurrentPlayerFilter u
  /\ CurrentTypeFilter (RefreshOne h u) = CurrentTypeFilter u.
Proof.
  unfold RefreshOne. simpl.
  destruct (FindRef (HighlightMarkers u) (FHighlightData.Id h));
    repeat split.
Qed.

Lemma refresh_all_team (l : list FHighlightData.t) T : forall u,
  fold_left (fun t h => RefreshOne h t) l
    (set_Filters (CurrentPlayerFilter u) T (CurrentTypeFilter u) u) =
  set_Filters (CurrentPlayerFilter u) T (CurrentTypeFilter u)
    (fold_left (fun t h => RefreshOne h t) l u).
Proof.
  induction l as [|h l IH]; intros u; simpl; [reflexivity|].
  destruct (RefreshOne_team h T u) as (H1 & H2 & H3).
  rewrite H1, <- H2, <- H3. apply IH.
Qed.

(** X8. The team filter is stored and never consulted: two calls of
    [SetHighlightFilters] that differ in the team filter only leave the
    same components, visibilities and all, and states that differ in the
    stored [CurrentTeamFilter] only. *)
Theorem team_filter_is_ignored
    (PlayerFilter TeamFilter TeamFilter' TypeFilter : FString) (s : Layer) :
  SetHighlightFilters PlayerFilter TeamFilter TypeFilter s =
  set_Filters PlayerFilter TeamFilter TypeFilter
    (SetHighlightFilters PlayerFilter TeamFilter' TypeFilter s)
  /\ Meshes (SetHighlightFilters PlayerFilter TeamFilter TypeFilter s) =
     Meshes (SetHighlightFilters PlayerFilter TeamFilter' TypeFilter s).
Proof.
  assert (H : SetHighlightFilters PlayerFilter TeamFilter TypeFilter s =
              set_Filters PlayerFilter TeamFilter TypeFilter
                (SetHighlightFilters PlayerFilter TeamFilter' TypeFilter s)).
  { unfold SetHighlightFilters.
    exact (refresh_all_team (ActiveHighlights s) TeamFilter
             (set_Filters PlayerFilter TeamFilter' TypeFilter s)). }
  split; [exact H|]. rewrite H. reflexivity.
Qed.

(** *** Clicks *)

(** With the markers in place and the ids distinct, the loop of
    [HandleHighlightMarkerClicked] finds the highlight the clicked marker
    was made for. *)
Lemma ClickedHighlight_found (l : list FHighlightData.t) markers h :
  NoDup (FHighlightData.Id <$> l) -> h ∈ l ->
  (forall h', h' ∈ l ->
     markers !! FHighlightData.Id h' = Some (Some (FHighlightData.Id h'))) ->
  ClickedHighlight (Some (FHighlightData.Id h)) markers l = Some h.
Proof.
  induction l as [|h0 l IH]; intros Hnd Hin Hm; [inversion Hin|].
  rewrite fmap_cons in Hnd. apply NoDup_cons in Hnd as [Hfresh Hnd].
  simpl. unfold FindRef.
  assert (H0 : markers !! FHighlightData.Id h0 = Some (Some (FHighlightData.Id h0)))
    by (apply Hm, elem_of_cons; left; reflexivity).
  unfold FString in *. rewrite H0. simpl.
  apply elem_of_cons in Hin as [->|Hin].
  - destruct (decide _); [reflexivity|contradiction].
  - destruct (decide _) as [[= Heq]|_].
    + exfalso. apply Hfresh. rewrite Heq. apply list_elem_of_fmap. eauto.
    + apply IH; [exact Hnd|exact Hin|].
      intros h' Hh'. apply Hm, elem_of_cons. right. exact Hh'.
Qed.

(** A component that no highlight's marker is: no highlight is found. *)
Lemma ClickedHighlight_none (l : list FHighlightData.t) markers c :
  (forall k, markers !! k <> Some c) -> c <> None ->
  ClickedHighlight c markers l = None.
Proof.
  intros Hm Hc. induction l as [|h0 l IH]; simpl; [reflexivity|].
  unfold FindRef.
  destruct (markers !! FHighlightData.Id h0) as [[m|]|] eqn:E; simpl;
    [|exact IH|exact IH].
  destruct (decide _) as [Heq|_]; [|exact IH].
  exfalso. apply (Hm (FHighlightData.Id h0)). rewrite <- Heq. exact E.
Qed.

(** X9. After [UpdateHighlights] with the highlight mesh set and highlights
    of pairwise distinct ids, and any run of filter calls, a click on the
    marker of one of the highlights broadcasts that highlight through
    [OnHighlightSelected], once, whether the marker is visible or not.
    Without the mesh, [UpdateHighlights] stores the highlights and no
    marker, and no click on a component selects anything. *)
Theorem click_selects_the_highlight_of_the_marker
    (hs : list FHighlightData.t) (cs : list FilterCall) (s0 : Layer) :
  (nonnull (HighlightMarkerMesh s0) = true ->
   NoDup (FHighlightData.Id <$> hs) ->
   forall h, h ∈ hs ->
     let s := filter_calls cs (UpdateHighlights Convert hs s0) in
     HighlightMarkers s !! FHighlightData.Id h = Some (Some (FHighlightData.Id h))
     /\ Selected (HandleHighlightMarkerClicked (Some (FHighlightData.Id h)) s) =
        Selected s ++ [h])
  /\ (nonnull (HighlightMarkerMesh s0) = false ->
      let s := UpdateHighlights Convert hs s0 in
      ActiveHighlights s = hs /\ HighlightMarkers s = ∅
      /\ forall c, HandleHighlightMarkerClicked (Some c) s = s).
Proof.
  split.
  - intros Hmesh Hnd h Hh.
    destruct (UpdateHighlights_filtered hs s0 Hmesh Hnd) as [Ha0 Hf0].
    destruct (filter_calls_filtered cs (UpdateHighlights Convert hs s0))
      as [Ha' Hf]; [rewrite Ha0; exact Hnd|exact Hf0|].
    assert (Ha : ActiveHighlights
                   (filter_calls cs (UpdateHighlights Convert hs s0)) = hs)
      by (rewrite Ha'; exact Ha0).
    simpl. set (s := filter_calls cs (UpdateHighlights Convert hs s0)) in *.
    split; [apply Hf; rewrite Ha; exact Hh|].
    unfold HandleHighlightMarkerClicked.
    rewrite (ClickedHighlight_found (ActiveHighlights s) (HighlightMarkers s) h).
    + reflexivity.
    + rewrite Ha. exact Hnd.
    + rewrite Ha. exact Hh.
    + intros h' Hh'. apply Hf, Hh'.
  - intros Hmesh. simpl. unfold UpdateHighlights.
    set (s1 := foldr DestroyOne s0 (map_to_list (HighlightMarkers s0))).
    set (s3 := set_ActiveHighlights hs (set_HighlightMarkers ∅ s1)).
    assert (H3 : nonnull (HighlightMarkerMesh s3) = false).
    { unfold s3, s1. rewrite destroy_all_config. exact Hmesh. }
    assert (Hfold : forall l t, nonnull (HighlightMarkerMesh t) = false ->
              fold_left (fun t h => SpawnHighlightMarker Convert h t) l t = t).
    { induction l as [|h l IH]; intros t Ht; simpl; [reflexivity|].
      unfold SpawnHighlightMarker at 2. rewrite Ht. simpl. apply IH, Ht. }
    rewrite (Hfold hs s3 H3).
    split; [reflexivity|]. split; [reflexivity|].
    intros c. unfold HandleHighlightMarkerClicked.
    rewrite ClickedHighlight_none; [reflexivity| |discriminate].
    intros k. simpl. rewrite lookup_empty. discriminate.
Qed.

End HighlightFilters.


(** X9 on the same highlights: a click on the hidden marker of the second
    one selects it. *)
Lemma click_selects_the_highlight_of_the_marker_witness :
  Highlights.Selected
    (Highlights.HandleHighlightMarkerClicked (Some "h2")
       (Highlights.filter_calls
          [Highlights.CallSetHighlightFilters "p1" "home" ""]
          (Highlights.UpdateHighlights Sample.to_world
             [Sample.clutch; Sample.streak] Sample.layer))) = [Sample.streak].
Proof.
  destruct (proj1 (click_selects_the_highlight_of_the_marker Sample.to_world
              [Sample.clutch; Sample.streak]
              [Highlights.CallSetHighlightFilters "p1" "home" ""]
              Sample.layer)) with (h := Sample.streak) as [_ H].
  - reflexivity.
  - apply NoDup_cons. split; [|apply NoDup_singleton].
    rewrite list_elem_of_singleton. discriminate.
  - apply elem_of_cons. right. apply elem_of_cons. left. reflexivity.
  - exact H.
Defined.

(** ** The coaching flow: whole exchanges *)

Section CoachingSession.
Import CoachingFlow.

Lemma flow_broadcasts_snoc l e :
  flow_broadcasts (l ++ [e]) =
  flow_broadcasts l ++
  match e with OnFlowStateChanged_Broadcast st => [st] | _ => [] end.
Proof. unfold flow_broadcasts. rewrite omap_app. destruct e; reflexivity. Qed.

(** Go through the bindings and the state of a widget, and through the
    text of a message that is not empty. *)
Ltac exchange_cases s Message :=
  destruct s as [[scroll container input send voice player image] st hist v log];
  destruct Message as [|c rest]; [try discriminate|];
  destruct st, player, image, scroll, input; simpl;
  rewrite <- ?app_assoc; simpl.

(** Find the prefix of a log that ends in the given effects. *)
Ltac split_suffix :=
  match goal with
  | |- exists l, ?pre ++ ?mid = l ++ ?suf =>
      first
        [ unify mid suf; exists pre; reflexivity
        | match mid with
          | ?e :: ?tl =>
              replace (pre ++ e :: tl) with ((pre ++ [e]) ++ tl)
                by (rewrite <- app_assoc; reflexivity);
              split_suffix
          end ]
  end.

(** X12. [SendMessage] with an empty text does nothing.  With any other
    text it appends to the history the message of "Player" with that text,
    without media, and after it one coach message, the response; the state
    moves on as the script says.  The call returns, except in
    [WeaknessIdentification] with the media player bound and the image
    display not; when it returns, the conversation written to the file is
    the new history with the new state, and the input box, if bound, has
    been cleared last. *)
Theorem SendMessage_exchange (now1 now2 : FDateTime) (Message : FString)
    (s : UCoachingFlowWidget) :
  SendMessage now1 now2 "" s = Returned s
  /\ (IsEmpty Message = false ->
      let o := SendMessage now1 now2 Message s in
      let s' := state_of o in
      (exists reply,
         MessageHistory s' =
           MessageHistory s ++ [mkMessage "Player" Message "" false now1; reply]
         /\ bIsCoach reply = true /\ SenderName reply = "Coach AI"
         /\ Timestamp reply = now2)
      /\ CurrentState s' =
         (if scripted (CurrentState s) then following (CurrentState s)
          else CurrentState s)
      /\ returned o = negb (video_without_image s)
      /\ (returned o = true ->
          exists l,
            Log s' = l ++ SaveStringToFile (MessageHistory s') (CurrentState s')
                       :: (if nonnull (MessageInputBox (Widgets s))
                           then [MessageInputBox_SetText ""] else []))).
Proof.
  split; [reflexivity|]. intros Hne.
  exchange_cases s Message;
    (split; [eexists; split; [reflexivity|]; repeat split|]);
    (split; [reflexivity|]); (split; [reflexivity|]);
    first [ intros Hf; discriminate Hf | intros _; split_suffix ].
Qed.

(** One exchange, when the video branch of [DisplayMedia] is safe. *)
Lemma SendMessage_step (now1 now2 : FDateTime) (Message : FString)
    (s : UCoachingFlowWidget) :
  IsEmpty Message = false -> video_can_show s ->
  exists reply s',
    SendMessage now1 now2 Message s = Returned s'
    /\ Widgets s' = Widgets s
    /\ bIsCoach reply = true
    /\ MessageHistory s' =
       MessageHistory s ++ [mkMessage "Player" Message "" false now1; reply]
    /\ CurrentState s' = advance (CurrentState s)
    /\ flow_broadcasts (Log s') =
       flow_broadcasts (Log s) ++
       (if scripted (CurrentState s) then [following (CurrentState s)] else []).
Proof.
  intros Hne Hv. unfold video_can_show in Hv.
  destruct s as [[scroll container input send voice player image] st hist v log];
    destruct Message as [|c rest]; [discriminate|];
    destruct player, image; simpl in Hv;
    try (specialize (Hv eq_refl); discriminate Hv);
    destruct st, scroll, input; simpl;
    eexists; eexists; (split; [reflexivity|]); simpl;
    rewrite <- ?app_assoc; simpl;
    repeat rewrite flow_broadcasts_app; simpl; rewrite ?app_nil_r;
    repeat split.
  all: reflexivity.
Qed.

Lemma Converse_runs (turns : list Turn) : forall s,
  Forall (fun t => IsEmpty (Said t) = false) turns ->
  video_can_show s ->
  exists replies s',
    Converse turns s = Returned s'
    /\ Widgets s' = Widgets s
    /\ length replies = length turns
    /\ Forall (fun reply => bIsCoach reply = true) replies
    /\ MessageHistory s' = MessageHistory s ++ exchanges turns replies
    /\ CurrentState s' = after_inputs (length turns) (CurrentState s)
    /\ flow_broadcasts (Log s') =
       flow_broadcasts (Log s) ++ announced (length turns) (CurrentState s).
Proof.
  induction turns as [|t turns IH]; intros s Hne Hv.
  - exists [], s. simpl. unfold exchanges. simpl. rewrite !app_nil_r.
    repeat split. constructor.
  - apply Forall_cons in Hne as [Ht Hne].
    destruct (SendMessage_step (SaidAt t) (AnsweredAt t) (Said t) s Ht Hv)
      as (reply & s1 & E1 & Hw1 & Hc1 & Hh1 & Hs1 & Hb1).
    destruct (IH s1 Hne) as (replies & s' & E & Hw & Hl & Hc & Hh & Hs & Hb).
    { unfold video_can_show. rewrite Hw1. exact Hv. }
    exists (reply :: replies), s'. simpl. rewrite E1. simpl.
    split; [exact E|]. split; [congruence|]. split; [simpl; congruence|].
    split; [constructor; assumption|].
    split.
    { rewrite Hh, Hh1. unfold exchanges, UserMessage. simpl.
      rewrite <- app_assoc. reflexivity. }
    split; [rewrite Hs, Hs1; reflexivity|].
    rewrite Hb, Hb1, Hs1, <- app_assoc. reflexivity.
Qed.

Lemma after_inputs_ProgressSummary n :
  after_inputs n ProgressSummary = ProgressSummary
  /\ announced n ProgressSummary = [].
Proof. induction n as [|n IH]; simpl; [split; reflexivity|exact IH]. Qed.

(** From [PerformanceReview] the script is walked through in order. *)
Lemma after_inputs_PerformanceReview n :
  after_inputs n PerformanceReview = nth n (PerformanceReview :: script) ProgressSummary
  /\ announced n PerformanceReview = take n script.
Proof.
  do 6 (destruct n as [|n]; [split; reflexivity|]).
  simpl. change (advance (advance (advance (advance (advance
                  (advance PerformanceReview)))))) with ProgressSummary.
  destruct (after_inputs_ProgressSummary n) as [-> ->].
  split; [destruct n as [|[|n]]; reflexivity|destruct n; reflexivity].
Qed.

(** X13. A whole session.  [StartCoachingFlow], then [SendMessage] for each
    of any number of texts, none empty, on a widget whose image display is
    bound if its media player is: every call returns.  After [n] texts the
    state is the [n]-th of the script that starts at [PerformanceReview],
    and [ProgressSummary] from the sixth text on; the states were announced
    once each, in that order, and none after [ProgressSummary]; and the
    history is the welcome message followed, for each text in turn, by the
    message of "Player" with that text and one coach message. *)
Theorem coaching_session_walks_the_script (now : FDateTime)
    (turns : list Turn) (s : UCoachingFlowWidget) :
  Forall (fun t => IsEmpty (Said t) = false) turns ->
  video_can_show s ->
  exists welcome replies s0 s',
    StartCoachingFlow now s = Returned s0
    /\ Converse turns s0 = Returned s'
    /\ CurrentState s' =
       nth (length turns) (PerformanceReview :: script) ProgressSummary
    /\ flow_broadcasts (Log s') =
       flow_broadcasts (Log s) ++ PerformanceReview :: take (length turns) script
    /\ length replies = length turns
    /\ Forall (fun reply => bIsCoach reply = true) (welcome :: replies)
    /\ MessageHistory s' = welcome :: exchanges turns replies.
Proof.
  intros Hne Hv.
  assert (Hstart : exists welcome s0,
            StartCoachingFlow now s = Returned s0
            /\ Widgets s0 = Widgets s /\ bIsCoach welcome = true
            /\ MessageHistory s0 = [welcome]
            /\ CurrentState s0 = PerformanceReview
            /\ flow_broadcasts (Log s0) =
               flow_broadcasts (Log s) ++ [PerformanceReview]).
  { destruct s as [[scroll container input send voice player image] st hist v log].
    unfold StartCoachingFlow, AddMessageToUI. simpl.
    destruct scroll; simpl; eexists; eexists;
      (split; [reflexivity|]); simpl;
      rewrite ?flow_broadcasts_app; simpl; rewrite ?app_nil_r;
      repeat split; reflexivity. }
  destruct Hstart as (welcome & s0 & E0 & Hw0 & Hc0 & Hh0 & Hs0 & Hb0).
  destruct (Converse_runs turns s0 Hne)
    as (replies & s' & E & _ & Hl & Hc & Hh & Hs & Hb).
  { unfold video_can_show. rewrite Hw0. exact Hv. }
  destruct (after_inputs_PerformanceReview (length turns)) as [Hn Ha].
  exists welcome, replies, s0, s'.
  split; [exact E0|]. split; [exact E|].
  split; [rewrite Hs, Hs0; exact Hn|].
  split; [rewrite Hb, Hb0, Hs0, Ha, <- app_assoc; reflexivity|].
  split; [exact Hl|]. split; [constructor; assumption|].
  rewrite Hh, Hh0. reflexivity.
Qed.

End CoachingSession.

(** X12 on the sample widget: the first answer. *)
Lemma SendMessage_exchange_witness :
  CoachingFlow.CurrentState
    (CoachingFlow.state_of (CoachingFlow.SendMessage 7 8 "fine" Sample.coach))
  = CoachingFlow.WeaknessIdentification.
Proof.
  apply (proj1 (proj2 (proj2 (SendMessage_exchange 7 8 "fine" Sample.coach)
                         eq_refl))).
Defined.

(** X13 on a constructed widget with every widget bound: seven answers. *)
Lemma coaching_session_walks_the_script_witness :
  exists s0 s',
    CoachingFlow.StartCoachingFlow 0
      (CoachingFlow.UCoachingFlowWidget_ctor
         (CoachingFlow.Widgets Sample.coach)) = CoachingFlow.Returned s0
    /\ CoachingFlow.Converse
         (map (fun n => CoachingFlow.mkTurn "yes" (Z.of_nat n) (Z.of_nat n))
              (seq 1 7)) s0 = CoachingFlow.Returned s'
    /\ CoachingFlow.CurrentState s' = CoachingFlow.ProgressSummary.
Proof.
  destruct (coaching_session_walks_the_script 0
              (map (fun n => CoachingFlow.mkTurn "yes" (Z.of_nat n) (Z.of_nat n))
                   (seq 1 7))
              (CoachingFlow.UCoachingFlowWidget_ctor
                 (CoachingFlow.Widgets Sample.coach)))
    as (welcome & replies & s0 & s' & E0 & E & Hs & _).
  - repeat constructor.
  - intros _. reflexivity.
  - exists s0, s'. split; [exact E0|]. split; [exact E|exact Hs].
Defined.

(** ** The coaching flow: the saved conversation *)

Section SavedConversation.
Import CoachingFlow.

Variable fmt : DateFormat.
Variable Now : nat -> FDateTime.

Lemma state_of_int32_of_state st :
  state_of_int32 (int32_of_state st) = Some st.
Proof. destruct st; reflexivity. Qed.

(** The file holds what the last save wrote. *)
Lemma SavedFile_app l1 l2 :
  SavedFile fmt (l1 ++ l2) =
  match SavedFile fmt l2 with Some d => Some d | None => SavedFile fmt l1 end.
Proof.
  induction l1 as [|e l1 IH]; simpl.
  - destruct (SavedFile fmt l2); reflexivity.
  - rewrite IH. destruct (SavedFile fmt l2); reflexivity.
Qed.

(** With the two media widgets both bound or both missing,
    [AddMessageToUI] returns, whatever the message. *)
Lemma AddMessageToUI_paired m s :
  media_widgets_paired s ->
  exists s',
    AddMessageToUI m s = Returned s'
    /\ Widgets s' = Widgets s
    /\ CurrentState s' = CurrentState s
    /\ MessageHistory s' = MessageHistory s ++ [m]
    /\ flow_broadcasts (Log s') = flow_broadcasts (Log s).
Proof.
  unfold media_widgets_paired, AddMessageToUI, DisplayMedia.
  destruct s as [[scroll container input send voice player image] st hist v log].
  simpl. intros Hp.
  destruct (IsEmpty (MediaURL m)), (EndsWith (MediaURL m) ".mp4"),
           player, image, scroll; try discriminate Hp; simpl;
    eexists; (split; [reflexivity|]); simpl;
    rewrite ?flow_broadcasts_app; simpl; rewrite ?app_nil_r;
    repeat split.
Qed.

(** The loop of [LoadConversationState] over what [ToJson] wrote. *)
Lemma LoadMessages_reads st (ms : list FCoachingMessage) : forall i s,
  media_widgets_paired s ->
  exists s',
    LoadMessages fmt Now i (jMessages (ToJson fmt ms st)) s = Returned s'
    /\ Widgets s' = Widgets s
    /\ CurrentState s' = CurrentState s
    /\ MessageHistory s' =
       MessageHistory s ++ imap (fun k => reread fmt Now (i + k)) ms
    /\ flow_broadcasts (Log s') = flow_broadcasts (Log s).
Proof.
  induction ms as [|m ms IH]; intros i s Hp; simpl.
  - exists s. rewrite app_nil_r. repeat split.
  - destruct (AddMessageToUI_paired
                (FromJson fmt (Now i)
                   (mkSaved (SenderName m) (MessageText m) (MediaURL m)
                            (bIsCoach m) (ToString fmt (Timestamp m)))) s Hp)
      as (s1 & E1 & Hw1 & Hs1 & Hh1 & Hb1).
    rewrite E1. simpl.
    destruct (IH (S i) s1) as (s' & E & Hw & Hs & Hh & Hb).
    { unfold media_widgets_paired. rewrite Hw1. exact Hp. }
    simpl in E. exists s'. split; [exact E|].
    split; [congruence|]. split; [congruence|]. split; [|congruence].
    rewrite Hh, Hh1, <- app_assoc. simpl. f_equal. f_equal.
    + unfold FromJson, reread. simpl. rewrite Nat.add_0_r. reflexivity.
    + apply imap_ext. intros k x _. simpl. f_equal. lia.
Qed.

(** Where [Parse] undoes [ToString], a message comes back as it was. *)
Lemma reread_same (ms : list FCoachingMessage) :
  Forall (fun m => Parse fmt (ToString fmt (Timestamp m)) = Some (Timestamp m))
         ms ->
  forall i, imap (fun k => reread fmt Now (i + k)) ms = ms.
Proof.
  induction 1 as [|m ms Hm _ IH]; intros i; [reflexivity|].
  rewrite imap_cons. f_equal.
  - unfold reread. rewrite Hm. destruct m; reflexivity.
  - rewrite <- (IH (S i)) at 2. apply imap_ext. intros k x _. simpl.
    f_equal. lia.
Qed.

(** X14. What [SaveConversationState] writes, [LoadConversationState]
    reads back.  Loading the file left by a save into a widget as
    constructed, whose two media widgets are both bound or both missing,
    returns and restores the state, which it announces, and the history:
    every message with its sender, text, media URL and coach flag, in
    order.  The timestamp of a message is what [FDateTime::Parse] makes of
    the text [FDateTime::ToString] gave, and the time of loading where
    [Parse] fails; where [Parse] gives back what [ToString] was given, the
    history is the saved one. *)
Theorem saved_conversation_is_restored (b : Bindings)
    (s : UCoachingFlowWidget) :
  nonnull (MediaPlayer b) = nonnull (ImageDisplay b) ->
  SavedFile fmt (Log (SaveConversationState s)) =
    Some (ToJson fmt (MessageHistory s) (CurrentState s))
  /\ exists s',
       LoadConversationState fmt Now
         (SavedFile fmt (Log (SaveConversationState s)))
         (UCoachingFlowWidget_ctor b) = Restored (Returned s')
       /\ CurrentState s' = CurrentState s
       /\ flow_broadcasts (Log s') = [CurrentState s]
       /\ MessageHistory s' = imap (reread fmt Now) (MessageHistory s)
       /\ (Forall (fun m => Parse fmt (ToString fmt (Timestamp m)) =
                            Some (Timestamp m)) (MessageHistory s) ->
           MessageHistory s' = MessageHistory s).
Proof.
  intros Hp.
  assert (Hfile : SavedFile fmt (Log (SaveConversationState s)) =
                  Some (ToJson fmt (MessageHistory s) (CurrentState s))).
  { unfold SaveConversationState. simpl. rewrite SavedFile_app. reflexivity. }
  split; [exact Hfile|]. rewrite Hfile.
  unfold LoadConversationState.
  destruct (LoadMessages_reads (CurrentState s) (MessageHistory s) 0
              (UCoachingFlowWidget_ctor b))
    as (s1 & E & Hw & Hs & Hh & Hb); [exact Hp|].
  rewrite E. simpl. rewrite state_of_int32_of_state.
  eexists. split; [reflexivity|]. simpl.
  split; [reflexivity|].
  split; [rewrite flow_broadcasts_app, Hb; reflexivity|].
  split; [exact Hh|].
  intros Hparse. rewrite Hh. simpl. exact (reread_same _ Hparse 0%nat).
Qed.

End SavedConversation.

(** X14 on the sample widget after its first exchange, at the seconds 3
    and 4: the file brings back the state and both messages as they were. *)
Lemma saved_conversation_is_restored_witness :
  let s := CoachingFlow.state_of
             (CoachingFlow.SendMessage 30000000 40000000 "fine" Sample.coach) in
  exists s',
    CoachingFlow.LoadConversationState Sample.seconds (fun _ => 0)
      (CoachingFlow.SavedFile Sample.seconds
         (CoachingFlow.Log (CoachingFlow.SaveConversationState s)))
      (CoachingFlow.UCoachingFlowWidget_ctor (CoachingFlow.Widgets Sample.coach))
    = CoachingFlow.Restored (CoachingFlow.Returned s')
    /\ CoachingFlow.CurrentState s' = CoachingFlow.WeaknessIdentification
    /\ CoachingFlow.MessageHistory s' = CoachingFlow.MessageHistory s.
Proof.
  intros s.
  destruct (proj2 (saved_conversation_is_restored Sample.seconds (fun _ => 0)
                     (CoachingFlow.Widgets Sample.coach) s eq_refl))
    as (s' & E & Hs & _ & _ & Hh).
  exists s'. split; [exact E|]. split; [exact Hs|].
  apply Hh. repeat constructor.
Defined.

(** ** Voice input: whole runs *)

Section VoiceRuns.
Import VoiceInput.

Lemma refusals_snoc cs c :
  refusals (cs ++ [c]) = refusals cs ++ refusals [c].
Proof. apply omap_app. Qed.

Lemma steps_snoc cs c s : steps (cs ++ [c]) s = step c (steps cs s).
Proof. unfold steps. rewrite fold_left_app. reflexivity. Qed.

(** X15. Nothing in the class creates the two audio components:
    [InitializeAudioCapture] is private and never called, so a manager is
    as its constructor leaves it, with both pointers null.  On an idle
    manager that misses one of the two components and holds no socket,
    whatever is called of [StartRecording], [StopRecording] and
    [SetLanguage], in any order and any number of times, recording never
    starts: the manager stays idle, no socket is created, the capture is
    not touched, and all that the run causes is the broadcast of "Failed
    to initialize audio capture", once for each [StartRecording]. *)
Theorem voice_input_never_starts (cs : list Step) (s : UVoiceInputManager) :
  bIsRecording s = false -> ValidateAudioSetup s = false ->
  WebSocket s = None ->
  bIsRecording (steps cs s) = false
  /\ ValidateAudioSetup (steps cs s) = false
  /\ WebSocket (steps cs s) = None
  /\ bCapturing (steps cs s) = bCapturing s
  /\ Log (steps cs s) = Log s ++ refusals cs.
Proof.
  intros Hrec Hvalid Hsocket.
  induction cs as [|c cs IH] using rev_ind.
  { simpl. rewrite app_nil_r. repeat split; assumption. }
  rewrite steps_snoc, refusals_snoc.
  destruct IH as (Hr & Hv & Hs & Hc & Hl).
  rewrite <- Hc, app_assoc, <- Hl.
  destruct (steps cs s)
    as [rec lang buf audio capture socket capturing connected next log].
  simpl in Hr, Hs. subst rec socket.
  unfold ValidateAudioSetup in *. simpl in Hv.
  destruct c; simpl; unfold StartRecording, ValidateAudioSetup; simpl;
    rewrite ?Hv; simpl; rewrite ?app_nil_r; repeat split; exact Hv.
Qed.

(** The sockets alive after a log that goes on. *)
Lemma live_app l1 : forall sockets l2,
  live sockets (l1 ++ l2) = live (live sockets l1) l2.
Proof.
  induction l1 as [|e l1 IH]; intros sockets l2; simpl; [reflexivity|].
  destruct e; apply IH.
Qed.

Lemma filter_out_self (k : nat) : filter (fun x => x <> k) [k] = [].
Proof.
  rewrite filter_cons. destruct (decide (k <> k)); [contradiction|reflexivity].
Qed.

Ltac step_cases s :=
  destruct s as [rec lang buf audio capture socket capturing connected next log];
  unfold StartRecording, StopRecording, SetLanguage, OnConnected,
    OnConnectionError, InitializeWebSocket, CleanupWebSocket,
    ValidateAudioSetup, held; simpl.

(** What a step adds to the log creates and deletes sockets so that the
    manager holds what is alive. *)
Lemma step_sockets c s :
  exists added,
    Log (step c s) = Log s ++ added
    /\ live (held s) added = held (step c s).
Proof.
  destruct c; step_cases s.
  - destruct rec, capture, audio, socket, connected; simpl;
      first [ exists []; rewrite app_nil_r; split; reflexivity
            | eexists; rewrite <- ?app_assoc; simpl;
              (split; [reflexivity|]); simpl;
              rewrite ?filter_out_self; reflexivity ].
  - destruct rec, capture, socket, connected; simpl;
      first [ exists []; rewrite app_nil_r; split; reflexivity
            | eexists; rewrite <- ?app_assoc; simpl;
              (split; [reflexivity|]); reflexivity ].
  - destruct socket, connected; simpl;
      first [ exists []; rewrite app_nil_r; split; reflexivity
            | eexists; (split; [reflexivity|]); reflexivity ].
  - destruct socket; simpl;
      first [ exists []; rewrite app_nil_r; split; reflexivity
            | eexists; (split; [reflexivity|]); reflexivity ].
  - destruct socket; simpl;
      first [ exists []; rewrite app_nil_r; split; reflexivity
            | eexists; (split; [reflexivity|]); reflexivity ].
Qed.

Lemma steps_sockets (cs : list Step) : forall s,
  live [] (Log s) = held s ->
  live [] (Log (steps cs s)) = held (steps cs s).
Proof.
  unfold steps. induction cs as [|c cs IH]; intros s H; [exact H|].
  simpl. apply IH.
  destruct (step_sockets c s) as (added & Hlog & Hlive).
  rewrite Hlog, live_app, H. exact Hlive.
Qed.

(** X16. At most one socket is alive, and it is the one the manager holds.
    Start from a manager of which this is true, one without a socket and
    with an empty log for instance.  After any run of [StartRecording],
    [StopRecording] and [SetLanguage] calls and of connection events, the
    sockets that were created and not deleted are exactly the one stored
    in [WebSocket], or none: each [StartRecording] that goes through
    deletes the socket of the one before.  [BeginDestroy] then leaves no
    socket alive and all three pointers null. *)
Theorem at_most_one_socket (cs : list Step) (s : UVoiceInputManager) :
  live [] (Log s) = held s ->
  live [] (Log (steps cs s)) = held (steps cs s)
  /\ (length (live [] (Log (steps cs s))) <= 1)%nat
  /\ live [] (Log (BeginDestroy (steps cs s))) = []
  /\ WebSocket (BeginDestroy (steps cs s)) = None
  /\ AudioComponent (BeginDestroy (steps cs s)) = None
  /\ CaptureComponent (BeginDestroy (steps cs s)) = None.
Proof.
  intros H. pose proof (steps_sockets cs s H) as Hs.
  split; [exact Hs|]. split.
  { rewrite Hs. unfold held. destruct (WebSocket _); simpl; lia. }
  revert Hs. generalize (steps cs s) as t. intros t.
  destruct t as [rec lang buf audio capture socket capturing connected next log].
  unfold BeginDestroy, CleanupAudioCapture, CleanupWebSocket, held. simpl.
  intros Hs.
  destruct socket, connected, capture, capturing, audio; simpl;
    rewrite <- ?app_assoc, ?live_app, ?Hs; simpl;
    rewrite ?filter_out_self; repeat split.
Qed.

(** X17. [StartRecording] on an idle manager whose two audio components
    exist, then [StopRecording]: the manager is idle again and the capture
    is stopped, but the socket that [StartRecording] created is still
    held, neither closed nor deleted, and since it was not connected yet
    no end-of-stream message was sent.  If the socket gets connected in
    between, [StopRecording] sends the message "end" after the capture
    has stopped. *)
Theorem recording_round_trip (ConfiguredUrl : option FString)
    (PlayerName : FString) (s : UVoiceInputManager) :
  bIsRecording s = false -> ValidateAudioSetup s = true ->
  let s1 := StartRecording ConfiguredUrl s in
  exists socket,
    WebSocket s1 = Some socket
    /\ bIsRecording (StopRecording s1) = false
    /\ bCapturing (StopRecording s1) = false
    /\ WebSocket (StopRecording s1) = Some socket
    /\ Log (StopRecording s1) = Log s1 ++ [Capture_Stop]
    /\ Log (StopRecording (OnConnected PlayerName s1)) =
       Log s1 ++ [WebSocket_Send socket [("type", "init");
                                         ("player_id", PlayerName);
                                         ("language", CurrentLanguage s)];
                  Capture_Stop;
                  WebSocket_Send socket [("type", "end")]].
Proof.
  intros Hrec Hvalid. step_cases s. simpl in Hrec, Hvalid. subst rec.
  unfold ValidateAudioSetup in Hvalid. simpl in Hvalid.
  destruct capture, audio; try discriminate Hvalid.
  destruct socket, connected; simpl; eexists; (split; [reflexivity|]);
    rewrite <- ?app_assoc; simpl; repeat split.
Qed.

End VoiceRuns.

(** X15 on a manager as constructed: two attempts to record. *)
Lemma voice_input_never_starts_witness :
  VoiceInput.bIsRecording
    (VoiceInput.steps
       [VoiceInput.CallStartRecording None; VoiceInput.CallSetLanguage "fr-FR";
        VoiceInput.CallStartRecording None; VoiceInput.CallStopRecording]
       VoiceInput.UVoiceInputManager_ctor) = false
  /\ VoiceInput.Log
       (VoiceInput.steps
          [VoiceInput.CallStartRecording None; VoiceInput.CallSetLanguage "fr-FR";
           VoiceInput.CallStartRecording None; VoiceInput.CallStopRecording]
          VoiceInput.UVoiceInputManager_ctor)
     = [VoiceInput.OnVoiceInputError_Broadcast "Failed to initialize audio capture";
        VoiceInput.OnVoiceInputError_Broadcast "Failed to initialize audio capture"].
Proof.
  destruct (voice_input_never_starts
              [VoiceInput.CallStartRecording None;
               VoiceInput.CallSetLanguage "fr-FR";
               VoiceInput.CallStartRecording None;
               VoiceInput.CallStopRecording]
              VoiceInput.UVoiceInputManager_ctor eq_refl eq_refl eq_refl)
    as (H1 & _ & _ & _ & H2).
  split; [exact H1|exact H2].
Defined.

(** X16 on the sample manager: two recordings, the socket of the first
    getting connected; one socket is alive at the end, the second. *)
Lemma at_most_one_socket_witness :
  VoiceInput.live []
    (VoiceInput.Log
       (VoiceInput.steps
          [VoiceInput.CallStartRecording None;
           VoiceInput.SocketConnected "ann";
           VoiceInput.CallStopRecording;
           VoiceInput.CallStartRecording None] Sample.manager)) = [4%nat].
Proof.
  etransitivity.
  - apply (at_most_one_socket
             [VoiceInput.CallStartRecording None;
              VoiceInput.SocketConnected "ann";
              VoiceInput.CallStopRecording;
              VoiceInput.CallStartRecording None] Sample.manager).
    reflexivity.
  - reflexivity.
Defined.

(** X17 on the sample manager. *)
Lemma recording_round_trip_witness :
  exists socket,
    VoiceInput.WebSocket
      (VoiceInput.StopRecording (VoiceInput.StartRecording None Sample.manager))
      = Some socket
    /\ VoiceInput.bIsRecording
         (VoiceInput.StopRecording (VoiceInput.StartRecording None Sample.manager))
       = false.
Proof.
  destruct (recording_round_trip None "ann" Sample.manager eq_refl eq_refl)
    as (socket & _ & H1 & _ & H2 & _).
  exists socket. split; [exact H2|exact H1].
Defined.

(** ** The timeline feed: what the scroll box shows *)

Section FeedShown.
Import TimelineFeed.

Lemma filter_out_fresh (c : ObjId) (l : list ObjId) :
  c ∉ l -> filter (fun k => k <> c) l = l.
Proof.
  induction l as [|k l IH]; intros H; [reflexivity|].
  apply not_elem_of_cons in H as [Hk Hl].
  rewrite filter_cons. destruct (decide (k <> c)) as [_|Heq].
  - rewrite (IH Hl). reflexivity.
  - exfalso. apply Heq. intros ->. apply Hk. reflexivity.
Qed.

(** The detaching loop on a list whose widgets are the children that are
    left, after the [i] it has passed: it takes the next [n] from the
    scroll box. *)
Lemma DetachOldest_children (n : nat) : forall (passed : list ObjId) s,
  FeedEntries s = Some <$> (passed ++ Children s) ->
  NoDup (Children s) ->
  (n <= length (Children s))%nat ->
  exists s',
    DetachOldest n (length passed) s = Some s'
    /\ FeedEntries s' = FeedEntries s
    /\ Children s' = drop n (Children s)
    /\ NextObject s' = NextObject s
    /\ same_config s s'.
Proof.
  induction n as [|n IH]; intros passed s Hlist Hnodup Hlen; simpl.
  - exists s. repeat split.
  - destruct (Children s) as [|c rest] eqn:Hc; [simpl in Hlen; lia|].
    assert (Hi : FeedEntries s !! length passed = Some (Some c)).
    { rewrite Hlist, list_lookup_fmap, lookup_app_r by lia.
      rewrite Nat.sub_diag. reflexivity. }
    rewrite Hi.
    apply NoDup_cons in Hnodup as [Hfresh Hrest].
    destruct (IH (passed ++ [c]) (RemoveFromParent c s))
      as (s' & H1 & H2 & H3 & H4 & H5).
    + unfold RemoveFromParent. simpl. rewrite Hc, filter_cons.
      destruct (decide (c <> c)); [congruence|].
      rewrite (filter_out_fresh _ _ Hfresh), <- app_assoc. exact Hlist.
    + unfold RemoveFromParent. simpl. rewrite Hc, filter_cons.
      destruct (decide (c <> c)); [congruence|].
      rewrite (filter_out_fresh _ _ Hfresh). exact Hrest.
    + unfold RemoveFromParent. simpl. rewrite Hc, filter_cons.
      destruct (decide (c <> c)); [congruence|].
      rewrite (filter_out_fresh _ _ Hfresh). simpl in Hlen. lia.
    + exists s'. rewrite length_app, Nat.add_comm in H1. simpl in H1.
      split; [exact H1|]. split; [exact H2|]. split.
      { rewrite H3. unfold RemoveFromParent. simpl. rewrite Hc, filter_cons.
        destruct (decide (c <> c)); [congruence|].
        rewrite (filter_out_fresh _ _ Hfresh). reflexivity. }
      split; [exact H4|exact H5].
Qed.

Lemma TrimOldEntries_children s :
  0 <= MaxEntries s ->
  FeedEntries s = Some <$> Children s -> NoDup (Children s) ->
  exists s',
    TrimOldEntries s = Some s'
    /\ Children s' =
       drop (length (Children s) - Z.to_nat (MaxEntries s)) (Children s)
    /\ FeedEntries s' = Some <$> Children s'
    /\ NextObject s' = NextObject s
    /\ same_config s s'.
Proof.
  intros Hmax Hlist Hnodup. unfold TrimOldEntries.
  assert (Hlen : length (FeedEntries s) = length (Children s))
    by (rewrite Hlist; apply length_fmap).
  rewrite Hlen.
  destruct (Z.gtb_spec (Z.of_nat (length (Children s))) (MaxEntries s))
    as [Hgt|Hle].
  - assert (Hn : Z.to_nat (Z.of_nat (length (Children s)) - MaxEntries s) =
                 (length (Children s) - Z.to_nat (MaxEntries s))%nat) by lia.
    rewrite Hn.
    destruct (DetachOldest_children
                (length (Children s) - Z.to_nat (MaxEntries s)) [] s)
      as (s1 & H1 & H2 & H3 & H4 & H5); [exact Hlist|exact Hnodup|lia|].
    simpl in H1. rewrite H1. unfold RemoveAtFront. rewrite H2, Hlen.
    destruct (Nat.leb_spec (length (Children s) - Z.to_nat (MaxEntries s))
                           (length (Children s))); [|lia].
    eexists. split; [reflexivity|]. simpl.
    split; [exact H3|]. split; [rewrite H3, Hlist; symmetry; apply fmap_drop|].
    split; [exact H4|].
    destruct H5 as (?&?&?&?&?). repeat split; assumption.
  - exists s. split; [reflexivity|].
    replace (length (Children s) - Z.to_nat (MaxEntries s))%nat with 0%nat by lia.
    repeat split. exact Hlist.
Qed.

Lemma CreateFeedEntryWidget_widget Entry s :
  Children (CreateFeedEntryWidget Entry s).2 = Children s
  /\ match (CreateFeedEntryWidget Entry s).1 with
     | Some widget =>
         widget = NextObject s
         /\ NextObject (CreateFeedEntryWidget Entry s).2 = S (NextObject s)
     | None => NextObject (CreateFeedEntryWidget Entry s).2 = NextObject s
     end.
Proof.
  unfold CreateFeedEntryWidget.
  destruct (negb _); [repeat split|].
  destruct (decide _); simpl; [repeat split|].
  destruct (bSetupEntryImplemented s); repeat split.
Qed.

Lemma shown_is_stored_grows s (n : ObjId) :
  shown_is_stored s -> (NextObject s <= n)%nat ->
  forall t, FeedEntries t = FeedEntries s -> Children t = Children s ->
            NextObject t = n -> shown_is_stored t.
Proof.
  intros (H1 & H2 & H3) Hn t Hf Hc Hnext. unfold shown_is_stored.
  rewrite Hf, Hc, Hnext. split; [exact H1|]. split; [exact H2|].
  eapply Forall_impl; [exact H3|]. simpl. intros; lia.
Qed.

Lemma AddFeedEntry_shown Entry s :
  0 <= MaxEntries s -> shown_is_stored s ->
  exists s', AddFeedEntry Entry s = Some s'
             /\ shown_is_stored s' /\ MaxEntries s' = MaxEntries s
             /\ (Z.of_nat (length (Children s)) <= MaxEntries s ->
                 Z.of_nat (length (Children s')) <= MaxEntries s).
Proof.
  intros Hmax Hs. unfold AddFeedEntry.
  destruct (nonnull (FeedScrollBox s)); simpl.
  2:{ exists s. repeat split; try apply Hs. auto. }
  destruct (CreateFeedEntryWidget_keeps Entry s) as [Hfe Hcfg].
  destruct (CreateFeedEntryWidget_widget Entry s) as [Hch Hw].
  destruct (CreateFeedEntryWidget Entry s) as [[widget|] s1];
    simpl in Hfe, Hcfg, Hch, Hw.
  - destruct Hw as [-> Hnext]. destruct Hs as (H1 & H2 & H3).
    set (s3 := set_FeedEntries (FeedEntries s1 ++ [Some (NextObject s)])
                 (set_Children (Children s1 ++ [NextObject s]) s1)).
    assert (Hm3 : MaxEntries s3 = MaxEntries s) by apply Hcfg.
    assert (Hfresh : NextObject s ∉ Children s).
    { intros Hin. rewrite Forall_forall in H3. specialize (H3 _ Hin). lia. }
    destruct (TrimOldEntries_children s3) as (s4 & E & Hc4 & Hf4 & Hn4 & Hcfg4).
    { rewrite Hm3. exact Hmax. }
    { unfold s3. simpl. rewrite Hfe, Hch, H1, fmap_app. reflexivity. }
    { unfold s3. simpl. rewrite Hch. apply NoDup_app. split; [exact H2|].
      split; [|apply NoDup_singleton].
      intros x Hx Hx'. apply list_elem_of_singleton in Hx'. subst x.
      exact (Hfresh Hx). }
    simpl. fold s3. rewrite E.
    assert (Hc3 : Children s3 = Children s ++ [NextObject s])
      by (unfold s3; simpl; rewrite Hch; reflexivity).
    assert (Hshown : shown_is_stored s4).
    { unfold shown_is_stored. split; [exact Hf4|]. rewrite Hc4, Hc3, Hn4.
      split.
      - refine (sublist_NoDup _ _ _ (sublist_drop _ _)). apply NoDup_app. split; [exact H2|].
        split; [|apply NoDup_singleton].
        intros x Hx Hx'. apply list_elem_of_singleton in Hx'. subst x.
        exact (Hfresh Hx).
      - apply Forall_drop. unfold s3. simpl. rewrite Hnext.
        apply Forall_app. split.
        + eapply Forall_impl; [exact H3|]. simpl. intros; lia.
        + constructor; [lia|constructor]. }
    assert (Hm4 : MaxEntries s4 = MaxEntries s).
    { destruct Hcfg4 as (_&_&_&->&_). exact Hm3. }
    eexists. split; [reflexivity|].
    unfold ScrollToLatest. destruct (nonnull (FeedScrollBox s4)); simpl;
      (split; [exact Hshown|]); (split; [exact Hm4|]);
      intros _; rewrite Hc4, Hc3, length_drop, length_app, Hm3; simpl; lia.
  - exists s1. split; [reflexivity|].
    split; [|split; [apply Hcfg|rewrite Hch; auto]].
    apply (shown_is_stored_grows s (NextObject s1) Hs); auto. lia.
Qed.

Lemma feed_call_shown c s :
  0 <= MaxEntries s -> shown_is_stored s ->
  Z.of_nat (length (Children s)) <= MaxEntries s ->
  exists s', feed_call c s = Some s'
             /\ shown_is_stored s' /\ MaxEntries s' = MaxEntries s
             /\ Z.of_nat (length (Children s')) <= MaxEntries s.
Proof.
  intros Hmax Hs Hlen. destruct c as [Entry|now BadgeData|]; simpl.
  - destruct (AddFeedEntry_shown Entry s Hmax Hs) as (s' & ? & ? & ? & ?).
    exists s'. auto.
  - unfold AddBadgeEntry. destruct (negb _).
    + exists s. auto.
    + destruct (AddFeedEntry_shown
                  (FFeedEntry.mk (FBadgeData.Name BadgeData)
                     (FBadgeData.Description BadgeData)
                     (FBadgeData.Icon BadgeData) now "badge" BadgeData)
                  s Hmax Hs) as (s' & ? & ? & ? & ?).
      exists s'. auto.
  - unfold ClearFeed. destruct (nonnull _); eexists; (split; [reflexivity|]).
    + split; [|split; [reflexivity|simpl; lia]].
      unfold shown_is_stored. simpl. split; [reflexivity|].
      split; [apply NoDup_nil_2|constructor].
    + auto.
Qed.

(** X18. What the scroll box shows is what the list stores.  Start from a
    widget whose [MaxEntries] is not negative and whose scroll box has as
    children the widgets of [FeedEntries], in order and each once, at most
    [MaxEntries] of them: the constructed widget, with no child and an
    empty list, is one.  After any run of [AddFeedEntry], [AddBadgeEntry]
    and [ClearFeed] calls this is so again: the entries that
    [TrimOldEntries] drops from the list are the ones it detaches from the
    scroll box, no widget is shown twice, none is stored without being
    shown, and the scroll box never holds more than [MaxEntries]
    children. *)
Theorem feed_shows_what_it_stores (s0 : UTimelineFeedWidget)
    (cs : list FeedCall) :
  0 <= MaxEntries s0 ->
  shown_is_stored s0 ->
  Z.of_nat (length (Children s0)) <= MaxEntries s0 ->
  exists s,
    feed_calls cs s0 = Some s
    /\ FeedEntries s = Some <$> Children s
    /\ NoDup (Children s)
    /\ Z.of_nat (length (Children s)) <= MaxEntries s0.
Proof.
  revert s0. induction cs as [|c cs IH]; intros s0 Hmax Hs Hlen; simpl.
  - exists s0. split; [reflexivity|]. split; [apply Hs|].
    split; [apply Hs|exact Hlen].
  - destruct (feed_call_shown c s0 Hmax Hs Hlen) as (s1 & E & Hs1 & Hm1 & Hl1).
    rewrite E. rewrite <- Hm1 in *. exact (IH s1 Hmax Hs1 Hl1).
Qed.

End FeedShown.

(** X18 on a feed of at most two entries, fed three: the scroll box shows
    the newest two. *)
Lemma feed_shows_what_it_stores_witness :
  exists s,
    TimelineFeed.feed_calls
      [TimelineFeed.CallAddFeedEntry Sample.stat_line;
       TimelineFeed.CallAddBadgeEntry 5 Sample.first_win;
       TimelineFeed.CallAddBadgeEntry 6 Sample.hot_streak]
      (Sample.short_feed 2) = Some s
    /\ TimelineFeed.FeedEntries s = Some <$> TimelineFeed.Children s.
Proof.
  destruct (feed_shows_what_it_stores (Sample.short_feed 2)
              [TimelineFeed.CallAddFeedEntry Sample.stat_line;
               TimelineFeed.CallAddBadgeEntry 5 Sample.first_win;
               TimelineFeed.CallAddBadgeEntry 6 Sample.hot_streak])
    as (s & E & H & _).
  - vm_compute. discriminate.
  - vm_compute. split; [reflexivity|]. split; [apply NoDup_nil_2|constructor].
  - vm_compute. discriminate.
  - exists s. split; [exact E|exact H].
Defined.

(** ** The challenge card and the media player: whole runs *)

Section CardRuns.
Import Float32 ChallengeCard.

Lemma UpdateProgress_Widgets cp s : Widgets (UpdateProgress cp s) = Widgets s.
Proof.
  unfold UpdateProgress, UpdateProgressDisplay.
  destruct (nonnull (ProgressBar (Widgets s)));
    match goal with
    | |- context [nonnull (ProgressText (Widgets ?t))] =>
        destruct (nonnull (ProgressText (Widgets t)))
    end; reflexivity.
Qed.

Lemma SetDifficultyColor_Widgets d s :
  Widgets (SetDifficultyColor d s) = Widgets s.
Proof.
  unfold SetDifficultyColor. destruct (nonnull _); [|reflexivity].
  destruct (_ !! _); reflexivity.
Qed.

Lemma SetCategoryIcon_Widgets c s : Widgets (SetCategoryIcon c s) = Widgets s.
Proof.
  unfold SetCategoryIcon. destruct (nonnull _); [|reflexivity].
  destruct (_ !! _); reflexivity.
Qed.

Lemma card_call_Widgets c s : Widgets (card_call c s) = Widgets s.
Proof.
  destruct c as [d|cp]; unfold card_call; [|apply UpdateProgress_Widgets].
  unfold SetupChallenge. cbv zeta.
  rewrite UpdateProgress_Widgets, SetCategoryIcon_Widgets,
    SetDifficultyColor_Widgets.
  repeat match goal with
         | |- context [if nonnull ?p then _ else _] => destruct (nonnull p)
         end; reflexivity.
Qed.

Lemma card_call_percents c s :
  exists added,
    percents (Log (card_call c s)) = percents (Log s) ++ added
    /\ Forall (fun p => within (of_Z 0) (of_Z 1) p = true) added
    /\ length added = if nonnull (ProgressBar (Widgets s)) then 1%nat else 0%nat.
Proof.
  destruct c as [d|cp]; unfold card_call;
    [rewrite SetupChallenge_percents|rewrite UpdateProgress_percents];
    eexists; (split; [reflexivity|]);
    destruct (nonnull _); (split; [|reflexivity]);
    repeat constructor; apply Clamp_within, zero_le_one.
Qed.

(** X19. The progress bar is never handed a value outside of 0 to 1.
    Whatever the challenges and the progress values of a run of
    [SetupChallenge] and [UpdateProgress] calls, a target of 0 or a
    negative progress among them, every value the run hands to
    [SetPercent] lies between 0 and 1, so it is never NaN; and the bar,
    when it is bound, gets one value for each call, none when it is
    not. *)
Theorem progress_bar_stays_in_range (cs : list CardCall)
    (s : UChallengeCardWidget) :
  exists added,
    percents (Log (card_calls cs s)) = percents (Log s) ++ added
    /\ Forall (fun p => within (of_Z 0) (of_Z 1) p = true) added
    /\ length added =
       if nonnull (ProgressBar (Widgets s)) then length cs else 0%nat.
Proof.
  unfold card_calls. revert s.
  induction cs as [|c cs IH]; intros s; simpl.
  - exists []. rewrite app_nil_r. split; [reflexivity|].
    split; [constructor|]. destruct (nonnull _); reflexivity.
  - destruct (card_call_percents c s) as (a1 & E1 & F1 & L1).
    destruct (IH (card_call c s)) as (a2 & E2 & F2 & L2).
    exists (a1 ++ a2). rewrite E2, E1, <- app_assoc.
    split; [reflexivity|]. split; [apply Forall_app; split; assumption|].
    rewrite length_app, L1, L2, card_call_Widgets.
    destruct (nonnull _); reflexivity.
Qed.

End CardRuns.

Section MediaRuns.
Import Float32 MediaPlayer.

Lemma clicks_snoc cs c s : clicks (cs ++ [c]) s = click c (clicks cs s).
Proof. unfold clicks. rewrite fold_left_app. reflexivity. Qed.

Lemma play_pause_clicks_snoc cs c :
  play_pause_clicks (cs ++ [c]) =
  (play_pause_clicks cs +
   match c with PlayPauseClicked => 1 | MuteClicked => 0 end)%nat.
Proof.
  induction cs as [|k cs IH]; simpl; [destruct c; reflexivity|].
  destruct k; rewrite IH; reflexivity.
Qed.

Lemma mute_clicks_snoc cs c :
  mute_clicks (cs ++ [c]) =
  (mute_clicks cs +
   match c with MuteClicked => 1 | PlayPauseClicked => 0 end)%nat.
Proof.
  induction cs as [|k cs IH]; simpl; [destruct c; reflexivity|].
  destruct k; rewrite IH; reflexivity.
Qed.

Lemma odd_succ_negb n : Nat.odd (n + 1) = negb (Nat.odd n).
Proof. rewrite Nat.add_1_r, Nat.odd_succ, <- Nat.negb_odd. reflexivity. Qed.

(** X20. Clicks on the two buttons of a widget whose media player and
    sound component exist.  After any run of clicks, [bIsPlaying] is what
    it was at the start when the play button was clicked an even number
    of times and the opposite when odd, and so is [bIsMuted] for the mute
    button: the clicks on one button leave the flag of the other alone.
    If the player was in the state [bIsPlaying] tells at the start, it is
    at the end; and if the volume multiplier was the one of [bIsMuted] at
    the start, or the mute button was clicked at all, it is the one of
    [bIsMuted] at the end: 0.0 when muted, 1.0 when not. *)
Theorem clicks_keep_flags_and_engine_in_step (cs : list Click)
    (s : UMediaPlayerWidget) :
  nonnull (MediaPlayer s) = true ->
  nonnull (SoundComponent s) = true ->
  bIsPlaying (clicks cs s) = xorb (bIsPlaying s) (Nat.odd (play_pause_clicks cs))
  /\ bIsMuted (clicks cs s) = xorb (bIsMuted s) (Nat.odd (mute_clicks cs))
  /\ (bPlayerPlaying s = bIsPlaying s ->
      bPlayerPlaying (clicks cs s) = bIsPlaying (clicks cs s))
  /\ (VolumeMultiplier s = volume_for (bIsMuted s) \/ mute_clicks cs <> 0%nat ->
      VolumeMultiplier (clicks cs s) = volume_for (bIsMuted (clicks cs s))).
Proof.
  intros Hplayer Hsound.
  assert (Hobjects : nonnull (MediaPlayer (clicks cs s)) = true
                     /\ nonnull (SoundComponent (clicks cs s)) = true
                     /\ bIsPlaying (clicks cs s) =
                        xorb (bIsPlaying s) (Nat.odd (play_pause_clicks cs))
                     /\ bIsMuted (clicks cs s) =
                        xorb (bIsMuted s) (Nat.odd (mute_clicks cs))
                     /\ (bPlayerPlaying s = bIsPlaying s ->
                         bPlayerPlaying (clicks cs s) = bIsPlaying (clicks cs s))
                     /\ (VolumeMultiplier s = volume_for (bIsMuted s)
                         \/ mute_clicks cs <> 0%nat ->
                         VolumeMultiplier (clicks cs s) =
                         volume_for (bIsMuted (clicks cs s)))).
  { induction cs as [|c cs IH] using rev_ind.
    - simpl. rewrite !xorb_false_r. repeat split; try assumption.
      + intros H; exact H.
      + intros [H|H]; [exact H|contradiction].
    - rewrite clicks_snoc, play_pause_clicks_snoc, mute_clicks_snoc.
      destruct IH as (Hp & Hs & Hplay & Hmute & Hengine & Hvolume).
      revert Hp Hs Hplay Hmute Hengine Hvolume.
      generalize (clicks cs s) as t. intros t.
      destruct t as [w player texture sound playing muted duration engine
                       volume log].
      simpl. intros Hp Hs Hplay Hmute Hengine Hvolume.
      destruct c; simpl; rewrite ?Nat.add_0_r, ?odd_succ_negb.
      + unfold OnPlayPauseClicked, TogglePlayPause, Play, Pause,
          UpdatePlayPauseButton. simpl. rewrite Hp.
        destruct playing; simpl;
          destruct (nonnull (PlayPauseButton w)); simpl;
          (split; [exact Hp|]); (split; [exact Hs|]);
          (split; [revert Hplay;
                   destruct (bIsPlaying s), (Nat.odd (play_pause_clicks cs));
                   simpl; intros Hplay;
                   first [discriminate Hplay|reflexivity]|]);
          (split; [exact Hmute|]); (split; [reflexivity|]); exact Hvolume.
      + unfold OnMuteClicked, ToggleMute, UpdateMuteButton. simpl. rewrite Hs.
        simpl.
        destruct (nonnull (MuteButton w)); simpl;
          (split; [exact Hp|]); (split; [exact Hs|]);
          (split; [exact Hplay|]);
          (split; [rewrite Hmute;
                   destruct (bIsMuted s), (Nat.odd (mute_clicks cs));
                   reflexivity|]);
          (split; [exact Hengine|]); intros _; destruct muted; reflexivity. }
  destruct Hobjects as (_ & _ & H1 & H2 & H3 & H4). auto.
Qed.

End MediaRuns.

(** X20 on the sample widget: play, mute, pause. *)
Lemma clicks_keep_flags_and_engine_in_step_witness :
  MediaPlayer.bIsPlaying
    (MediaPlayer.clicks
       [MediaPlayer.PlayPauseClicked; MediaPlayer.MuteClicked;
        MediaPlayer.PlayPauseClicked] Sample.video) = false
  /\ MediaPlayer.bIsMuted
       (MediaPlayer.clicks
          [MediaPlayer.PlayPauseClicked; MediaPlayer.MuteClicked;
           MediaPlayer.PlayPauseClicked] Sample.video) = true.
Proof.
  destruct (clicks_keep_flags_and_engine_in_step
              [MediaPlayer.PlayPauseClicked; MediaPlayer.MuteClicked;
               MediaPlayer.PlayPauseClicked] Sample.video eq_refl eq_refl)
    as (H1 & H2 & _).
  split; [exact H1|exact H2].
Defined.
